(** * NetPulse: the network sampling and metrics engine of [main.py]

    A shallow embedding of the engine part of [main.py]: the adapter
    enumerator ([pick_active_adapter_name]), the latency prober ([ping_once]),
    the rate sampler and history buffers ([NetPulseWindow.tick_stats]), the
    probe counters ([request_ping], [on_ping_done]) and the quality
    classifier ([quality_color], [split_series_by_quality]).

    Python values are modelled as follows.
    - [float] is Rocq's primitive binary64 [float]; arithmetic and comparisons
      are the IEEE 754 ones CPython uses.
    - [int] is [Z]; a conversion to [float] is rounded to nearest-even and
      raises [OverflowError] when the result does not fit.
    - [str] is a [string] holding the UTF-8 encoding of the text.
    - a [dict] read by key is a [gmap]; a [dict] that is iterated is the list
      of its items, in iteration order.
    - a raised exception is [None] in an [option], or the [None] outcome of
      the window monad [M]. *)

From Stdlib Require Import ZArith Floats Lia List String Ascii Bool.
From Stdlib Require Uint63.
From Stdlib Require Import Sorting.Sorted Sorting.Permutation.
From stdpp Require Import gmap strings list pretty.

Local Open Scope string_scope.
Local Open Scope list_scope.
Local Open Scope Z_scope.

(** ** Python numbers *)

(** The first integer whose conversion overflows a binary64 float: the
    midpoint between the largest finite float, [2^1024 - 2^971], and
    [2^1024], which rounds to even, that is up. *)
Definition float_overflow : Z := 2 ^ 1024 - 2 ^ 970.

(** An integer as a float with the integer as its mantissa and exponent 0:
    the exact operand of a correctly rounded operation. *)
Definition Z2SF (z : Z) : spec_float :=
  match z with
  | Z0 => S754_zero false
  | Zpos p => S754_finite false p 0
  | Zneg p => S754_finite true p 0
  end.

(** The float nearest to an integer (ties to even), infinite from
    [float_overflow] on. *)
Definition float_of_Z (z : Z) : float :=
  SF2Prim (binary_normalize prec emax z 0 false).

(** [float(z)], and the implicit conversion of an [int] operand in mixed
    arithmetic such as [d_sent * 8.0]: [None] is [OverflowError]. *)
Definition int_to_float (z : Z) : option float :=
  if Z.abs z <? float_overflow then Some (float_of_Z z) else None.

(** The float nearest to the quotient of two integers. *)
Definition rounded_quotient (a b : Z) : float :=
  SF2Prim (SFdiv prec emax (Z2SF a) (Z2SF b)).

(** [a / b] on two [int]s: the correctly rounded quotient. [None] is
    [ZeroDivisionError] or [OverflowError]. *)
Definition int_truediv (a b : Z) : option float :=
  if b =? 0 then None
  else if Z.abs a <? float_overflow * Z.abs b
       then Some (rounded_quotient a b)
       else None.

(** [max(a, b)] on floats: the first argument unless the second is strictly
    greater ([b > a]); a NaN second argument is never selected. *)
Definition py_max (a b : float) : float :=
  if PrimFloat.ltb a b then b else a.

(** [round(x)] on a float: the nearest integer, ties to even. [None] is
    [OverflowError] (infinities) or [ValueError] (NaN). *)
Definition round_half_even (m : positive) (e : Z) : Z :=
  match e with
  | Zneg p =>
      let d := 2 ^ Zpos p in
      let q := Zpos m / d in
      let r := Zpos m mod d in
      match 2 * r ?= d with
      | Lt => q
      | Gt => q + 1
      | Eq => if Z.even q then q else q + 1
      end
  | _ => Zpos m * 2 ^ e
  end.

Definition sf_round (x : spec_float) : option Z :=
  match x with
  | S754_zero _ => Some 0
  | S754_finite s m e =>
      let k := round_half_even m e in Some (if s then - k else k)
  | S754_infinity _ | S754_nan => None
  end.

Definition py_round (x : float) : option Z := sf_round (Prim2SF x).

(** ** Python strings *)

Definition ascii_in (lo hi : N) (c : ascii) : bool :=
  ((lo <=? N_of_ascii c) && (N_of_ascii c <=? hi))%N.

Definition ascii_shift (d : Z) (c : ascii) : ascii :=
  ascii_of_N (Z.to_N (Z.of_N (N_of_ascii c) + d)).

(** [str.lower()] on UTF-8 text, for the scripts the program's patterns are
    written in: ASCII capitals, and the Cyrillic capitals U+0400..U+042F
    (lead byte 0xD0; their small letters are U+0450..U+045F and
    U+0430..U+044F). Other code points are left as they are. *)
Fixpoint py_lower (s : string) : string :=
  match s with
  | EmptyString => EmptyString
  | String c1 t =>
      match t with
      | String c2 r =>
          if (N_of_ascii c1 =? 208)%N && ascii_in 144 159 c2
          then String c1 (String (ascii_shift 32 c2) (py_lower r))
          else if (N_of_ascii c1 =? 208)%N && ascii_in 160 175 c2
          then String (ascii_of_N 209) (String (ascii_shift (-32) c2) (py_lower r))
          else if (N_of_ascii c1 =? 208)%N && ascii_in 128 143 c2
          then String (ascii_of_N 209) (String (ascii_shift 16 c2) (py_lower r))
          else String (if ascii_in 65 90 c1 then ascii_shift 32 c1 else c1) (py_lower t)
      | EmptyString => String (if ascii_in 65 90 c1 then ascii_shift 32 c1 else c1) EmptyString
      end
  end.

(** [s.replace(c, "")] for a one-character [c]. *)
Fixpoint remove_char (c : ascii) (s : string) : string :=
  match s with
  | EmptyString => EmptyString
  | String x t => if Ascii.eqb x c then remove_char c t else String x (remove_char c t)
  end.

(** [s.find(pat)]: the lowest index where [pat] occurs, [None] for -1. *)
Fixpoint str_find (pat s : string) : option nat :=
  if String.prefix pat s then Some 0%nat
  else match s with
       | EmptyString => None
       | String _ t => option_map S (str_find pat t)
       end.

(** [pat in s]. *)
Definition str_contains (pat s : string) : bool :=
  match str_find pat s with Some _ => true | None => false end.

(** [s[n:]] and [s[:n]]. *)
Fixpoint str_drop (n : nat) (s : string) : string :=
  match n, s with
  | O, _ => s
  | S k, String _ t => str_drop k t
  | S _, EmptyString => EmptyString
  end.

Fixpoint str_take (n : nat) (s : string) : string :=
  match n, s with
  | O, _ => EmptyString
  | S k, String c t => String c (str_take k t)
  | S _, EmptyString => EmptyString
  end.

(** [s.endswith(suf)]. *)
Definition str_endswith (suf s : string) : bool :=
  (String.length suf <=? String.length s)%nat
  && String.eqb (str_drop (String.length s - String.length suf) s) suf.

(** *** [float(s)] on a string

    The grammar CPython accepts: surrounding whitespace, a sign, then
    [inf], [infinity] or [nan] in any case, or decimal digits with an
    optional point and an optional exponent; an underscore may stand between
    two digits. The value is the decimal number rounded to the nearest
    float. [None] is [ValueError]. Digits and spaces outside ASCII, which
    CPython also accepts, are not modelled: they are refused here. *)

Definition is_space (c : ascii) : bool :=
  ascii_in 9 13 c || ascii_in 28 32 c.

Definition is_digit (c : ascii) : bool := ascii_in 48 57 c.

Definition digit_val (c : ascii) : Z := Z.of_N (N_of_ascii c) - 48.

Fixpoint lstrip (s : string) : string :=
  match s with
  | String c t => if is_space c then lstrip t else s
  | EmptyString => EmptyString
  end.

Fixpoint rstrip (s : string) : string :=
  match s with
  | String c t =>
      match rstrip t with
      | EmptyString => if is_space c then EmptyString else String c EmptyString
      | t' => String c t'
      end
  | EmptyString => EmptyString
  end.

Definition str_strip (s : string) : string := rstrip (lstrip s).

(** Underscores are dropped when each stands between two digits; [prev] is
    the character before the one being read. *)
Fixpoint drop_underscores (prev : ascii) (s : string) : option string :=
  match s with
  | EmptyString => if Ascii.eqb prev "_" then None else Some EmptyString
  | String c t =>
      if Ascii.eqb c "_"
      then if is_digit prev then drop_underscores c t else None
      else if Ascii.eqb prev "_" && negb (is_digit c) then None
           else option_map (String c) (drop_underscores c t)
  end.

(** The leading digits of [s] appended to the decimal number [acc]: the
    number, how many digits were read, and what follows them. *)
Fixpoint read_digits (acc : Z) (n : nat) (s : string) : Z * nat * string :=
  match s with
  | String c t => if is_digit c then read_digits (10 * acc + digit_val c) (S n) t
                  else (acc, n, s)
  | EmptyString => (acc, n, s)
  end.

Definition read_sign (s : string) : bool * string :=
  match s with
  | String "-" t => (true, t)
  | String "+" t => (false, t)
  | _ => (false, s)
  end.

(** [m * 10^e] rounded to the nearest float, with the sign [neg]. *)
Definition decimal_to_SF (neg : bool) (m e : Z) : spec_float :=
  match m with
  | Z0 => S754_zero neg
  | _ =>
      if 0 <=? e
      then binary_normalize prec emax ((if neg then - m else m) * 10 ^ e) 0 false
      else SFdiv prec emax (Z2SF (if neg then - m else m)) (Z2SF (10 ^ (- e)))
  end.

(** The exponent part: empty, or [e] with an optional sign and at least one
    digit, up to the end of the text. *)
Definition read_exponent (s : string) : option Z :=
  match s with
  | EmptyString => Some 0
  | String c t =>
      if Ascii.eqb c "e" || Ascii.eqb c "E" then
        let '(neg, t') := read_sign t in
        match read_digits 0 0 t' with
        | (_, O, _) => None
        | (x, _, EmptyString) => Some (if neg then - x else x)
        | _ => None
        end
      else None
  end.

Definition parse_decimal (neg : bool) (s : string) : option spec_float :=
  let '(ip, ni, r1) := read_digits 0 0 s in
  let '(m, nf, r2) :=
    match r1 with
    | String "." t => read_digits ip 0 t
    | _ => (ip, O, r1)
    end in
  match (ni + nf)%nat with
  | O => None
  | _ => match read_exponent r2 with
         | Some x => Some (decimal_to_SF neg m (x - Z.of_nat nf))
         | None => None
         end
  end.

Definition float_literal (s : string) : option spec_float :=
  let '(neg, body) := read_sign (str_strip s) in
  let low := py_lower body in
  if String.eqb low "inf" || String.eqb low "infinity" then Some (S754_infinity neg)
  else if String.eqb low "nan" then Some S754_nan
  else match drop_underscores " " body with
       | Some digits => parse_decimal neg digits
       | None => None
       end.

Definition py_float_of_str (s : string) : option float :=
  option_map SF2Prim (float_literal s).

(** ** Quality classifier *)

Definition GREEN : string := "#4dff88".
Definition YELLOW : string := "#ffd24d".
Definition RED : string := "#ff4d4d".

(** What [quality_color] is called with: [None] (no latency), an [int]
    (a latency in milliseconds) or a [float] (a rate, a history sample). *)
Inductive pyvalue : Type :=
  | PyNone
  | PyInt (z : Z)
  | PyFloat (f : float).

(** [float(value)]; [None] is [TypeError] or [OverflowError]. *)
Definition to_float (value : pyvalue) : option float :=
  match value with
  | PyNone => None
  | PyInt z => int_to_float z
  | PyFloat f => Some f
  end.

(** [quality_color(value, good, ok, invert)]. The thresholds are floats; an
    [int] threshold such as [good_ping_ms] compares as the float of the same
    value. *)
Definition quality_color (value : pyvalue) (good ok : float) (invert : bool) : string :=
  match value with
  | PyNone => RED
  | _ =>
      match to_float value with
      | None => RED
      | Some v =>
          if is_nan v || is_infinity v then RED
          else if invert then
            if PrimFloat.leb v good then GREEN
            else if PrimFloat.leb v ok then YELLOW
            else RED
          else
            if PrimFloat.leb good v then GREEN
            else if PrimFloat.leb ok v then YELLOW
            else RED
      end
  end.

(** The six lists [split_series_by_quality] builds, in the order of its
    result: [(x_g, y_g), (x_y, y_y), (x_r, y_r)]. *)
Definition series : Type := list float * list float.

Definition split_step (good ok : float) (invert : bool)
    (acc : series * series * series) (xy : float * float) : series * series * series :=
  let '((x_g, y_g), (x_y, y_y), (x_r, y_r)) := acc in
  let '(x, y) := xy in
  let col := quality_color (PyFloat y) good ok invert in
  if String.eqb col GREEN then
    ((x_g ++ [x], y_g ++ [y]), (x_y ++ [x], y_y ++ [nan]), (x_r ++ [x], y_r ++ [nan]))
  else if String.eqb col YELLOW then
    ((x_g ++ [x], y_g ++ [nan]), (x_y ++ [x], y_y ++ [y]), (x_r ++ [x], y_r ++ [nan]))
  else
    ((x_g ++ [x], y_g ++ [nan]), (x_y ++ [x], y_y ++ [nan]), (x_r ++ [x], y_r ++ [y])).

(** [split_series_by_quality(xs, ys, good, ok, invert)] on two lists of
    floats, as the window passes them: the loop over [zip(xs, ys)]. *)
Definition split_series_by_quality (xs ys : list float) (good ok : float) (invert : bool)
    : series * series * series :=
  fold_left (split_step good ok invert) (zip xs ys) (([], []), ([], []), ([], [])).

(** ** Adapter enumerator *)

(** [psutil]'s [snicstats], the fields read here. *)
Record snicstats : Type := { isup : bool; speed : Z }.

(** [psutil]'s [snicaddr]: the family as its integer value and as the text
    [str(fam)], and the address. *)
Record snicaddr : Type := { family : Z; family_str : string; address : string }.

Definition deny_list : list string :=
  ["virtual"; "vmware"; "hyper-v"; "vbox"; "loopback"; "tunnel"; "tap"; "tun"; "vpn";
   "wintun"; "wireguard"].

(** The two tests that skip an interface: [name.lower().startswith(("lo",
    "loopback"))] and [any(x in low for x in deny_list)]. *)
Definition denied (name : string) : bool :=
  let low := py_lower name in
  (String.prefix "lo" low || String.prefix "loopback" low)
  || existsb (fun x => str_contains x low) deny_list.

(** The condition under which an address adds 10 to [ip_score]. *)
Definition counts_as_ipv4 (a : snicaddr) : bool :=
  negb (family a =? 0) && str_endswith "AF_INET" (family_str a)
  && negb (String.eqb (address a) "") && negb (String.eqb (address a) "127.0.0.1").

Definition ip_score (addrs : list snicaddr) : Z :=
  fold_left (fun acc a => if counts_as_ipv4 a then acc + 10 else acc) addrs 0.

(** [ip_score + speed_score / 10]: an [int] plus the float quotient of two
    [int]s. [None] is [OverflowError]. *)
Definition score (addrs : list snicaddr) (st : snicstats) : option float :=
  let speed_score := if speed st =? 0 then 0 else speed st in
  match int_truediv speed_score 10, int_to_float (ip_score addrs) with
  | Some q, Some i => Some (PrimFloat.add i q)
  | _, _ => None
  end.

(** The first loop: the candidates in enumeration order. *)
Fixpoint candidates (stats : list (string * snicstats)) (addrs : gmap string (list snicaddr))
    : option (list (float * string)) :=
  match stats with
  | [] => Some []
  | (name, st) :: rest =>
      if negb (isup st) || denied name then candidates rest addrs
      else match score (default [] (addrs !! name)) st with
           | Some sc => option_map (cons (sc, name)) (candidates rest addrs)
           | None => None
           end
  end.

(** [a < b] on two [(score, name)] tuples: the first components that differ
    ([==]) decide. *)
Definition cand_lt (a b : float * string) : bool :=
  if PrimFloat.eqb (fst a) (fst b) then String.ltb (snd a) (snd b)
  else PrimFloat.ltb (fst a) (fst b).

(** A stable sort that only asks [lt], as [list.sort] does. *)
Fixpoint insert_sorted {A} (lt : A -> A -> bool) (x : A) (l : list A) : list A :=
  match l with
  | [] => [x]
  | y :: l' => if lt y x then y :: insert_sorted lt x l' else x :: l
  end.

Definition stable_sort {A} (lt : A -> A -> bool) (l : list A) : list A :=
  fold_right (insert_sorted lt) [] l.

(** [l.sort(reverse=True)]: the list is reversed, sorted, and reversed
    again. *)
Definition sort_reverse {A} (lt : A -> A -> bool) (l : list A) : list A :=
  rev (stable_sort lt (rev l)).

(** The second loop: the first interface that is up. *)
Fixpoint first_up (stats : list (string * snicstats)) : option string :=
  match stats with
  | [] => None
  | (name, st) :: rest => if isup st then Some name else first_up rest
  end.

Definition no_network : string := "Нет сети".

(** [pick_active_adapter_name()], on what [psutil.net_if_stats()] and
    [psutil.net_if_addrs()] return. [None] is an exception raised while
    scoring. *)
Definition pick_active_adapter_name (stats : list (string * snicstats))
    (addrs : gmap string (list snicaddr)) : option string :=
  match candidates stats addrs with
  | None => None
  | Some cands =>
      match sort_reverse cand_lt cands with
      | c :: _ => Some (snd c)
      | [] => Some (default no_network (first_up stats))
      end
  end.

(** [list_adapters()]. *)
Definition list_adapters (stats : list (string * snicstats)) : list string :=
  stable_sort String.ltb (map fst stats).

(** ** Latency prober *)

(** What [subprocess.run] does: it raises, or the process ends with a return
    code and the two captured texts. *)
Inductive run_result : Type :=
  | LaunchError
  | Completed (returncode : Z) (stdout stderr : string).

(** The text between the first [key] and the first [unit] after it. *)
Definition token_after (key unit_ s : string) : option string :=
  match str_find key s with
  | None => None
  | Some idx =>
      let t := str_drop (idx + String.length key) s in
      match str_find unit_ t with
      | None => None
      | Some e => Some (remove_char "<" (str_take e t))
      end
  end.

(** [int(round(float(val)))] under [try]: [None] when one of the three
    raises. *)
Definition parse_ms (val : string) : option Z :=
  match py_float_of_str val with
  | Some f => py_round f
  | None => None
  end.

(** The parsing of [ping_once], from [s = out.lower().replace(" ", "")] on. *)
Definition parse_ping (out : string) : option Z :=
  let s := remove_char " " (py_lower out) in
  match token_after "time=" "ms" s with
  | Some val => parse_ms val
  | None =>
      match token_after "время=" "мс" s with
      | Some val => parse_ms val
      | None => None
      end
  end.

(** The command line, by platform. *)
Definition ping_cmd (win : bool) (host : string) (timeout_ms : Z) : list string :=
  if win then ["ping"; "-n"; "1"; "-w"; pretty timeout_ms; host]
  else ["ping"; "-c"; "1"; host].

(** [ping_once(host, timeout_ms)]: [run] stands for [subprocess.run], [win]
    for [sys.platform.startswith("win")]. The result is [int | None]. *)
Definition ping_once (run : list string -> run_result) (win : bool)
    (host : string) (timeout_ms : Z) : option Z :=
  match run (ping_cmd win host timeout_ms) with
  | LaunchError => None
  | Completed returncode stdout stderr =>
      let out := String.append stdout stderr in
      if negb (returncode =? 0) then None
      else parse_ping out
  end.

(** ** History buffers *)

(** [collections.deque] with a [maxlen]: the items, oldest first. *)
Record deque (A : Type) : Type := { dq_items : list A; dq_maxlen : nat }.
Arguments dq_items {A} _.
Arguments dq_maxlen {A} _.

(** [d.append(x)]: [x] is added on the right; when that exceeds [maxlen] the
    leftmost item is dropped. *)
Definition deque_append {A} (x : A) (d : deque A) : deque A :=
  let l := dq_items d ++ [x] in
  {| dq_items := if (dq_maxlen d <? length l)%nat then drop 1 l else l;
     dq_maxlen := dq_maxlen d |}.

(** [deque(iterable, maxlen=n)]: the items are appended one by one. *)
Definition deque_new {A} (l : list A) (n : nat) : deque A :=
  fold_left (fun d x => deque_append x d) l {| dq_items := []; dq_maxlen := n |}.

(** ** The window's engine state *)

(** The fields of [NetPulseWindow] the engine reads and writes; the widgets,
    timers and tray are left out, and so are [last_mbps_graph_down] and
    [last_mbps_graph_up], which are never written after construction. *)
Record Window : Type := {
  active_adapter : string;
  nic_last : gmap string (Z * Z * float);
  nic_speed_total_mbps : gmap string float;
  nic_speed_down_mbps : gmap string float;
  nic_speed_up_mbps : gmap string float;
  nic_sent_mb : gmap string float;
  nic_recv_mb : gmap string float;
  total_sent_mb : float;
  total_recv_mb : float;
  last_ping_ms : option Z;
  last_mbps_simple_total : float;
  last_mbps_simple_down : float;
  last_mbps_simple_up : float;
  last_mbps_graph_total : float;
  simple_hist_total : deque float;
  simple_hist_down : deque float;
  simple_hist_up : deque float;
  ping_sent : Z;
  ping_ok : Z;
  ping_fail : Z;
  t_hist : deque float;
  mbps_hist : deque float;
  ping_hist : deque float
}.

(** Assignment to one field. *)
Definition set_active_adapter (v : string) (w : Window) : Window :=
  Build_Window v (nic_last w) (nic_speed_total_mbps w) (nic_speed_down_mbps w)
    (nic_speed_up_mbps w) (nic_sent_mb w) (nic_recv_mb w) (total_sent_mb w)
    (total_recv_mb w) (last_ping_ms w) (last_mbps_simple_total w)
    (last_mbps_simple_down w) (last_mbps_simple_up w) (last_mbps_graph_total w)
    (simple_hist_total w) (simple_hist_down w) (simple_hist_up w) (ping_sent w)
    (ping_ok w) (ping_fail w) (t_hist w) (mbps_hist w) (ping_hist w).

Definition set_nic_last (v : gmap string (Z * Z * float)) (w : Window) : Window :=
  Build_Window (active_adapter w) v (nic_speed_total_mbps w) (nic_speed_down_mbps w)
    (nic_speed_up_mbps w) (nic_sent_mb w) (nic_recv_mb w) (total_sent_mb w)
    (total_recv_mb w) (last_ping_ms w) (last_mbps_simple_total w)
    (last_mbps_simple_down w) (last_mbps_simple_up w) (last_mbps_graph_total w)
    (simple_hist_total w) (simple_hist_down w) (simple_hist_up w) (ping_sent w)
    (ping_ok w) (ping_fail w) (t_hist w) (mbps_hist w) (ping_hist w).

Definition set_nic_speed_total_mbps (v : gmap string float) (w : Window) : Window :=
  Build_Window (active_adapter w) (nic_last w) v (nic_speed_down_mbps w)
    (nic_speed_up_mbps w) (nic_sent_mb w) (nic_recv_mb w) (total_sent_mb w)
    (total_recv_mb w) (last_ping_ms w) (last_mbps_simple_total w)
    (last_mbps_simple_down w) (last_mbps_simple_up w) (last_mbps_graph_total w)
    (simple_hist_total w) (simple_hist_down w) (simple_hist_up w) (ping_sent w)
    (ping_ok w) (ping_fail w) (t_hist w) (mbps_hist w) (ping_hist w).

Definition set_nic_speed_down_mbps (v : gmap string float) (w : Window) : Window :=
  Build_Window (active_adapter w) (nic_last w) (nic_speed_total_mbps w) v
    (nic_speed_up_mbps w) (nic_sent_mb w) (nic_recv_mb w) (total_sent_mb w)
    (total_recv_mb w) (last_ping_ms w) (last_mbps_simple_total w)
    (last_mbps_simple_down w) (last_mbps_simple_up w) (last_mbps_graph_total w)
    (simple_hist_total w) (simple_hist_down w) (simple_hist_up w) (ping_sent w)
    (ping_ok w) (ping_fail w) (t_hist w) (mbps_hist w) (ping_hist w).

Definition set_nic_speed_up_mbps (v : gmap string float) (w : Window) : Window :=
  Build_Window (active_adapter w) (nic_last w) (nic_speed_total_mbps w)
    (nic_speed_down_mbps w) v (nic_sent_mb w) (nic_recv_mb w) (total_sent_mb w)
    (total_recv_mb w) (last_ping_ms w) (last_mbps_simple_total w)
    (last_mbps_simple_down w) (last_mbps_simple_up w) (last_mbps_graph_total w)
    (simple_hist_total w) (simple_hist_down w) (simple_hist_up w) (ping_sent w)
    (ping_ok w) (ping_fail w) (t_hist w) (mbps_hist w) (ping_hist w).

Definition set_nic_sent_mb (v : gmap string float) (w : Window) : Window :=
  Build_Window (active_adapter w) (nic_last w) (nic_speed_total_mbps w)
    (nic_speed_down_mbps w) (nic_speed_up_mbps w) v (nic_recv_mb w) (total_sent_mb w)
    (total_recv_mb w) (last_ping_ms w) (last_mbps_simple_total w)
    (last_mbps_simple_down w) (last_mbps_simple_up w) (last_mbps_graph_total w)
    (simple_hist_total w) (simple_hist_down w) (simple_hist_up w) (ping_sent w)
    (ping_ok w) (ping_fail w) (t_hist w) (mbps_hist w) (ping_hist w).

Definition set_nic_recv_mb (v : gmap string float) (w : Window) : Window :=
  Build_Window (active_adapter w) (nic_last w) (nic_speed_total_mbps w)
    (nic_speed_down_mbps w) (nic_speed_up_mbps w) (nic_sent_mb w) v (total_sent_mb w)
    (total_recv_mb w) (last_ping_ms w) (last_mbps_simple_total w)
    (last_mbps_simple_down w) (last_mbps_simple_up w) (last_mbps_graph_total w)
    (simple_hist_total w) (simple_hist_down w) (simple_hist_up w) (ping_sent w)
    (ping_ok w) (ping_fail w) (t_hist w) (mbps_hist w) (ping_hist w).

Definition set_total_sent_mb (v : float) (w : Window) : Window :=
  Build_Window (active_adapter w) (nic_last w) (nic_speed_total_mbps w)
    (nic_speed_down_mbps w) (nic_speed_up_mbps w) (nic_sent_mb w) (nic_recv_mb w) v
    (total_recv_mb w) (last_ping_ms w) (last_mbps_simple_total w)
    (last_mbps_simple_down w) (last_mbps_simple_up w) (last_mbps_graph_total w)
    (simple_hist_total w) (simple_hist_down w) (simple_hist_up w) (ping_sent w)
    (ping_ok w) (ping_fail w) (t_hist w) (mbps_hist w) (ping_hist w).

Definition set_total_recv_mb (v : float) (w : Window) : Window :=
  Build_Window (active_adapter w) (nic_last w) (nic_speed_total_mbps w)
    (nic_speed_down_mbps w) (nic_speed_up_mbps w) (nic_sent_mb w) (nic_recv_mb w)
    (total_sent_mb w) v (last_ping_ms w) (last_mbps_simple_total w)
    (last_mbps_simple_down w) (last_mbps_simple_up w) (last_mbps_graph_total w)
    (simple_hist_total w) (simple_hist_down w) (simple_hist_up w) (ping_sent w)
    (ping_ok w) (ping_fail w) (t_hist w) (mbps_hist w) (ping_hist w).

Definition set_last_ping_ms (v : option Z) (w : Window) : Window :=
  Build_Window (active_adapter w) (nic_last w) (nic_speed_total_mbps w)
    (nic_speed_down_mbps w) (nic_speed_up_mbps w) (nic_sent_mb w) (nic_recv_mb w)
    (total_sent_mb w) (total_recv_mb w) v (last_mbps_simple_total w)
    (last_mbps_simple_down w) (last_mbps_simple_up w) (last_mbps_graph_total w)
    (simple_hist_total w) (simple_hist_down w) (simple_hist_up w) (ping_sent w)
    (ping_ok w) (ping_fail w) (t_hist w) (mbps_hist w) (ping_hist w).

Definition set_last_mbps_simple_total (v : float) (w : Window) : Window :=
  Build_Window (active_adapter w) (nic_last w) (nic_speed_total_mbps w)
    (nic_speed_down_mbps w) (nic_speed_up_mbps w) (nic_sent_mb w) (nic_recv_mb w)
    (total_sent_mb w) (total_recv_mb w) (last_ping_ms w) v (last_mbps_simple_down w)
    (last_mbps_simple_up w) (last_mbps_graph_total w) (simple_hist_total w)
    (simple_hist_down w) (simple_hist_up w) (ping_sent w) (ping_ok w) (ping_fail w)
    (t_hist w) (mbps_hist w) (ping_hist w).

Definition set_last_mbps_simple_down (v : float) (w : Window) : Window :=
  Build_Window (active_adapter w) (nic_last w) (nic_speed_total_mbps w)
    (nic_speed_down_mbps w) (nic_speed_up_mbps w) (nic_sent_mb w) (nic_recv_mb w)
    (total_sent_mb w) (total_recv_mb w) (last_ping_ms w) (last_mbps_simple_total w) v
    (last_mbps_simple_up w) (last_mbps_graph_total w) (simple_hist_total w)
    (simple_hist_down w) (simple_hist_up w) (ping_sent w) (ping_ok w) (ping_fail w)
    (t_hist w) (mbps_hist w) (ping_hist w).

Definition set_last_mbps_simple_up (v : float) (w : Window) : Window :=
  Build_Window (active_adapter w) (nic_last w) (nic_speed_total_mbps w)
    (nic_speed_down_mbps w) (nic_speed_up_mbps w) (nic_sent_mb w) (nic_recv_mb w)
    (total_sent_mb w) (total_recv_mb w) (last_ping_ms w) (last_mbps_simple_total w)
    (last_mbps_simple_down w) v (last_mbps_graph_total w) (simple_hist_total w)
    (simple_hist_down w) (simple_hist_up w) (ping_sent w) (ping_ok w) (ping_fail w)
    (t_hist w) (mbps_hist w) (ping_hist w).

Definition set_last_mbps_graph_total (v : float) (w : Window) : Window :=
  Build_Window (active_adapter w) (nic_last w) (nic_speed_total_mbps w)
    (nic_speed_down_mbps w) (nic_speed_up_mbps w) (nic_sent_mb w) (nic_recv_mb w)
    (total_sent_mb w) (total_recv_mb w) (last_ping_ms w) (last_mbps_simple_total w)
    (last_mbps_simple_down w) (last_mbps_simple_up w) v (simple_hist_total w)
    (simple_hist_down w) (simple_hist_up w) (ping_sent w) (ping_ok w) (ping_fail w)
    (t_hist w) (mbps_hist w) (ping_hist w).

Definition set_simple_hist_total (v : deque float) (w : Window) : Window :=
  Build_Window (active_adapter w) (nic_last w) (nic_speed_total_mbps w)
    (nic_speed_down_mbps w) (nic_speed_up_mbps w) (nic_sent_mb w) (nic_recv_mb w)
    (total_sent_mb w) (total_recv_mb w) (last_ping_ms w) (last_mbps_simple_total w)
    (last_mbps_simple_down w) (last_mbps_simple_up w) (last_mbps_graph_total w) v
    (simple_hist_down w) (simple_hist_up w) (ping_sent w) (ping_ok w) (ping_fail w)
    (t_hist w) (mbps_hist w) (ping_hist w).

Definition set_simple_hist_down (v : deque float) (w : Window) : Window :=
  Build_Window (active_adapter w) (nic_last w) (nic_speed_total_mbps w)
    (nic_speed_down_mbps w) (nic_speed_up_mbps w) (nic_sent_mb w) (nic_recv_mb w)
    (total_sent_mb w) (total_recv_mb w) (last_ping_ms w) (last_mbps_simple_total w)
    (last_mbps_simple_down w) (last_mbps_simple_up w) (last_mbps_graph_total w)
    (simple_hist_total w) v (simple_hist_up w) (ping_sent w) (ping_ok w) (ping_fail w)
    (t_hist w) (mbps_hist w) (ping_hist w).

Definition set_simple_hist_up (v : deque float) (w : Window) : Window :=
  Build_Window (active_adapter w) (nic_last w) (nic_speed_total_mbps w)
    (nic_speed_down_mbps w) (nic_speed_up_mbps w) (nic_sent_mb w) (nic_recv_mb w)
    (total_sent_mb w) (total_recv_mb w) (last_ping_ms w) (last_mbps_simple_total w)
    (last_mbps_simple_down w) (last_mbps_simple_up w) (last_mbps_graph_total w)
    (simple_hist_total w) (simple_hist_down w) v (ping_sent w) (ping_ok w) (ping_fail w)
    (t_hist w) (mbps_hist w) (ping_hist w).

Definition set_ping_sent (v : Z) (w : Window) : Window :=
  Build_Window (active_adapter w) (nic_last w) (nic_speed_total_mbps w)
    (nic_speed_down_mbps w) (nic_speed_up_mbps w) (nic_sent_mb w) (nic_recv_mb w)
    (total_sent_mb w) (total_recv_mb w) (last_ping_ms w) (last_mbps_simple_total w)
    (last_mbps_simple_down w) (last_mbps_simple_up w) (last_mbps_graph_total w)
    (simple_hist_total w) (simple_hist_down w) (simple_hist_up w) v (ping_ok w)
    (ping_fail w) (t_hist w) (mbps_hist w) (ping_hist w).

Definition set_ping_ok (v : Z) (w : Window) : Window :=
  Build_Window (active_adapter w) (nic_last w) (nic_speed_total_mbps w)
    (nic_speed_down_mbps w) (nic_speed_up_mbps w) (nic_sent_mb w) (nic_recv_mb w)
    (total_sent_mb w) (total_recv_mb w) (last_ping_ms w) (last_mbps_simple_total w)
    (last_mbps_simple_down w) (last_mbps_simple_up w) (last_mbps_graph_total w)
    (simple_hist_total w) (simple_hist_down w) (simple_hist_up w) (ping_sent w) v
    (ping_fail w) (t_hist w) (mbps_hist w) (ping_hist w).

Definition set_ping_fail (v : Z) (w : Window) : Window :=
  Build_Window (active_adapter w) (nic_last w) (nic_speed_total_mbps w)
    (nic_speed_down_mbps w) (nic_speed_up_mbps w) (nic_sent_mb w) (nic_recv_mb w)
    (total_sent_mb w) (total_recv_mb w) (last_ping_ms w) (last_mbps_simple_total w)
    (last_mbps_simple_down w) (last_mbps_simple_up w) (last_mbps_graph_total w)
    (simple_hist_total w) (simple_hist_down w) (simple_hist_up w) (ping_sent w)
    (ping_ok w) v (t_hist w) (mbps_hist w) (ping_hist w).

Definition set_t_hist (v : deque float) (w : Window) : Window :=
  Build_Window (active_adapter w) (nic_last w) (nic_speed_total_mbps w)
    (nic_speed_down_mbps w) (nic_speed_up_mbps w) (nic_sent_mb w) (nic_recv_mb w)
    (total_sent_mb w) (total_recv_mb w) (last_ping_ms w) (last_mbps_simple_total w)
    (last_mbps_simple_down w) (last_mbps_simple_up w) (last_mbps_graph_total w)
    (simple_hist_total w) (simple_hist_down w) (simple_hist_up w) (ping_sent w)
    (ping_ok w) (ping_fail w) v (mbps_hist w) (ping_hist w).

Definition set_mbps_hist (v : deque float) (w : Window) : Window :=
  Build_Window (active_adapter w) (nic_last w) (nic_speed_total_mbps w)
    (nic_speed_down_mbps w) (nic_speed_up_mbps w) (nic_sent_mb w) (nic_recv_mb w)
    (total_sent_mb w) (total_recv_mb w) (last_ping_ms w) (last_mbps_simple_total w)
    (last_mbps_simple_down w) (last_mbps_simple_up w) (last_mbps_graph_total w)
    (simple_hist_total w) (simple_hist_down w) (simple_hist_up w) (ping_sent w)
    (ping_ok w) (ping_fail w) (t_hist w) v (ping_hist w).

Definition set_ping_hist (v : deque float) (w : Window) : Window :=
  Build_Window (active_adapter w) (nic_last w) (nic_speed_total_mbps w)
    (nic_speed_down_mbps w) (nic_speed_up_mbps w) (nic_sent_mb w) (nic_recv_mb w)
    (total_sent_mb w) (total_recv_mb w) (last_ping_ms w) (last_mbps_simple_total w)
    (last_mbps_simple_down w) (last_mbps_simple_up w) (last_mbps_graph_total w)
    (simple_hist_total w) (simple_hist_down w) (simple_hist_up w) (ping_sent w)
    (ping_ok w) (ping_fail w) (t_hist w) (mbps_hist w) v.

(** ** Exceptions and state

    A method of the window is a function from the window to the window it
    leaves behind and a result; the result [None] stands for an exception
    that leaves the method, with the assignments made before it kept. *)
Definition M (A : Type) : Type := Window -> option A * Window.

Definition ret {A} (a : A) : M A := fun w => (Some a, w).

Definition bind {A B} (m : M A) (k : A -> M B) : M B :=
  fun w => match m w with
           | (Some a, w') => k a w'
           | (None, w') => (None, w')
           end.

(** An operation that may raise, run at the current state. *)
Definition lift {A} (o : option A) : M A := fun w => (o, w).

Definition get : M Window := fun w => (Some w, w).

Definition modify (f : Window -> Window) : M unit := fun w => (Some tt, f w).

#[global] Instance M_ret : MRet M := @ret.
#[global] Instance M_bind : MBind M := fun A B k m => bind m k.

(** A [for] loop over a list. *)
Fixpoint for_each {A} (body : A -> M unit) (l : list A) : M unit :=
  match l with
  | [] => ret tt
  | x :: l' => body x ;; for_each body l'
  end.

(** ** Rate sampler *)

(** The floor on the elapsed time, [0.050] seconds: the float nearest to
    one twentieth. *)
Definition min_dt : float := 0x1.999999999999ap-5%float.

(** [1024 * 1024]. *)
Definition MiB : Z := 1024 * 1024.

(** The body of the loop of [tick_stats] over
    [psutil.net_io_counters(pernic=True).items()], for one adapter [nic] with
    its counters [(bytes_sent, bytes_recv)]. The divisor [dt] is at least
    [min_dt], so the divisions never raise [ZeroDivisionError]
    ([ref_dt_nonzero] below). *)
Definition sample_nic (tmono : float) (item : string * (Z * Z)) : M unit :=
  let '(nic, (sent, recv)) := item in
  w ← get;
   match nic_last w !! nic with
   | None =>
       modify (fun w => set_nic_last (<[nic := (sent, recv, tmono)]> (nic_last w)) w);;
       modify (fun w => set_nic_speed_total_mbps (<[nic := 0%float]> (nic_speed_total_mbps w)) w);;
       modify (fun w => set_nic_speed_down_mbps (<[nic := 0%float]> (nic_speed_down_mbps w)) w);;
       modify (fun w => set_nic_speed_up_mbps (<[nic := 0%float]> (nic_speed_up_mbps w)) w);;
       s_mb ← lift (int_truediv sent MiB);
       modify (fun w => set_nic_sent_mb (<[nic := s_mb]> (nic_sent_mb w)) w);;
       r_mb ← lift (int_truediv recv MiB);
       modify (fun w => set_nic_recv_mb (<[nic := r_mb]> (nic_recv_mb w)) w)
   | Some (psent, precv, ptm) =>
       let dt := py_max min_dt (tmono - ptm)%float in
       let d_sent := Z.max 0 (sent - psent) in
       let d_recv := Z.max 0 (recv - precv) in
       f_sent ← lift (int_to_float d_sent);
       let up_mbps := (f_sent * 8 / dt / 1000000)%float in
       f_recv ← lift (int_to_float d_recv);
       let down_mbps := (f_recv * 8 / dt / 1000000)%float in
       let total_mbps := (up_mbps + down_mbps)%float in
       modify (fun w => set_nic_speed_up_mbps (<[nic := py_max 0 up_mbps]> (nic_speed_up_mbps w)) w);;
       modify (fun w => set_nic_speed_down_mbps (<[nic := py_max 0 down_mbps]> (nic_speed_down_mbps w)) w);;
       modify (fun w => set_nic_speed_total_mbps (<[nic := py_max 0 total_mbps]> (nic_speed_total_mbps w)) w);;
       s_mb ← lift (int_truediv sent MiB);
       modify (fun w => set_nic_sent_mb (<[nic := s_mb]> (nic_sent_mb w)) w);;
       r_mb ← lift (int_truediv recv MiB);
       modify (fun w => set_nic_recv_mb (<[nic := r_mb]> (nic_recv_mb w)) w);;
       modify (fun w => set_nic_last (<[nic := (sent, recv, tmono)]> (nic_last w)) w)
  end.

(** [_resolve_adapter(value)], on what [psutil.net_if_stats()] returns. *)
Definition resolve_adapter (stats : list (string * snicstats)) (value : string)
    (w : Window) : string :=
  let v := if String.eqb value "" then "active" else value in
  if String.eqb v "active" then active_adapter w
  else if negb (existsb (String.eqb v) (map fst stats)) then active_adapter w
  else v.

(** What one call of [tick_stats] reads from outside the window: the
    results of the [psutil] calls in the order they are made, the two clocks,
    and the two adapter settings. *)
Record Env : Type := {
  if_stats : list (string * snicstats);
  if_addrs : gmap string (list snicaddr);
  pernic : list (string * (Z * Z));
  tmono : float;
  twall : float;
  io_total : Z * Z;
  simple_adapter : string;
  if_stats_simple : list (string * snicstats);
  graph_adapter : string;
  if_stats_graph : list (string * snicstats)
}.

(** [tick_stats()], up to the calls that redraw the widgets. *)
Definition tick_stats (env : Env) : M unit :=
  new_adapter ← lift (pick_active_adapter_name (if_stats env) (if_addrs env));
  modify (fun w => if String.eqb new_adapter (active_adapter w) then w
                   else set_active_adapter new_adapter w);;
  for_each (sample_nic (tmono env)) (pernic env);;
  sent_mb ← lift (int_truediv (fst (io_total env)) MiB);
  modify (set_total_sent_mb sent_mb);;
  recv_mb ← lift (int_truediv (snd (io_total env)) MiB);
  modify (set_total_recv_mb recv_mb);;
  modify (fun w =>
    let simple_nic := resolve_adapter (if_stats_simple env) (simple_adapter env) w in
    let w := set_last_mbps_simple_total (default 0%float (nic_speed_total_mbps w !! simple_nic)) w in
    let w := set_last_mbps_simple_down (default 0%float (nic_speed_down_mbps w !! simple_nic)) w in
    set_last_mbps_simple_up (default 0%float (nic_speed_up_mbps w !! simple_nic)) w);;
  modify (fun w => set_simple_hist_total (deque_append (last_mbps_simple_total w) (simple_hist_total w)) w);;
  modify (fun w => set_simple_hist_down (deque_append (last_mbps_simple_down w) (simple_hist_down w)) w);;
  modify (fun w => set_simple_hist_up (deque_append (last_mbps_simple_up w) (simple_hist_up w)) w);;
  modify (fun w =>
    let graph_nic := resolve_adapter (if_stats_graph env) (graph_adapter env) w in
    set_last_mbps_graph_total (default 0%float (nic_speed_total_mbps w !! graph_nic)) w);;
  modify (fun w => set_t_hist (deque_append (twall env) (t_hist w)) w);;
  modify (fun w => set_mbps_hist (deque_append (last_mbps_graph_total w) (mbps_hist w)) w);;
  w ← get;
  p ← lift (match last_ping_ms w with
            | Some ms => int_to_float ms
            | None => Some nan
            end);
  modify (fun w => set_ping_hist (deque_append p (ping_hist w)) w).

(** The sizes set in [__init__]. *)
Definition simple_smooth_len : nat := 10.
Definition buf_len : nat := 240.

(** The engine state [__init__] builds around the active adapter, the two
    global totals and the wall clock [now]. *)
Definition new_window (active : string) (sent_mb recv_mb now : float) : Window := {|
  active_adapter := active;
  nic_last := ∅;
  nic_speed_total_mbps := ∅;
  nic_speed_down_mbps := ∅;
  nic_speed_up_mbps := ∅;
  nic_sent_mb := ∅;
  nic_recv_mb := ∅;
  total_sent_mb := sent_mb;
  total_recv_mb := recv_mb;
  last_ping_ms := None;
  last_mbps_simple_total := 0%float;
  last_mbps_simple_down := 0%float;
  last_mbps_simple_up := 0%float;
  last_mbps_graph_total := 0%float;
  simple_hist_total := deque_new (replicate simple_smooth_len 0%float) simple_smooth_len;
  simple_hist_down := deque_new (replicate simple_smooth_len 0%float) simple_smooth_len;
  simple_hist_up := deque_new (replicate simple_smooth_len 0%float) simple_smooth_len;
  ping_sent := 0;
  ping_ok := 0;
  ping_fail := 0;
  t_hist := deque_new (replicate buf_len now) buf_len;
  mbps_hist := deque_new (replicate buf_len 0%float) buf_len;
  ping_hist := deque_new (replicate buf_len nan) buf_len
|}.

(** The engine part of [__init__], from the first reading of the adapters,
    the global counters [io] and the wall clock. [None] is an exception
    raised on the way. *)
Definition init_window (stats : list (string * snicstats))
    (addrs : gmap string (list snicaddr)) (io : Z * Z) (now : float) : option Window :=
  active ← pick_active_adapter_name stats addrs;
  sent_mb ← int_truediv (fst io) MiB;
  recv_mb ← int_truediv (snd io) MiB;
  Some (new_window active sent_mb recv_mb now).

(** ** Probe counters *)

(** [request_ping()]: the counter is raised, then a [PingTask] is handed to
    the thread pool. *)
Definition request_ping (w : Window) : Window :=
  set_ping_sent (ping_sent w + 1) w.

(** [on_ping_done(ms)], the slot of the task's [done] signal, with the
    task's result [ms : int | None]; the redraw is left out. *)
Definition on_ping_done (ms : option Z) (w : Window) : Window :=
  match ms with
  | Some n => set_ping_ok (ping_ok w + 1) (set_last_ping_ms (Some n) w)
  | None => set_ping_fail (ping_fail w + 1) (set_last_ping_ms None w)
  end.

(** ** The control thread

    The window together with the number of tasks handed to the thread pool
    whose [done] signal has not been delivered yet. The control thread runs
    one slot at a time: a stats tick, a probe dispatch, or the delivery of
    the result of a task in flight. *)
Record System : Type := { window : Window; in_flight : nat }.

Inductive step : System -> System -> Prop :=
  | step_tick (env : Env) (w : Window) (n : nat) :
      step {| window := w; in_flight := n |}
           {| window := snd (tick_stats env w); in_flight := n |}
  | step_request (w : Window) (n : nat) :
      step {| window := w; in_flight := n |}
           {| window := request_ping w; in_flight := S n |}
  | step_done (ms : option Z) (w : Window) (n : nat) :
      step {| window := w; in_flight := S n |}
           {| window := on_ping_done ms w; in_flight := n |}.

(** The states the program can be in: the one [__init__] leaves, and those a
    slot leads to. *)
Inductive reachable : System -> Prop :=
  | reachable_init stats addrs io now w :
      init_window stats addrs io now = Some w ->
      reachable {| window := w; in_flight := 0 |}
  | reachable_step s s' :
      reachable s -> step s s' -> reachable s'.

(** ** A machine with one adapter

    The readings of a tick on a machine whose only adapter, [eth0], is up,
    with the cumulative counters [sent] and [recv] at the time [t]; both
    views follow the active adapter. *)
Definition eth0_env (sent recv : Z) (t : float) : Env := {|
  if_stats := [("eth0", {| isup := true; speed := 1000 |})];
  if_addrs := {[ "eth0" := [{| family := 2; family_str := "AddressFamily.AF_INET";
                               address := "192.168.1.10" |}] ]};
  pernic := [("eth0", (sent, recv))];
  tmono := t;
  twall := t;
  io_total := (sent, recv);
  simple_adapter := "active";
  if_stats_simple := [("eth0", {| isup := true; speed := 1000 |})];
  graph_adapter := "active";
  if_stats_graph := [("eth0", {| isup := true; speed := 1000 |})]
|}.

(** ** Probe tasks *)

(** [PingTask.run()]: the probe of the task's host with the default timeout;
    the result is what the [done] signal carries. *)
Definition PingTask_run (run : list string -> run_result) (win : bool) (host : string)
    : option Z :=
  ping_once run win host 800.

(** ** Settings

    The settings file holds the JSON object that [save_settings] writes:
    [json.dumps(asdict(s))]. *)

#[local] Unset Elimination Schemes.

(** A value that [json.loads] returns. *)
Inductive json : Type :=
  | JNull
  | JBool (b : bool)
  | JInt (z : Z)
  | JFloat (f : float)
  | JStr (s : string)
  | JList (l : list json)
  | JObj (o : gmap string json).

#[local] Set Elimination Schemes.

(** A [Settings] object, as the dictionary of its attributes: what
    [asdict(s)] gives and what the constructor is called with as keywords.
    The dataclass does not check the types of the values. *)
Abbreviation Settings := (gmap string json).

(** [Settings()]: the defaults of the dataclass. *)
Definition default_settings : Settings :=
  list_to_map [
    ("mode", JStr "simple");
    ("tray_enabled", JBool true);
    ("tray_click_popup", JBool true);
    ("autostart", JBool false);
    ("remember_geometry", JBool true);
    ("window_x", JInt (-1));
    ("window_y", JInt (-1));
    ("simple_w", JInt 420);
    ("simple_h", JInt 190);
    ("adv_w", JInt 1050);
    ("adv_h", JInt 780);
    ("ping_host", JStr "1.1.1.1");
    ("stats_refresh_ms", JInt 1000);
    ("ping_refresh_ms", JInt 1500);
    ("follow_graph", JBool true);
    ("simple_adapter", JStr "active");
    ("graph_adapter", JStr "active");
    ("monitored_adapters", JList []);
    ("graph_color_mode", JStr "auto");
    ("graph_custom_color", JStr "#4db7ff");
    ("line_width", JInt 1);
    ("good_ping_ms", JInt 60);
    ("ok_ping_ms", JInt 150);
    ("good_mbps", JFloat 5);
    ("ok_mbps", JFloat 0.5);
    ("use_builtin_background", JBool true);
    ("builtin_background_name", JStr "BaseImage1.png");
    ("background_path", JStr "");
    ("window_opacity", JInt 30);
    ("transparent_mode", JBool true);
    ("blur_simple", JBool false);
    ("blur_advanced", JBool true);
    ("blur_radius", JInt 18)
  ].

(** [Settings] called with the items of [base] as keywords: [None] is the
    [TypeError] for a keyword that is not a field. *)
Definition Settings_of (base : gmap string json) : option Settings :=
  if bool_decide (dom base ⊆ dom default_settings) then Some base else None.

(** [s.name]. *)
Definition attr (s : Settings) (name : string) : json := default JNull (s !! name).

(** [bool(v)], the test of [if v] and [not v]. *)
Definition truthy (v : json) : bool :=
  match v with
  | JNull => false
  | JBool b => b
  | JInt z => negb (z =? 0)
  | JFloat f => negb (PrimFloat.eqb f 0)
  | JStr s => negb (String.eqb s "")
  | JList l => match l with [] => false | _ => true end
  | JObj o => match map_to_list o with [] => false | _ => true end
  end.

(** [v in (a, b, ...)] for a tuple of strings: only an equal string is
    found. *)
Definition is_one_of (l : list string) (v : json) : bool :=
  match v with
  | JStr s => bool_decide (s ∈ l)
  | _ => false
  end.

(** [isinstance(v, list)]. *)
Definition is_list (v : json) : bool :=
  match v with JList _ => true | _ => false end.

(** [if not test(s.name): s.name = v]. *)
Definition default_unless (test : json -> bool) (name : string) (v : json) (s : Settings)
    : Settings :=
  if test (attr s name) then s else <[name := v]> s.

(** The values that order against an [int]: [bool] (an [int] of value 0 or
    1), [int] and [float]. *)
Inductive number : Type :=
  | NInt (z : Z)
  | NFloat (f : float).

Definition as_number (v : json) : option number :=
  match v with
  | JBool b => Some (NInt (if b then 1 else 0))
  | JInt z => Some (NInt z)
  | JFloat f => Some (NFloat f)
  | _ => None
  end.

(** [a < c] and [a > c] for an [int] [c]. Python compares a float with an
    [int] exactly; the bounds of [load_settings] are floats themselves, so
    the comparison is that of the two floats. *)
Definition lt_int (a : number) (c : Z) : bool :=
  match a with
  | NInt x => x <? c
  | NFloat f => PrimFloat.ltb f (float_of_Z c)
  end.

Definition gt_int (a : number) (c : Z) : bool :=
  match a with
  | NInt x => c <? x
  | NFloat f => PrimFloat.ltb (float_of_Z c) f
  end.

(** [int(x)] on a float: the fraction is cut off. [None] is [ValueError]
    (NaN) or [OverflowError] (infinities). *)
Definition sf_trunc (x : spec_float) : option Z :=
  match x with
  | S754_zero _ => Some 0
  | S754_finite s m e =>
      let k := match e with
               | Zneg p => Zpos m / 2 ^ Zpos p
               | _ => Zpos m * 2 ^ e
               end in
      Some (if s then - k else k)
  | S754_infinity _ | S754_nan => None
  end.

Definition py_int (a : number) : option Z :=
  match a with
  | NInt z => Some z
  | NFloat f => sf_trunc (Prim2SF f)
  end.

(** [int(max(lo, min(hi, v)))]. [min(hi, v)] is [v] when [v < hi] and [hi]
    otherwise; [max(lo, m)] is [m] when [m > lo] and [lo] otherwise. [None]
    is the [TypeError] of a comparison with a value that is not a number. *)
Definition clamp (lo hi : Z) (v : json) : option Z :=
  n ← as_number v;
  let m := if lt_int n hi then n else NInt hi in
  let x := if gt_int m lo then m else NInt lo in
  py_int x.

(** [s.name = int(max(lo, min(hi, s.name)))]. *)
Definition clamp_attr (lo hi : Z) (name : string) (s : Settings) : option Settings :=
  n ← clamp lo hi (attr s name);
  Some (<[name := JInt n]> s).

(** The checks of [load_settings] on the object built from the file, from
    [if s.mode not in ...] to [return s]. [ensure v] tells whether
    [ensure_builtin_backgrounds_in_appdata(default_name=v)] returns; [None]
    is an exception, which the caller catches. *)
Definition load_checks (ensure : json -> bool) (s : Settings) : option Settings :=
  let s := default_unless (is_one_of ["simple"; "advanced"]) "mode" (JStr "simple") s in
  let s := default_unless truthy "ping_host" (JStr "1.1.1.1") s in
  let s := default_unless (is_one_of ["auto"; "custom"]) "graph_color_mode" (JStr "auto") s in
  let s := default_unless truthy "graph_custom_color" (JStr "#4db7ff") s in
  let s := default_unless is_list "monitored_adapters" (JList []) s in
  s ← clamp_attr 250 10000 "stats_refresh_ms" s;
  s ← clamp_attr 500 20000 "ping_refresh_ms" s;
  s ← clamp_attr 0 60 "blur_radius" s;
  s ← clamp_attr 0 60 "window_opacity" s;
  s ← clamp_attr 1 6 "line_width" s;
  _ ← (if truthy (attr s "use_builtin_background")
          && truthy (attr s "builtin_background_name")
       then if ensure (attr s "builtin_background_name") then Some tt else None
       else Some tt);
  Some (default_unless truthy "simple_adapter" (JStr "active") s).

(** What [load_settings] finds outside the program: the object in the
    settings file ([None] when the file is missing, or when reading or
    parsing it raises), whether [ensure_builtin_backgrounds_in_appdata]
    returns for a name, and whether [save_settings] returns. *)
Record Disk : Type := {
  settings_file : option (gmap string json);
  ensure_ok : json -> bool;
  save_ok : bool
}.

(** [load_settings()]. [None] is an exception that leaves the function: one
    raised outside the [try]. *)
Definition load_settings (d : Disk) : option Settings :=
  if ensure_ok d (JStr "BaseImage1.png") then
    match settings_file d ≫= (fun data =>
            Settings_of (data ∪ default_settings) ≫= load_checks (ensure_ok d)) with
    | Some s => Some s
    | None =>
        let s := default_settings in
        if ensure_ok d (attr s "builtin_background_name") && save_ok d
        then Some s else None
    end
  else None.

(** ** The advanced view

    What [_update_advanced_ui] hands to the eight plot curves and to the
    table; the texts of the labels are left out. *)

(** The arguments of the eight [setData] calls: the x and y lists of the
    green, yellow, red and custom curves of the two plots. *)
Record Curves : Type := {
  mbps_g : series; mbps_y : series; mbps_r : series; mbps_c : series;
  ping_g : series; ping_y : series; ping_r : series; ping_c : series
}.

(** The curves part of [_update_advanced_ui], with the five settings it
    reads; the thresholds are floats, as for [quality_color]. *)
Definition advanced_curves (graph_color_mode : string)
    (good_mbps ok_mbps good_ping_ms ok_ping_ms : float) (w : Window) : Curves :=
  let xs := dq_items (t_hist w) in
  let mbps_ys := dq_items (mbps_hist w) in
  let ping_ys := dq_items (ping_hist w) in
  if String.eqb graph_color_mode "custom" then
    {| mbps_c := (xs, mbps_ys);
       ping_c := (xs, ping_ys);
       mbps_g := (xs, replicate (length xs) nan);
       mbps_y := (xs, replicate (length xs) nan);
       mbps_r := (xs, replicate (length xs) nan);
       ping_g := (xs, replicate (length xs) nan);
       ping_y := (xs, replicate (length xs) nan);
       ping_r := (xs, replicate (length xs) nan) |}
  else
    let '(g, y, r) := split_series_by_quality xs mbps_ys good_mbps ok_mbps false in
    let '(g2, y2, r2) := split_series_by_quality xs ping_ys good_ping_ms ok_ping_ms true in
    {| mbps_g := g; mbps_y := y; mbps_r := r; mbps_c := ([], []);
       ping_g := g2; ping_y := y2; ping_r := r2; ping_c := ([], []) |}.

(** A row of the table: the adapter, its total, down and up rates, and the
    two byte counts that the last column is formatted from. *)
Definition table_row : Type := string * float * float * float * (float * float).

(** The rows part of [_update_advanced_ui], with the list of monitored
    adapters of the settings. *)
Definition table_rows (monitored_adapters : list string) (w : Window) : list table_row :=
  let selected := match monitored_adapters with
                  | [] => [active_adapter w]
                  | _ => monitored_adapters
                  end in
  flat_map (fun nic =>
      match nic_speed_total_mbps w !! nic with
      | Some _ =>
          [(nic,
            default 0%float (nic_speed_total_mbps w !! nic),
            default 0%float (nic_speed_down_mbps w !! nic),
            default 0%float (nic_speed_up_mbps w !! nic),
            (default 0%float (nic_sent_mb w !! nic),
             default 0%float (nic_recv_mb w !! nic)))]
      | None => []
      end) selected.

(** * Vocabulary of the properties

    The predicates and reference definitions the statements below are
    written with. *)

(** ** Readings and windows the sampler is specified on *)

(** A byte counter or link speed as the operating system reports it. *)
Definition machine_word (z : Z) : Prop := 0 <= z < 2 ^ 64.

(** The readings of one tick are machine words, an adapter has fewer than
    [2^64] addresses, and the per-adapter counters are the items of a
    [dict]: no adapter occurs twice. *)
Record env_ok (env : Env) : Prop := {
  ok_speeds : Forall (fun p => machine_word (speed p.2)) (if_stats env);
  ok_addrs : forall name l, if_addrs env !! name = Some l -> Z.of_nat (length l) < 2 ^ 64;
  ok_pernic : Forall (fun p => machine_word p.2.1 /\ machine_word p.2.2) (pernic env);
  ok_nodup : NoDup (pernic env).*1;
  ok_io : machine_word (io_total env).1 /\ machine_word (io_total env).2
}.

(** The baselines are non-negative counters and the last latency converts
    to a float. *)
Definition window_ok (w : Window) : Prop :=
  (forall nic ps pr pt, nic_last w !! nic = Some (ps, pr, pt) -> 0 <= ps /\ 0 <= pr)
  /\ (forall ms, last_ping_ms w = Some ms -> Z.abs ms < float_overflow).

(** A window in which [eth0] was sampled before. *)
Definition eth0_window (sent recv : Z) (t : float) : Window :=
  set_nic_last {[ "eth0" := (sent, recv, t) ]} (new_window "eth0" 0 0 0).

(** An interface that is up, with the link speed [s]. *)
Definition up_at (s : Z) : snicstats := {| isup := true; speed := s |}.

(** ** The reference rates *)

(** The reference definition of the specification, on floats:
    [dt = max(minDt, now - lastTimestamp)], [delta = max(0, cur - last)] and
    [mbps = delta * 8 / dt / 1e6]. *)
Definition ref_dt (now last : float) : float := py_max min_dt (now - last)%float.
Definition ref_delta (cur last : Z) : Z := Z.max 0 (cur - last).
Definition ref_mbps (delta : Z) (dt : float) : float :=
  (float_of_Z delta * 8 / dt / 1000000)%float.

(** The window after a pass of the loop body that assigned all six
    per-adapter entries of [nic]. *)
Definition store_sample (nic : string) (last : Z * Z * float) (up down total s_mb r_mb : float)
    (w : Window) : Window :=
  set_nic_last (<[nic := last]> (nic_last w))
    (set_nic_recv_mb (<[nic := r_mb]> (nic_recv_mb w))
      (set_nic_sent_mb (<[nic := s_mb]> (nic_sent_mb w))
        (set_nic_speed_total_mbps (<[nic := total]> (nic_speed_total_mbps w))
          (set_nic_speed_down_mbps (<[nic := down]> (nic_speed_down_mbps w))
            (set_nic_speed_up_mbps (<[nic := up]> (nic_speed_up_mbps w)) w))))).

(** What the window holds for one adapter: its baseline and its three
    rates (up, down, total). *)
Definition nic_view (w : Window) (nic : string)
    : option (Z * Z * float) * option float * option float * option float :=
  (nic_last w !! nic, nic_speed_up_mbps w !! nic, nic_speed_down_mbps w !! nic,
   nic_speed_total_mbps w !! nic).

(** What a pass of the loop body leaves for an adapter with the baseline
    [last] and the counters [sent] and [recv]. *)
Definition sampled_view (tmono : float) (last : option (Z * Z * float)) (sent recv : Z)
    : option (Z * Z * float) * option float * option float * option float :=
  match last with
  | None => (Some (sent, recv, tmono), Some 0%float, Some 0%float, Some 0%float)
  | Some (psent, precv, ptm) =>
      let up := ref_mbps (ref_delta sent psent) (ref_dt tmono ptm) in
      let down := ref_mbps (ref_delta recv precv) (ref_dt tmono ptm) in
      (Some (sent, recv, tmono), Some (py_max 0 up), Some (py_max 0 down),
       Some (py_max 0 (up + down)%float))
  end.

(** Every stored rate is a number that is at least zero. *)
Definition rates_nonneg (w : Window) : Prop :=
  map_Forall (fun _ r => PrimFloat.leb 0 r = true) (nic_speed_up_mbps w)
  /\ map_Forall (fun _ r => PrimFloat.leb 0 r = true) (nic_speed_down_mbps w)
  /\ map_Forall (fun _ r => PrimFloat.leb 0 r = true) (nic_speed_total_mbps w).

(** ** Buffers and counters *)

(** A buffer that holds exactly its capacity [n]. *)
Definition full {A} (n : nat) (d : deque A) : Prop :=
  dq_maxlen d = n /\ length (dq_items d) = n.

Arguments full : simpl never.

(** The six history buffers hold exactly their capacities. *)
Definition buffers_full (w : Window) : Prop :=
  full simple_smooth_len (simple_hist_total w)
  /\ full simple_smooth_len (simple_hist_down w)
  /\ full simple_smooth_len (simple_hist_up w)
  /\ full buf_len (t_hist w)
  /\ full buf_len (mbps_hist w)
  /\ full buf_len (ping_hist w).

(** [d.append(x)] for each [x] of [xs], in order. *)
Definition deque_extend {A} (xs : list A) (d : deque A) : deque A :=
  fold_left (fun d x => deque_append x d) xs d.

(** The six history buffers of a window and its last latency. *)
Definition histories (w : Window)
    : deque float * deque float * deque float * deque float * deque float * deque float
      * option Z :=
  (simple_hist_total w, simple_hist_down w, simple_hist_up w,
   t_hist w, mbps_hist w, ping_hist w, last_ping_ms w).

(** The probes sent are those answered, those failed and those in flight. *)
Definition counters_balanced (s : System) : Prop :=
  ping_sent (window s)
  = ping_ok (window s) + ping_fail (window s) + Z.of_nat (in_flight s).

(** ** Methods of the window *)

(** [m], started in a window satisfying [P], ends without an exception, with
    a result and a window satisfying [Q]. *)
Definition completes {A} (P : Window -> Prop) (m : M A) (Q : A -> Window -> Prop) : Prop :=
  forall w, P w -> exists a w', m w = (Some a, w') /\ Q a w'.

(** [m] keeps [I], whether it ends with an exception or not. *)
Definition preserves {A} (I : Window -> Prop) (m : M A) : Prop :=
  forall w, I w -> I (snd (m w)).

(** ** Series, candidates and ping output *)

(** The y-value a sample leaves in the series of colour [c]: itself when
    that is its colour, the gap marker otherwise. *)
Definition in_series (c : string) (good ok : float) (invert : bool) (y : float) : float :=
  if String.eqb (quality_color (PyFloat y) good ok invert) c then y else nan.

(** [a] comes before [b]: a lower score, or the same score and a lower
    name. *)
Definition cand_below (a b : float * string) : Prop :=
  PrimFloat.ltb a.1 b.1 = true \/ (a.1 = b.1 /\ String.ltb a.2 b.2 = true).

(** The text [ping_once] searches: lower-cased, without spaces. *)
Definition normalised (out : string) : string := remove_char " " (py_lower out).

(** ** Signs and order of floats *)

(** The sign of a float that is not a NaN. *)
Definition sf_signed (s : bool) (x : spec_float) : Prop :=
  match x with
  | S754_zero s' | S754_infinity s' | S754_finite s' _ _ => s' = s
  | S754_nan => False
  end.

(** Zero, a positive number or plus infinity. *)
Definition fnonneg (x : float) : Prop := sf_signed false (Prim2SF x).

(** A float that is zero, positive or plus infinity, as three integers whose
    lexicographic order is the order of the floats. *)
Definition sf_key (x : spec_float) : Z * Z * Z :=
  match x with
  | S754_finite _ m e => (1, e, Zpos m)
  | S754_infinity _ => (2, 0, 0)
  | _ => (0, 0, 0)
  end.

(** The lexicographic order on such triples. *)
Definition key_lt (k k' : Z * Z * Z) : Prop :=
  k.1.1 < k'.1.1
  \/ (k.1.1 = k'.1.1 /\ (k.1.2 < k'.1.2 \/ (k.1.2 = k'.1.2 /\ k.2 < k'.2))).

(** ** Adapters in the tables *)

(** What the window holds for one adapter: its baseline, its three rates
    and its two byte counts. *)
Definition nic_entries (w : Window) (nic : string)
    : option (Z * Z * float) * option float * option float * option float
      * option float * option float :=
  (nic_view w nic, nic_sent_mb w !! nic, nic_recv_mb w !! nic).

(** The adapters with a rate are those with a baseline, and an adapter with
    a byte count has a baseline. *)
Definition sampled_together (w : Window) : Prop :=
  dom (nic_speed_up_mbps w) = dom (nic_last w)
  /\ dom (nic_speed_down_mbps w) = dom (nic_last w)
  /\ dom (nic_speed_total_mbps w) = dom (nic_last w)
  /\ dom (nic_sent_mb w) ⊆ dom (nic_last w)
  /\ dom (nic_recv_mb w) ⊆ dom (nic_sent_mb w).

(** ** The program in service *)

(** The largest finite float, [2^1024 - 2^971]. *)
Definition max_float : Z := 2 ^ 1024 - 2 ^ 971.

(** The states the program reaches while the operating system reports
    machine words and the results delivered are those of [PingTask.run()]. *)
Inductive in_service : System -> Prop :=
  | service_init stats addrs io now w :
      init_window stats addrs io now = Some w ->
      in_service {| window := w; in_flight := 0 |}
  | service_tick env w n :
      in_service {| window := w; in_flight := n |} -> env_ok env ->
      in_service {| window := snd (tick_stats env w); in_flight := n |}
  | service_request w n :
      in_service {| window := w; in_flight := n |} ->
      in_service {| window := request_ping w; in_flight := S n |}
  | service_done run win host w n :
      in_service {| window := w; in_flight := S n |} ->
      in_service {| window := on_ping_done (PingTask_run run win host) w; in_flight := n |}.

(** ** The order of floats and of colours *)

(** The place of a number on the line, as three integers whose
    lexicographic order is the order of the floats; the two zeros share a
    place. *)
Definition sf_rank (x : spec_float) : Z * Z * Z :=
  match x with
  | S754_zero _ | S754_nan => (0, 0, 0)
  | S754_infinity false => (2, 0, 0)
  | S754_infinity true => (-2, 0, 0)
  | S754_finite false m e => (1, e, Zpos m)
  | S754_finite true m e => (-1, - e, - Zpos m)
  end.

(** How good a colour is: 2 for green, 1 for yellow, 0 for red. *)
Definition tier (c : string) : Z :=
  if String.eqb c GREEN then 2 else if String.eqb c YELLOW then 1 else 0.

(** ** Settings that passed the checks *)

(** An [int] between two bounds. *)
Definition int_between (lo hi : Z) (v : json) : Prop :=
  exists n, v = JInt n /\ lo <= n <= hi.

(** What [load_settings] promises of the object it returns: the two refresh
    intervals, the blur radius, the opacity and the line width are [int]s
    within their bounds, the two modes are known ones, the host, the colour
    and the simple adapter are not empty, the monitored adapters are a
    list, and the attributes are those of the dataclass. *)
Record settings_checked (s : Settings) : Prop := {
  checked_stats : int_between 250 10000 (attr s "stats_refresh_ms");
  checked_ping : int_between 500 20000 (attr s "ping_refresh_ms");
  checked_blur : int_between 0 60 (attr s "blur_radius");
  checked_opacity : int_between 0 60 (attr s "window_opacity");
  checked_width : int_between 1 6 (attr s "line_width");
  checked_mode : is_one_of ["simple"; "advanced"] (attr s "mode") = true;
  checked_color_mode : is_one_of ["auto"; "custom"] (attr s "graph_color_mode") = true;
  checked_host : truthy (attr s "ping_host") = true;
  checked_color : truthy (attr s "graph_custom_color") = true;
  checked_simple : truthy (attr s "simple_adapter") = true;
  checked_monitored : is_list (attr s "monitored_adapters") = true;
  checked_fields : dom s = dom default_settings
}.

(** The five attributes that [load_settings] clamps. *)
Definition clamped_fields : list string :=
  ["stats_refresh_ms"; "ping_refresh_ms"; "blur_radius"; "window_opacity"; "line_width"].

(** The disk without a settings file. *)
Definition without_file (d : Disk) : Disk :=
  {| settings_file := None; ensure_ok := ensure_ok d; save_ok := save_ok d |}.

(** The disk with the object [s] in the settings file, as [save_settings(s)]
    leaves it. *)
Definition with_file (s : Settings) (d : Disk) : Disk :=
  {| settings_file := Some s; ensure_ok := ensure_ok d; save_ok := save_ok d |}.

(** A disk whose settings file was edited by hand: an interval that is too
    short and not an [int], an unknown mode, a blur radius that is too
    large, and a [bool] as line width. *)
Definition edited_disk : Disk :=
  {| settings_file := Some {[ "stats_refresh_ms" := JFloat 0x1.999999999999ap-4;
                              "mode" := JStr "compact";
                              "blur_radius" := JFloat 1000.5;
                              "line_width" := JBool true ]};
     ensure_ok := fun _ => true;
     save_ok := true |}.

(** A positive finite float as an integer multiple of the smallest positive
    float, [2^-1074]. *)
Definition scaled (m : positive) (e : Z) : Z := Zpos m * 2 ^ (e + 1074).

(** An integer whose float is a positive finite float of the same value. *)
Definition exact_float (c : Z) : Prop :=
  exists m e, Prim2SF (float_of_Z c) = S754_finite false m e /\ scaled m e = c * 2 ^ 1074.

(** The attributes that the checks of [load_settings] may assign. *)
Definition checked_fields_list : list string :=
  ["mode"; "ping_host"; "graph_color_mode"; "graph_custom_color"; "monitored_adapters";
   "stats_refresh_ms"; "ping_refresh_ms"; "blur_radius"; "window_opacity"; "line_width";
   "simple_adapter"].

(** A disk whose settings file holds texts where the two rate thresholds
    are expected. *)
Definition mistyped_disk : Disk :=
  {| settings_file := Some {[ "good_mbps" := JStr "5"; "ok_mbps" := JNull ]};
     ensure_ok := fun _ => true;
     save_ok := true |}.

(** ** Decimal numerals *)

(** A text of decimal digits only. *)
Fixpoint all_digits (s : string) : bool :=
  match s with
  | EmptyString => true
  | String c t => is_digit c && all_digits t
  end.

(** The number a text of decimal digits denotes, after the digits [acc]. *)
Fixpoint decimal_from (acc : Z) (s : string) : Z :=
  match s with
  | EmptyString => acc
  | String c t => decimal_from (10 * acc + digit_val c) t
  end.

Definition decimal_value (s : string) : Z := decimal_from 0 s.

(** ** Magnitudes *)

(** A float that is zero, or finite and below [2^K] in magnitude. *)
Definition sf_below (K : Z) (x : spec_float) : Prop :=
  match x with
  | S754_zero _ => True
  | S754_finite _ m e => e <= K /\ Zpos m < 2 ^ (K - e)
  | S754_infinity _ | S754_nan => False
  end.

(** A number: neither a NaN nor an infinity. *)
Definition finite_number (r : float) : Prop :=
  is_nan r = false /\ is_infinity r = false.

(** Every rate the window holds is a finite number: the rates stored per
    adapter, the rates last shown, and the samples of the smoothing windows
    and of the rate history. *)
Record rates_finite (w : Window) : Prop := {
  finite_up : map_Forall (fun _ r => finite_number r) (nic_speed_up_mbps w);
  finite_down : map_Forall (fun _ r => finite_number r) (nic_speed_down_mbps w);
  finite_total : map_Forall (fun _ r => finite_number r) (nic_speed_total_mbps w);
  finite_simple_total : finite_number (last_mbps_simple_total w);
  finite_simple_down : finite_number (last_mbps_simple_down w);
  finite_simple_up : finite_number (last_mbps_simple_up w);
  finite_graph_total : finite_number (last_mbps_graph_total w);
  finite_hist_total : Forall finite_number (dq_items (simple_hist_total w));
  finite_hist_down : Forall finite_number (dq_items (simple_hist_down w));
  finite_hist_up : Forall finite_number (dq_items (simple_hist_up w));
  finite_mbps_hist : Forall finite_number (dq_items (mbps_hist w))
}.

(** * The model on sample inputs *)

(** The largest integer below [float_overflow] converts to the largest
    finite float, and [float_overflow] itself rounds to infinity. *)
Example float_overflow_boundary :
  Prim2SF (float_of_Z (float_overflow - 1)) = S754_finite false 9007199254740991 971
  /\ binary_normalize prec emax float_overflow 0 false = S754_infinity false
  /\ int_to_float (float_overflow - 1) = Some 0x1.fffffffffffffp+1023%float
  /\ int_to_float float_overflow = None.
Proof. repeat split; vm_compute; reflexivity. Qed.

Example int_truediv_samples :
  int_truediv 1 10 = Some 0x1.999999999999ap-4%float
  /\ int_truediv 1000 10 = Some 100%float
  /\ int_truediv 0 (-5) = Some (-0)%float
  /\ int_truediv 1048576 MiB = Some 1%float
  /\ int_truediv 1 0 = None.
Proof. repeat split; vm_compute; reflexivity. Qed.

Example py_round_samples :
  py_round 0.5 = Some 0 /\ py_round 1.5 = Some 2 /\ py_round 2.5 = Some 2
  /\ py_round (-2.5) = Some (-2) /\ py_round 0x1.7666666666666p+4 = Some 23
  /\ py_round infinity = None /\ py_round nan = None.
Proof. repeat split; vm_compute; reflexivity. Qed.

Example py_float_of_str_samples :
  py_float_of_str "23" = Some 23%float
  /\ py_float_of_str "23.4" = Some 0x1.7666666666666p+4%float
  /\ py_float_of_str ".5" = Some 0.5%float
  /\ py_float_of_str "1e3" = Some 1000%float
  /\ py_float_of_str "1_0" = Some 10%float
  /\ py_float_of_str "-5" = Some (-5)%float
  /\ py_float_of_str "1e400" = Some infinity
  /\ py_float_of_str "nan" = Some nan
  /\ py_float_of_str "" = None
  /\ py_float_of_str "1e" = None
  /\ py_float_of_str "1__0" = None
  /\ py_float_of_str "n/a" = None.
Proof. repeat split; vm_compute; reflexivity. Qed.

Example parse_ping_samples :
  parse_ping "64 bytes from 1.1.1.1: icmp_seq=1 ttl=57 time=23.4 ms" = Some 23
  /\ parse_ping "Reply from 1.1.1.1: bytes=32 time=23ms TTL=57" = Some 23
  /\ parse_ping "Reply from 1.1.1.1: bytes=32 time<1ms TTL=57" = None
  /\ parse_ping "Ответ от 1.1.1.1: число байт=32 время=23мс TTL=57" = Some 23
  /\ parse_ping "Request timed out." = None.
Proof. repeat split; vm_compute; reflexivity. Qed.

Example denied_samples :
  denied "lo" = true /\ denied "Loopback Pseudo-Interface 1" = true
  /\ denied "VMware Network Adapter VMnet8" = true /\ denied "tun0" = true
  /\ denied "eth0" = false /\ denied "Wi-Fi" = false.
Proof. repeat split; vm_compute; reflexivity. Qed.

(** * Facts about floats *)

Section Rounding.

Lemma shr_1_nonneg mrs : 0 <= shr_m mrs -> 0 <= shr_m (shr_1 mrs).
Proof.
  destruct mrs as [m r s]; simpl.
  destruct m as [|p|p]; [easy | destruct p; simpl; lia | lia].
Qed.

Lemma iter_pos_shr_1_nonneg p : forall mrs,
  0 <= shr_m mrs -> 0 <= shr_m (SpecFloat.iter_pos shr_1 p mrs).
Proof.
  induction p as [p IH|p IH|]; intros mrs H; simpl.
  - apply IH, IH, shr_1_nonneg, H.
  - apply IH, IH, H.
  - apply shr_1_nonneg, H.
Qed.

Lemma shr_nonneg mrs e n : 0 <= shr_m mrs -> 0 <= shr_m (fst (shr mrs e n)).
Proof.
  intros H. unfold shr. destruct n; simpl; auto using iter_pos_shr_1_nonneg.
Qed.

Lemma shr_fexp_nonneg m e l :
  0 <= m -> 0 <= shr_m (fst (shr_fexp prec emax m e l)).
Proof.
  intros H. unfold shr_fexp. apply shr_nonneg.
  destruct l as [|[]]; exact H.
Qed.

Lemma round_nearest_even_nonneg m l : 0 <= m -> 0 <= round_nearest_even m l.
Proof.
  intros H. destruct l as [|[]]; simpl; try lia.
  destruct (Z.even m); lia.
Qed.

Lemma binary_round_aux_signed s mx ex lx :
  0 <= mx -> sf_signed s (binary_round_aux prec emax s mx ex lx).
Proof.
  intros H. unfold binary_round_aux.
  pose proof (shr_fexp_nonneg mx ex lx H) as H1.
  destruct (shr_fexp prec emax mx ex lx) as [mrs' e']. simpl in H1.
  pose proof (shr_fexp_nonneg _ e' loc_Exact
                (round_nearest_even_nonneg _ (loc_of_shr_record mrs') H1)) as H2.
  destruct (shr_fexp prec emax _ e' loc_Exact) as [mrs'' e'']. simpl in H2.
  destruct (shr_m mrs'') as [|p|p]; simpl; [reflexivity| |lia].
  destruct (e'' <=? emax - prec); reflexivity.
Qed.

Lemma binary_round_signed s mx ex : sf_signed s (binary_round prec emax s mx ex).
Proof.
  unfold binary_round.
  destruct (shl_align mx ex _) as [mz ez].
  apply binary_round_aux_signed. lia.
Qed.

Lemma binary_normalize_nonneg m e : 0 <= m -> sf_signed false (binary_normalize prec emax m e false).
Proof.
  intros H. destruct m as [|p|p]; simpl; [reflexivity | apply binary_round_signed | lia].
Qed.

Lemma binary_normalize_not_nan m e : binary_normalize prec emax m e false <> S754_nan.
Proof.
  destruct m as [|p|p]; simpl; [discriminate | |];
    match goal with |- binary_round _ _ ?s _ _ <> _ =>
      pose proof (binary_round_signed s p e) as H end;
    intros E; rewrite E in H; exact H.
Qed.

Lemma SFmul_finite_signed sx x sy m e :
  sf_signed sx x -> sf_signed (xorb sx sy) (SFmul prec emax x (S754_finite sy m e)).
Proof.
  destruct x as [s|s| |s mx ex]; simpl; intros H; subst; try easy.
  apply binary_round_aux_signed. lia.
Qed.

Lemma SFdiv_finite_signed sx x sy m e :
  sf_signed sx x -> sf_signed (xorb sx sy) (SFdiv prec emax x (S754_finite sy m e)).
Proof.
  destruct x as [s|s| |s mx ex]; simpl; intros H; subst; try easy.
  unfold SFdiv_core_binary.
  set (e' := Z.min _ _). set (m' := match _ with Z0 => _ | Zpos _ => _ | Zneg _ => _ end).
  assert (0 <= m') as Hm'.
  { subst m'. destruct (ex - e - e'); try lia. apply Z.shiftl_nonneg. lia. }
  pose proof (Z.div_pos m' (Zpos m) Hm' ltac:(lia)) as Hq.
  unfold Z.div in Hq. destruct (Z.div_eucl m' (Zpos m)) as [q r]. simpl in Hq.
  apply binary_round_aux_signed, Hq.
Qed.

Lemma SFadd_nonneg x y :
  sf_signed false x -> sf_signed false y -> sf_signed false (SFadd prec emax x y).
Proof.
  destruct x as [s|s| |s mx ex], y as [t|t| |t my ey]; simpl; intros Hx Hy; subst; try easy.
  apply binary_normalize_nonneg. simpl. lia.
Qed.

End Rounding.

Section PrimFloats.

Lemma fnonneg_zero : fnonneg 0.
Proof. reflexivity. Qed.

Lemma SF2Prim_signed s x : sf_signed s x -> sf_signed s (Prim2SF (SF2Prim x)).
Proof.
  destruct x as [s'|s'| |s' m e]; simpl; intros H; subst; try easy.
  - destruct s; reflexivity.
  - destruct s; reflexivity.
  - set (pm := of_uint63 _).
    assert (sf_signed false (Prim2SF (Z.ldexp pm e))) as Hl.
    { unfold Z.ldexp. rewrite ldshiftexp_spec.
      assert (sf_signed false (Prim2SF pm)) as Hpm.
      { subst pm. rewrite of_uint63_spec. apply binary_normalize_nonneg.
        apply Uint63.to_Z_bounded. }
      destruct (Prim2SF pm) as [t|t| |t mp ep]; simpl in *; subst; try easy.
      apply binary_round_signed. }
    destruct s; [|exact Hl].
    rewrite opp_spec. destruct (Prim2SF (Z.ldexp pm e)); simpl in *; subst; easy.
Qed.

Lemma float_of_Z_nonneg z : 0 <= z -> fnonneg (float_of_Z z).
Proof.
  intros H. apply SF2Prim_signed, binary_normalize_nonneg, H.
Qed.

Lemma fnonneg_mul_8 x : fnonneg x -> fnonneg (x * 8).
Proof.
  unfold fnonneg. intros H. rewrite mul_spec.
  change (Prim2SF 8) with (S754_finite false 4503599627370496 (-49)).
  apply (SFmul_finite_signed false _ false), H.
Qed.

Lemma fnonneg_div_finite x y m e :
  Prim2SF y = S754_finite false m e -> fnonneg x -> fnonneg (x / y).
Proof.
  unfold fnonneg. intros Hy H. rewrite div_spec, Hy.
  apply (SFdiv_finite_signed false _ false), H.
Qed.

Lemma fnonneg_add x y : fnonneg x -> fnonneg y -> fnonneg (x + y).
Proof.
  unfold fnonneg. intros Hx Hy. rewrite add_spec. apply SFadd_nonneg; assumption.
Qed.

Lemma py_max_0_nonneg x : fnonneg x -> py_max 0 x = x.
Proof.
  unfold fnonneg, py_max. intros H. rewrite ltb_spec.
  change (Prim2SF 0) with (S754_zero false).
  destruct (Prim2SF x) as [s|s| |s m e] eqn:E; simpl in H; subst; try easy.
  simpl. apply Prim2SF_inj. rewrite E. reflexivity.
Qed.

End PrimFloats.

Section Comparisons.

Lemma SFcompare_antisym x y :
  SFcompare y x = option_map CompOpp (SFcompare x y).
Proof.
  destruct x as [s|s| |s mx ex], y as [t|t| |t my ey]; simpl;
    try destruct s; try destruct t; try reflexivity; simpl;
    rewrite (Z.compare_antisym ex ey); destruct (ex ?= ey); simpl; try reflexivity;
    rewrite (Pos.compare_cont_antisym mx my Eq); simpl;
    rewrite ?CompOpp_involutive; reflexivity.
Qed.

Lemma SFcompare_not_nan x y :
  x <> S754_nan -> y <> S754_nan -> SFcompare x y <> None.
Proof.
  destruct x as [s|s| |s mx ex], y as [t|t| |t my ey]; simpl; try easy;
    destruct s; discriminate.
Qed.

Lemma SFcompare_refl x : x <> S754_nan -> SFcompare x x = Some Eq.
Proof.
  destruct x as [s|s| |s m e]; simpl; try easy; intros _.
  - destruct s; reflexivity.
  - rewrite Z.compare_refl.
    change (Pos.compare_cont Eq m m) with (Pos.compare m m).
    rewrite Pos.compare_refl. destruct s; reflexivity.
Qed.

Lemma is_nan_spec x : is_nan x = false <-> Prim2SF x <> S754_nan.
Proof.
  unfold is_nan. rewrite FloatAxioms.eqb_spec. unfold SFeqb. split.
  - intros H E. rewrite E in H. discriminate.
  - intros H. rewrite SFcompare_refl by exact H. reflexivity.
Qed.

Lemma is_infinity_spec x :
  is_infinity x = false <-> forall s, Prim2SF x <> S754_infinity s.
Proof.
  unfold is_infinity. rewrite FloatAxioms.eqb_spec, FloatAxioms.abs_spec.
  change (Prim2SF infinity) with (S754_infinity false). unfold SFeqb. split.
  - intros H s E. rewrite E in H. discriminate.
  - intros H. destruct (Prim2SF x) as [s|s| |s m e]; try reflexivity.
    destruct (H s eq_refl).
Qed.

(** On numbers, [not (a <= b)] is [b < a]. *)
Lemma leb_false_ltb a b :
  is_nan a = false -> is_nan b = false ->
  PrimFloat.leb a b = false <-> PrimFloat.ltb b a = true.
Proof.
  rewrite !is_nan_spec, FloatAxioms.leb_spec, FloatAxioms.ltb_spec. unfold SFleb, SFltb. intros Ha Hb.
  rewrite (SFcompare_antisym (Prim2SF a) (Prim2SF b)).
  pose proof (SFcompare_not_nan _ _ Ha Hb) as Hc.
  destruct (SFcompare (Prim2SF a) (Prim2SF b)) as [[]|]; simpl; try easy.
Qed.

Lemma ltb_leb a b : PrimFloat.ltb a b = true -> PrimFloat.leb a b = true.
Proof.
  rewrite FloatAxioms.leb_spec, FloatAxioms.ltb_spec. unfold SFleb, SFltb.
  destruct (SFcompare _ _) as [[]|]; easy.
Qed.

End Comparisons.

(** * The quality classifier *)

Lemma colors_distinct : GREEN <> YELLOW /\ GREEN <> RED /\ YELLOW <> RED.
Proof. repeat split; discriminate. Qed.

Lemma quality_color_cases value good ok invert :
  quality_color value good ok invert = GREEN
  \/ quality_color value good ok invert = YELLOW
  \/ quality_color value good ok invert = RED.
Proof.
  unfold quality_color.
  destruct value; auto;
    (destruct (to_float _); auto;
     destruct (_ || _); auto;
     destruct invert;
     repeat match goal with |- context [if ?b then _ else _] => destruct b end; auto).
Qed.

(** What [quality_color] computes once the value is a number. *)
Lemma quality_color_number value v good ok invert :
  to_float value = Some v -> is_nan v = false -> is_infinity v = false ->
  quality_color value good ok invert =
    if invert then
      if PrimFloat.leb v good then GREEN else if PrimFloat.leb v ok then YELLOW else RED
    else
      if PrimFloat.leb good v then GREEN else if PrimFloat.leb ok v then YELLOW else RED.
Proof.
  intros Hv Hn Hi. unfold quality_color.
  destruct value; [discriminate | |]; rewrite Hv, Hn, Hi; reflexivity.
Qed.

(** C4. [quality_color] is the three-tier classifier of the specification.
    For a value that converts to a finite float [v] and a [good] threshold
    that is a number: with [invert] (lower is better) the colour is GREEN
    exactly when [v <= good], YELLOW exactly when [good < v <= ok], and RED
    otherwise; without [invert] it is GREEN exactly when [v >= good], YELLOW
    exactly when [ok <= v < good], and RED otherwise. An absent value, a
    value that does not convert, a NaN and an infinity are RED whatever the
    thresholds and the direction. With [good = 5.0] and [ok = 0.5] the
    samples 3.0, 6.0 and 0.1 are YELLOW, GREEN and RED. *)
Theorem quality_color_classifies :
  (forall value v good ok,
     to_float value = Some v -> is_nan v = false -> is_infinity v = false ->
     is_nan good = false ->
     (quality_color value good ok true = GREEN <-> PrimFloat.leb v good = true)
     /\ (quality_color value good ok true = YELLOW
         <-> PrimFloat.ltb good v = true /\ PrimFloat.leb v ok = true)
     /\ (quality_color value good ok true = RED
         <-> PrimFloat.leb v good = false
             /\ ~ (PrimFloat.ltb good v = true /\ PrimFloat.leb v ok = true))
     /\ (quality_color value good ok false = GREEN <-> PrimFloat.leb good v = true)
     /\ (quality_color value good ok false = YELLOW
         <-> PrimFloat.leb ok v = true /\ PrimFloat.ltb v good = true)
     /\ (quality_color value good ok false = RED
         <-> PrimFloat.leb good v = false
             /\ ~ (PrimFloat.leb ok v = true /\ PrimFloat.ltb v good = true)))
  /\ (forall value good ok invert,
        to_float value = None
        \/ (exists v, to_float value = Some v /\ (is_nan v = true \/ is_infinity v = true)) ->
        quality_color value good ok invert = RED)
  /\ (quality_color (PyFloat 3) 5 0.5 false = YELLOW
      /\ quality_color (PyFloat 6) 5 0.5 false = GREEN
      /\ quality_color (PyFloat 0x1.999999999999ap-4) 5 0.5 false = RED).
Proof.
  destruct colors_distinct as (Hgy & Hgr & Hyr).
  split; [|split].
  - intros value v good ok Hv Hn Hi Hg.
    rewrite !(quality_color_number value v good ok) by assumption.
    pose proof (leb_false_ltb v good Hn Hg) as L1.
    pose proof (leb_false_ltb good v Hg Hn) as L2.
    destruct (PrimFloat.leb v good), (PrimFloat.leb v ok), (PrimFloat.leb good v),
      (PrimFloat.leb ok v), (PrimFloat.ltb good v), (PrimFloat.ltb v good);
      intuition congruence.
  - intros value good ok invert [Hn | (v & Hv & Hbad)]; unfold quality_color.
    + destruct value; [reflexivity | | discriminate]. rewrite Hn. reflexivity.
    + destruct value; [reflexivity | |]; rewrite Hv;
        (destruct Hbad as [-> | ->]; [reflexivity | rewrite orb_true_r; reflexivity]).
  - repeat split; vm_compute; reflexivity.
Qed.

(** The classifier at the samples of C4's scenario. *)
Lemma quality_color_classifies_witness :
  quality_color (PyFloat 3) 5 0.5 false = YELLOW
  <-> PrimFloat.leb 0.5 3 = true /\ PrimFloat.ltb 3 5 = true.
Proof.
  assert (to_float (PyFloat 3) = Some 3%float) as Hv by reflexivity.
  assert (is_nan 3 = false) as Hn by reflexivity.
  assert (is_infinity 3 = false) as Hi by reflexivity.
  assert (is_nan 5 = false) as Hg by reflexivity.
  exact (proj1 (proj2 (proj2 (proj2 (proj2
    (proj1 quality_color_classifies (PyFloat 3) 3%float 5%float 0.5%float Hv Hn Hi Hg)))))).
Defined.

Lemma split_step_in_series good ok invert x_g y_g x_y y_y x_r y_r x y :
  split_step good ok invert ((x_g, y_g), (x_y, y_y), (x_r, y_r)) (x, y) =
    ((x_g ++ [x], y_g ++ [in_series GREEN good ok invert y]),
     (x_y ++ [x], y_y ++ [in_series YELLOW good ok invert y]),
     (x_r ++ [x], y_r ++ [in_series RED good ok invert y])).
Proof.
  unfold split_step, in_series.
  destruct (quality_color_cases (PyFloat y) good ok invert) as [-> | [-> | ->]];
    reflexivity.
Qed.

Lemma split_fold good ok invert l : forall x_g y_g x_y y_y x_r y_r,
  fold_left (split_step good ok invert) l ((x_g, y_g), (x_y, y_y), (x_r, y_r)) =
    ((x_g ++ l.*1, y_g ++ (in_series GREEN good ok invert <$> l.*2)),
     (x_y ++ l.*1, y_y ++ (in_series YELLOW good ok invert <$> l.*2)),
     (x_r ++ l.*1, y_r ++ (in_series RED good ok invert <$> l.*2))).
Proof.
  induction l as [|[x y] l IH]; intros.
  - simpl. rewrite !app_nil_r. reflexivity.
  - cbn [fold_left]. rewrite split_step_in_series, IH, !fmap_cons, <- !app_assoc.
    reflexivity.
Qed.

(** C5. On a series ([xs] and [ys] of one length), [split_series_by_quality]
    returns three series with the x-coordinates of the input, each as long
    as the input; at every index the series of the sample's colour holds the
    sample's y-value and the two others hold the NaN gap marker. *)
Theorem split_series_by_quality_parallel (xs ys : list float) (good ok : float)
    (invert : bool) :
  length xs = length ys ->
  exists y_g y_y y_r : list float,
    split_series_by_quality xs ys good ok invert = ((xs, y_g), (xs, y_y), (xs, y_r))
    /\ length y_g = length ys /\ length y_y = length ys /\ length y_r = length ys
    /\ forall (i : nat) (y : float), ys !! i = Some y ->
         let col := quality_color (PyFloat y) good ok invert in
         (col = GREEN /\ y_g !! i = Some y /\ y_y !! i = Some nan /\ y_r !! i = Some nan)
         \/ (col = YELLOW /\ y_g !! i = Some nan /\ y_y !! i = Some y /\ y_r !! i = Some nan)
         \/ (col = RED /\ y_g !! i = Some nan /\ y_y !! i = Some nan /\ y_r !! i = Some y).
Proof.
  intros Hlen.
  exists (in_series GREEN good ok invert <$> ys),
         (in_series YELLOW good ok invert <$> ys),
         (in_series RED good ok invert <$> ys).
  split; [|split; [|split; [|split]]].
  - unfold split_series_by_quality. rewrite split_fold. simpl.
    rewrite fst_zip, snd_zip by lia. reflexivity.
  - apply length_fmap.
  - apply length_fmap.
  - apply length_fmap.
  - intros i y Hy col. rewrite !list_lookup_fmap, Hy. simpl.
    unfold in_series. fold col.
    destruct (quality_color_cases (PyFloat y) good ok invert) as [E | [E | E]];
      fold col in E; rewrite E; [left | right; left | right; right];
      repeat split; reflexivity.
Qed.

(** C5 on a series of three samples, one of each colour. *)
Lemma split_series_by_quality_parallel_witness :
  exists y_g y_y y_r : list float,
    split_series_by_quality [1; 2; 3]%float [6; 3; 0.5]%float 5 1 false
      = (([1; 2; 3]%float, y_g), ([1; 2; 3]%float, y_y), ([1; 2; 3]%float, y_r))
    /\ length y_g = 3%nat /\ length y_y = 3%nat /\ length y_r = 3%nat
    /\ forall (i : nat) (y : float), [6; 3; 0.5]%float !! i = Some y ->
         let col := quality_color (PyFloat y) 5 1 false in
         (col = GREEN /\ y_g !! i = Some y /\ y_y !! i = Some nan /\ y_r !! i = Some nan)
         \/ (col = YELLOW /\ y_g !! i = Some nan /\ y_y !! i = Some y /\ y_r !! i = Some nan)
         \/ (col = RED /\ y_g !! i = Some nan /\ y_y !! i = Some nan /\ y_r !! i = Some y).
Proof.
  exact (split_series_by_quality_parallel [1; 2; 3]%float [6; 3; 0.5]%float 5 1 false eq_refl).
Defined.

(** * Reasoning about methods of the window *)

Section Methods.

Lemma bind_run {A B} (m : M A) (k : A -> M B) w :
  (m ≫= k) w = match m w with
               | (Some a, w') => k a w'
               | (None, w') => (None, w')
               end.
Proof. reflexivity. Qed.

Lemma completes_ret {A} (P : Window -> Prop) (a : A) (Q : A -> Window -> Prop) :
  (forall w, P w -> Q a w) -> completes P (ret a) Q.
Proof. intros H w Hw. exists a, w. split; [reflexivity | auto]. Qed.

Lemma completes_bind {A B} (P : Window -> Prop) (m : M A) (R : A -> Window -> Prop)
    (k : A -> M B) (Q : B -> Window -> Prop) :
  completes P m R -> (forall a, completes (R a) (k a) Q) -> completes P (m ≫= k) Q.
Proof.
  intros Hm Hk w Hw. destruct (Hm w Hw) as (a & w1 & E & HR).
  destruct (Hk a w1 HR) as (b & w2 & E2 & HQ).
  exists b, w2. rewrite bind_run, E. auto.
Qed.

Lemma completes_lift {A} (P : Window -> Prop) (o : option A) (a : A)
    (Q : A -> Window -> Prop) :
  o = Some a -> (forall w, P w -> Q a w) -> completes P (lift o) Q.
Proof. intros E H w Hw. exists a, w. unfold lift. rewrite E. auto. Qed.

Lemma completes_get (P : Window -> Prop) (Q : Window -> Window -> Prop) :
  (forall w, P w -> Q w w) -> completes P get Q.
Proof. intros H w Hw. exists w, w. split; [reflexivity | auto]. Qed.

Lemma completes_modify (P : Window -> Prop) (f : Window -> Window)
    (Q : unit -> Window -> Prop) :
  (forall w, P w -> Q tt (f w)) -> completes P (modify f) Q.
Proof. intros H w Hw. exists tt, (f w). split; [reflexivity | auto]. Qed.

Lemma completes_weaken {A} (P P' : Window -> Prop) (m : M A) (Q Q' : A -> Window -> Prop) :
  completes P' m Q' -> (forall w, P w -> P' w) -> (forall a w, Q' a w -> Q a w) ->
  completes P m Q.
Proof.
  intros H HP HQ w Hw. destruct (H w (HP w Hw)) as (a & w' & E & H').
  exists a, w'. auto.
Qed.

Lemma completes_for_each {A} (I : Window -> Prop) (body : A -> M unit) (l : list A) :
  (forall x, x ∈ l -> completes I (body x) (fun _ => I)) ->
  completes I (for_each body l) (fun _ => I).
Proof.
  induction l as [|x l IH]; intros H.
  - apply completes_ret. auto.
  - simpl. eapply completes_bind.
    + apply H. left.
    + intros ?. apply IH. intros y Hy. apply H. right. exact Hy.
Qed.

Lemma preserves_ret {A} (I : Window -> Prop) (a : A) : preserves I (ret a).
Proof. intros w Hw. exact Hw. Qed.

Lemma preserves_bind {A B} (I : Window -> Prop) (m : M A) (k : A -> M B) :
  preserves I m -> (forall a, preserves I (k a)) -> preserves I (m ≫= k).
Proof.
  intros Hm Hk w Hw. rewrite bind_run. specialize (Hm w Hw).
  destruct (m w) as [[a|] w1]; simpl in *; [apply Hk, Hm | exact Hm].
Qed.

Lemma preserves_lift {A} (I : Window -> Prop) (o : option A) : preserves I (lift o).
Proof. intros w Hw. exact Hw. Qed.

Lemma preserves_get (I : Window -> Prop) : preserves I get.
Proof. intros w Hw. exact Hw. Qed.

Lemma preserves_modify (I : Window -> Prop) (f : Window -> Window) :
  (forall w, I w -> I (f w)) -> preserves I (modify f).
Proof. intros H w Hw. apply H, Hw. Qed.

Lemma preserves_for_each {A} (I : Window -> Prop) (body : A -> M unit) (l : list A) :
  (forall x, x ∈ l -> preserves I (body x)) -> preserves I (for_each body l).
Proof.
  induction l as [|x l IH]; intros H.
  - apply preserves_ret.
  - simpl. apply preserves_bind.
    + apply H. left.
    + intros ?. apply IH. intros y Hy. apply H. right. exact Hy.
Qed.

Lemma for_each_app {A} (body : A -> M unit) (l1 l2 : list A) w :
  for_each body (l1 ++ l2) w = (for_each body l1 ;; for_each body l2) w.
Proof.
  revert w. induction l1 as [|x l1 IH]; intros w.
  - reflexivity.
  - simpl. rewrite !bind_run. destruct (body x w) as [[[]|] w1]; [|reflexivity].
    rewrite IH. reflexivity.
Qed.

End Methods.

(** Splits a method into its statements: the goal [preserves I m] is reduced
    to one goal per assignment. *)
Ltac preserves_step :=
  first [ apply preserves_bind; [|intros ?]
        | apply preserves_lift
        | apply preserves_get
        | apply preserves_ret
        | apply preserves_modify; intros ? ?; cbv beta ].

(** * The rate sampler *)

Section Sampler.

Lemma two_64_lt_overflow : 2 ^ 64 < float_overflow.
Proof. reflexivity. Qed.

Lemma int_to_float_small z :
  Z.abs z < 2 ^ 64 -> int_to_float z = Some (float_of_Z z).
Proof.
  intros H. unfold int_to_float.
  pose proof two_64_lt_overflow.
  destruct (Z.ltb_spec (Z.abs z) float_overflow); [reflexivity | lia].
Qed.

Lemma int_truediv_small z d :
  Z.abs z < 2 ^ 64 -> 0 < d ->
  int_truediv z d = Some (rounded_quotient z d).
Proof.
  intros H Hd. unfold int_truediv.
  pose proof two_64_lt_overflow.
  destruct (Z.eqb_spec d 0); [lia|].
  destruct (Z.ltb_spec (Z.abs z) (float_overflow * Z.abs d)); [reflexivity | nia].
Qed.

Lemma sample_nic_first tmono nic sent recv w s_mb r_mb :
  nic_last w !! nic = None ->
  int_truediv sent MiB = Some s_mb -> int_truediv recv MiB = Some r_mb ->
  sample_nic tmono (nic, (sent, recv)) w
  = (Some tt, store_sample nic (sent, recv, tmono) 0 0 0 s_mb r_mb w).
Proof.
  intros Hl Hs Hr. unfold sample_nic. rewrite bind_run. cbn [get].
  rewrite Hl. rewrite !bind_run. cbn [modify lift]. rewrite Hs.
  rewrite !bind_run. cbn [modify lift]. rewrite Hr. rewrite !bind_run. cbn [modify].
  destruct w; reflexivity.
Qed.

Lemma sample_nic_seen tmono nic sent recv w psent precv ptm f_sent f_recv s_mb r_mb :
  nic_last w !! nic = Some (psent, precv, ptm) ->
  int_to_float (Z.max 0 (sent - psent)) = Some f_sent ->
  int_to_float (Z.max 0 (recv - precv)) = Some f_recv ->
  int_truediv sent MiB = Some s_mb -> int_truediv recv MiB = Some r_mb ->
  let dt := py_max min_dt (tmono - ptm)%float in
  let up := (f_sent * 8 / dt / 1000000)%float in
  let down := (f_recv * 8 / dt / 1000000)%float in
  sample_nic tmono (nic, (sent, recv)) w
  = (Some tt, store_sample nic (sent, recv, tmono)
                (py_max 0 up) (py_max 0 down) (py_max 0 (up + down)%float) s_mb r_mb w).
Proof.
  intros Hl Hfs Hfr Hs Hr dt up down. unfold sample_nic. rewrite bind_run. cbn [get].
  rewrite Hl. rewrite !bind_run. cbn [lift]. rewrite Hfs.
  rewrite !bind_run. cbn [lift]. rewrite Hfr.
  rewrite !bind_run. cbn [modify lift]. rewrite Hs.
  rewrite !bind_run. cbn [modify lift]. rewrite Hr. rewrite !bind_run. cbn [modify].
  destruct w; reflexivity.
Qed.

Lemma int_to_float_ok z :
  Z.abs z < float_overflow -> int_to_float z = Some (float_of_Z z).
Proof.
  intros H. unfold int_to_float.
  destruct (Z.ltb_spec (Z.abs z) float_overflow); [reflexivity | lia].
Qed.

Lemma completes_frame {A} (P I : Window -> Prop) (m : M A) (Q : A -> Window -> Prop) :
  completes P m Q -> preserves I m ->
  completes (fun w => P w /\ I w) m (fun a w => Q a w /\ I w).
Proof.
  intros Hc Hp w [HP HI]. destruct (Hc w HP) as (a & w' & E & HQ).
  exists a, w'. specialize (Hp w HI). rewrite E in Hp. auto.
Qed.

Lemma completes_for_each_app {A} (P R : Window -> Prop) (Q : unit -> Window -> Prop)
    (body : A -> M unit) (l1 l2 : list A) :
  completes P (for_each body l1) (fun _ => R) ->
  completes R (for_each body l2) Q ->
  completes P (for_each body (l1 ++ l2)) Q.
Proof.
  intros H1 H2 w Hw. rewrite for_each_app.
  exact (completes_bind P _ (fun _ => R) _ Q H1 (fun _ => H2) w Hw).
Qed.

(** The loop body on an adapter with in-range counters ends without an
    exception and leaves [sampled_view] for that adapter. *)
Lemma sample_nic_view tmono nic sent recv last :
  machine_word sent -> machine_word recv ->
  completes (fun w => window_ok w /\ nic_last w !! nic = last)
    (sample_nic tmono (nic, (sent, recv)))
    (fun _ w' => window_ok w' /\ nic_view w' nic = sampled_view tmono last sent recv).
Proof.
  intros Hs Hr w [[Hb Hp] Hl]. unfold machine_word in *.
  assert (0 < MiB) as HM by reflexivity.
  pose proof (int_truediv_small sent MiB ltac:(lia) HM) as Es.
  pose proof (int_truediv_small recv MiB ltac:(lia) HM) as Er.
  assert (forall up down total s_mb r_mb,
    window_ok (store_sample nic (sent, recv, tmono) up down total s_mb r_mb w)) as Hok.
  { intros. split; [|exact Hp]. intros n ps pr pt. cbn.
    rewrite lookup_insert. case_decide; [|apply Hb].
    intros [= <- <- <-]. lia. }
  destruct last as [[[ps pr] pt]|].
  - destruct (Hb _ _ _ _ Hl) as [Hps Hpr].
    pose proof (int_to_float_small (Z.max 0 (sent - ps)) ltac:(lia)) as Efs.
    pose proof (int_to_float_small (Z.max 0 (recv - pr)) ltac:(lia)) as Efr.
    eexists tt, _. split; [exact (sample_nic_seen _ _ _ _ _ _ _ _ _ _ _ _ Hl Efs Efr Es Er)|].
    split; [apply Hok|]. unfold nic_view. cbn. rewrite !lookup_insert_eq. reflexivity.
  - eexists tt, _. split; [exact (sample_nic_first _ _ _ _ _ _ _ Hl Es Er)|].
    split; [apply Hok|]. unfold nic_view. cbn. rewrite !lookup_insert_eq. reflexivity.
Qed.

(** The loop body on another adapter leaves the adapter's entries alone. *)
Lemma sample_nic_frame tmono nic nic' c v :
  nic' <> nic -> preserves (fun w => nic_view w nic = v) (sample_nic tmono (nic', c)).
Proof.
  intros Hne. destruct c as [sent recv]. unfold sample_nic.
  preserves_step; [preserves_step|].
  destruct (nic_last a !! nic') as [[[ps pr] pt]|];
    repeat preserves_step;
    match goal with H : nic_view _ _ = _ |- _ => rewrite <- H end;
    unfold nic_view; cbn; rewrite ?lookup_insert_ne by exact Hne; reflexivity.
Qed.

End Sampler.

Section Tick.

Lemma ip_score_bounds l : 0 <= ip_score l <= 10 * Z.of_nat (length l).
Proof.
  unfold ip_score.
  assert (forall acc, acc <= fold_left
            (fun acc a => if counts_as_ipv4 a then acc + 10 else acc) l acc
          <= acc + 10 * Z.of_nat (length l)) as H.
  { induction l as [|a l IH]; intros acc; simpl length; simpl fold_left; [lia|].
    specialize (IH (if counts_as_ipv4 a then acc + 10 else acc)).
    destruct (counts_as_ipv4 a); lia. }
  specialize (H 0). lia.
Qed.

Lemma score_completes addrs st :
  machine_word (speed st) -> Z.of_nat (length addrs) < 2 ^ 64 ->
  exists sc, score addrs st = Some sc.
Proof.
  intros Hs Ha. unfold score, machine_word in *.
  assert (0 < 10) as H10 by lia.
  rewrite (int_truediv_small _ 10) by (destruct (speed st =? 0); lia || assumption).
  pose proof (ip_score_bounds addrs) as Hb.
  assert (11 * 2 ^ 64 < float_overflow) as Hlt by reflexivity.
  rewrite int_to_float_ok by lia. eauto.
Qed.

Lemma candidates_completes stats addrs :
  Forall (fun p => machine_word (speed p.2)) stats ->
  (forall name l, addrs !! name = Some l -> Z.of_nat (length l) < 2 ^ 64) ->
  exists cands, candidates stats addrs = Some cands.
Proof.
  intros Hs Ha. induction Hs as [|[name st] stats Hst _ IH]; simpl; [eauto|].
  destruct IH as [cands IH].
  destruct (negb (isup st) || denied name); [eauto|].
  destruct (score_completes (default [] (addrs !! name)) st Hst) as [sc ->].
  - destruct (addrs !! name) as [l|] eqn:E; simpl; [eapply Ha, E | lia].
  - rewrite IH. simpl. eauto.
Qed.

Lemma pick_completes env :
  env_ok env -> exists name, pick_active_adapter_name (if_stats env) (if_addrs env) = Some name.
Proof.
  intros [Hs Ha _ _ _]. unfold pick_active_adapter_name.
  destruct (candidates_completes _ _ Hs Ha) as [cands ->].
  destruct (sort_reverse cand_lt cands); eauto.
Qed.

Lemma sample_nic_completes tmono n sent recv :
  machine_word sent -> machine_word recv ->
  completes window_ok (sample_nic tmono (n, (sent, recv))) (fun _ w' => window_ok w').
Proof.
  intros Hs Hr w Hw.
  destruct (sample_nic_view tmono n sent recv (nic_last w !! n) Hs Hr w (conj Hw eq_refl))
    as (a & w' & E & Hok & _).
  exists a, w'. auto.
Qed.

(** The loop over adapters other than [nic]. *)
Lemma for_each_sample_frame tmono nic v l :
  Forall (fun p => machine_word p.2.1 /\ machine_word p.2.2) l -> nic ∉ l.*1 ->
  completes (fun w0 => window_ok w0 /\ nic_view w0 nic = v)
    (for_each (sample_nic tmono) l)
    (fun _ w0 => window_ok w0 /\ nic_view w0 nic = v).
Proof.
  intros Hl Hnotin. apply completes_for_each. intros [n [s r]] Hx.
  rewrite Forall_forall in Hl. destruct (Hl _ Hx) as [Hs Hr]. simpl in Hs, Hr.
  assert (n <> nic) as Hne.
  { intros ->. apply Hnotin. apply list_elem_of_fmap. exists (nic, (s, r)). auto. }
  apply (completes_frame window_ok (fun w0 => nic_view w0 nic = v)).
  - apply sample_nic_completes; assumption.
  - apply sample_nic_frame, Hne.
Qed.

(** A tick on in-range readings ends without an exception; an adapter that
    is among the readings is left with [sampled_view] of its baseline. *)
Lemma tick_stats_view env w nic sent recv :
  env_ok env -> window_ok w -> (nic, (sent, recv)) ∈ pernic env ->
  exists w', tick_stats env w = (Some tt, w')
    /\ nic_view w' nic = sampled_view (tmono env) (nic_last w !! nic) sent recv.
Proof.
  intros Henv Hw Hin.
  set (v := sampled_view (tmono env) (nic_last w !! nic) sent recv).
  set (P := fun w0 => window_ok w0 /\ nic_view w0 nic = nic_view w nic).
  set (Q := fun w0 => window_ok w0 /\ nic_view w0 nic = v).
  assert (forall f : Window -> Window,
    (forall w0, Q w0 -> Q (f w0)) -> completes Q (modify f) (fun _ => Q)) as Hmod.
  { intros f Hf. apply completes_modify. exact Hf. }
  assert (completes P (tick_stats env) (fun _ => Q)) as H.
  { unfold tick_stats.
    destruct (pick_completes env Henv) as [name Hname].
    destruct Henv as [_ _ Hper Hnd [Hio1 Hio2]]. unfold machine_word in Hio1, Hio2.
    eapply (completes_bind P _ (fun _ => P)).
    { eapply completes_lift; [exact Hname | auto]. }
    intros new_adapter.
    eapply (completes_bind P _ (fun _ => P)).
    { apply completes_modify. intros w0 Hw0.
      destruct (String.eqb new_adapter (active_adapter w0)); exact Hw0. }
    intros ?.
    eapply (completes_bind P _ (fun _ => Q)).
    { apply list_elem_of_split in Hin as (l1 & l2 & Hl). rewrite Hl in *.
      rewrite fmap_app, fmap_cons in Hnd. apply NoDup_app in Hnd as (_ & Hn1 & Hnd).
      apply NoDup_cons in Hnd as [Hn2 _]. simpl in Hn1, Hn2.
      apply Forall_app in Hper as [Hp1 Hper]. apply Forall_cons in Hper as [[Hs Hr] Hp2].
      simpl in Hs, Hr.
      apply (completes_for_each_app P P).
      { apply for_each_sample_frame; [exact Hp1|].
        intros Hc. apply (Hn1 _ Hc). left. }
      simpl. eapply (completes_bind P _ (fun _ => Q)).
      - intros w0 [Hok Hv].
        apply (sample_nic_view (tmono env) nic sent recv (nic_last w !! nic) Hs Hr).
        split; [exact Hok|]. apply (f_equal (fun x => x.1.1.1)) in Hv. exact Hv.
      - intros ?. apply for_each_sample_frame; assumption. }
    intros ?. assert (0 < MiB) as HM by reflexivity.
    eapply (completes_bind Q _ (fun _ => Q)).
    { eapply completes_lift; [apply int_truediv_small; [lia | exact HM] | auto]. }
    intros ?. eapply (completes_bind Q _ (fun _ => Q)); [apply Hmod; auto|]. intros ?.
    eapply (completes_bind Q _ (fun _ => Q)).
    { eapply completes_lift; [apply int_truediv_small; [lia | exact HM] | auto]. }
    intros ?.
    do 8 (eapply (completes_bind Q _ (fun _ => Q)); [apply Hmod; auto | intros ?]).
    eapply (completes_bind Q _ (fun w1 w2 => Q w2 /\ w1 = w2)).
    { apply completes_get. auto. }
    intros w1. eapply (completes_bind _ _ (fun _ => Q)).
    { intros w2 [Hq ->]. pose proof Hq as [[_ Hp] _].
      destruct (last_ping_ms w2) as [ms|].
      - exists (float_of_Z ms), w2. unfold lift.
        rewrite int_to_float_ok by (apply Hp; reflexivity). auto.
      - exists nan, w2. auto. }
    intros ?. apply Hmod. auto. }
  destruct (H w (conj Hw eq_refl)) as ([] & w' & E & _ & Hv). eauto.
Qed.

End Tick.

Section Rates.

Lemma min_dt_SF : Prim2SF min_dt = S754_finite false 7205759403792794 (-57).
Proof. reflexivity. Qed.

(** The elapsed time is positive: the floor itself, or a float above it. *)
Lemma ref_dt_positive now last :
  (exists m e, Prim2SF (ref_dt now last) = S754_finite false m e)
  \/ Prim2SF (ref_dt now last) = S754_infinity false.
Proof.
  unfold ref_dt, py_max. destruct (PrimFloat.ltb min_dt (now - last)) eqn:E.
  - rewrite FloatAxioms.ltb_spec, min_dt_SF in E. unfold SFltb in E.
    destruct (Prim2SF (now - last)) as [s|s| |s m e]; simpl in E; try discriminate;
      destruct s; try discriminate; eauto.
  - left. rewrite min_dt_SF. eauto.
Qed.

Lemma ref_dt_finite now last :
  is_infinity (now - last) = false ->
  exists m e, Prim2SF (ref_dt now last) = S754_finite false m e.
Proof.
  intros Hi. destruct (ref_dt_positive now last) as [H | H]; [exact H|].
  exfalso. unfold ref_dt, py_max in H.
  destruct (PrimFloat.ltb min_dt (now - last)).
  - rewrite is_infinity_spec in Hi. exact (Hi _ H).
  - rewrite min_dt_SF in H. discriminate.
Qed.

(** The division by [dt] never raises [ZeroDivisionError]. *)
Lemma ref_dt_nonzero now last : PrimFloat.eqb (ref_dt now last) 0 = false.
Proof.
  rewrite FloatAxioms.eqb_spec. change (Prim2SF 0) with (S754_zero false).
  destruct (ref_dt_positive now last) as [(m & e & ->) | ->]; reflexivity.
Qed.

Lemma million_SF : Prim2SF 1000000 = S754_finite false 8589934592000000 (-33).
Proof. reflexivity. Qed.

Lemma ref_mbps_nonneg delta dt m e :
  0 <= delta -> Prim2SF dt = S754_finite false m e -> fnonneg (ref_mbps delta dt).
Proof.
  intros Hd Hdt. unfold ref_mbps.
  eapply fnonneg_div_finite; [exact million_SF|].
  eapply fnonneg_div_finite; [exact Hdt|].
  apply fnonneg_mul_8, float_of_Z_nonneg, Hd.
Qed.

(** A zero delta gives the rate [0.0] whatever the elapsed time. *)
Lemma ref_mbps_zero now last : ref_mbps 0 (ref_dt now last) = 0%float.
Proof.
  unfold ref_mbps. change (float_of_Z 0 * 8)%float with 0%float.
  assert ((0 / ref_dt now last)%float = 0%float) as ->; [|reflexivity].
  apply Prim2SF_inj. rewrite FloatAxioms.div_spec.
  change (Prim2SF 0) with (S754_zero false).
  destruct (ref_dt_positive now last) as [(m & e & ->) | ->]; reflexivity.
Qed.

Lemma py_max_0_ge x : PrimFloat.leb 0 (py_max 0 x) = true.
Proof.
  unfold py_max. destruct (PrimFloat.ltb 0 x) eqn:E; [apply ltb_leb, E | reflexivity].
Qed.

End Rates.

Section RateClaims.

Lemma eth0_env_ok sent recv t :
  machine_word sent -> machine_word recv -> env_ok (eth0_env sent recv t).
Proof.
  intros Hs Hr. split; simpl.
  - apply Forall_cons. split; [unfold machine_word; simpl; lia | apply Forall_nil; exact I].
  - intros name l H. apply lookup_singleton_Some in H as [_ <-]. simpl. lia.
  - apply Forall_cons. split; [split; assumption | apply Forall_nil; exact I].
  - apply NoDup_singleton.
  - auto.
Qed.

Lemma eth0_window_ok sent recv t :
  0 <= sent -> 0 <= recv -> window_ok (eth0_window sent recv t).
Proof.
  intros Hs Hr. split.
  - intros nic ps pr pt H. cbn in H.
    apply lookup_singleton_Some in H as [_ [= <- <- <-]]. auto.
  - discriminate.
Qed.

Lemma new_window_ok active s r now : window_ok (new_window active s r now).
Proof. split; [intros nic ps pr pt H; cbn in H; rewrite lookup_empty in H|]; discriminate. Qed.

Lemma rates_nonneg_tick env : preserves rates_nonneg (tick_stats env).
Proof.
  assert (forall nic x (m : gmap string float),
    map_Forall (fun _ r => PrimFloat.leb 0 r = true) m ->
    map_Forall (fun _ r => PrimFloat.leb 0 r = true) (<[nic := py_max 0 x]> m)) as Hins.
  { intros. apply map_Forall_insert_2; [apply py_max_0_ge | assumption]. }
  assert (forall nic (m : gmap string float),
    map_Forall (fun _ r => PrimFloat.leb 0 r = true) m ->
    map_Forall (fun _ r => PrimFloat.leb 0 r = true) (<[nic := 0%float]> m)) as Hins0.
  { intros. apply map_Forall_insert_2; [reflexivity | assumption]. }
  unfold tick_stats.
  preserves_step; [preserves_step|].
  preserves_step; [preserves_step; destruct (String.eqb _ _); assumption|].
  preserves_step.
  { apply preserves_for_each. intros [nic [sent recv]] _. unfold sample_nic.
    preserves_step; [preserves_step|].
    destruct (nic_last _ !! nic) as [[[ps pr] pt]|]; repeat preserves_step;
      match goal with H : rates_nonneg _ |- _ => destruct H as (Hu & Hd & Ht) end;
      repeat split; cbn; auto. }
  repeat preserves_step; assumption.
Qed.

Lemma init_window_new stats addrs io now w :
  init_window stats addrs io now = Some w ->
  exists active sent_mb recv_mb, w = new_window active sent_mb recv_mb now.
Proof.
  unfold init_window. intros H.
  destruct (pick_active_adapter_name stats addrs) as [a|]; [|discriminate].
  destruct (int_truediv io.1 MiB) as [s|]; [|discriminate].
  destruct (int_truediv io.2 MiB) as [r|]; [|discriminate].
  injection H as <-. eauto.
Qed.

(** A property that holds of a new window and is kept by every slot holds
    in every state the program reaches. *)
Lemma reachable_invariant (I : Window -> Prop) :
  (forall active sent_mb recv_mb now, I (new_window active sent_mb recv_mb now)) ->
  (forall env, preserves I (tick_stats env)) ->
  (forall w, I w -> I (request_ping w)) ->
  (forall ms w, I w -> I (on_ping_done ms w)) ->
  forall s, reachable s -> I (window s).
Proof.
  intros Hnew Htick Hreq Hdone s Hs. induction Hs as [stats addrs io now w Hw | s s' _ IH Hstep].
  - apply init_window_new in Hw as (a & sm & rm & ->). apply Hnew.
  - destruct Hstep; simpl in *; [apply Htick | apply Hreq | apply Hdone]; exact IH.
Qed.

End RateClaims.

(** C1. For an adapter sampled before, a tick on in-range readings stores the
    rates of the reference definition: with
    [dt = max(0.050, now - lastTimestamp)], [deltaSent = max(0, sent - lastSent)]
    and [deltaRecv = max(0, recv - lastRecv)], the stored up rate is
    [deltaSent * 8 / dt / 1e6], the stored down rate is
    [deltaRecv * 8 / dt / 1e6], and the stored total is their sum (the measured
    interval [now - lastTimestamp] is not infinite). When [eth0] moves from
    1,000,000 to 2,000,000 bytes sent and from 5,000,000 to 7,000,000 bytes
    received over 1.0 s, the stored rates are 8.0, 16.0 and 24.0. *)
Theorem tick_stats_rates_match_reference :
  (forall env w nic sent recv psent precv ptm,
     env_ok env -> window_ok w -> (nic, (sent, recv)) ∈ pernic env ->
     nic_last w !! nic = Some (psent, precv, ptm) ->
     is_infinity (tmono env - ptm) = false ->
     exists w', tick_stats env w = (Some tt, w')
       /\ let dt := ref_dt (tmono env) ptm in
          let up := ref_mbps (ref_delta sent psent) dt in
          let down := ref_mbps (ref_delta recv precv) dt in
          nic_speed_up_mbps w' !! nic = Some up
          /\ nic_speed_down_mbps w' !! nic = Some down
          /\ nic_speed_total_mbps w' !! nic = Some (up + down)%float)
  /\ (exists w1 w2,
        tick_stats (eth0_env 1000000 5000000 100) (new_window "eth0" 0 0 0) = (Some tt, w1)
        /\ tick_stats (eth0_env 2000000 7000000 101) w1 = (Some tt, w2)
        /\ nic_speed_up_mbps w2 !! "eth0" = Some 8%float
        /\ nic_speed_down_mbps w2 !! "eth0" = Some 16%float
        /\ nic_speed_total_mbps w2 !! "eth0" = Some 24%float).
Proof.
  split.
  - intros env w nic sent recv psent precv ptm Henv Hw Hin Hl Hfin.
    destruct (tick_stats_view env w nic sent recv Henv Hw Hin) as (w' & E & Hv).
    exists w'. split; [exact E|]. rewrite Hl in Hv. unfold nic_view, sampled_view in Hv.
    injection Hv as _ Hu Hd Ht. cbv zeta.
    destruct (ref_dt_finite _ _ Hfin) as (m & e & Hdt).
    assert (fnonneg (ref_mbps (ref_delta sent psent) (ref_dt (tmono env) ptm))) as Nu.
    { eapply ref_mbps_nonneg; [unfold ref_delta; lia | exact Hdt]. }
    assert (fnonneg (ref_mbps (ref_delta recv precv) (ref_dt (tmono env) ptm))) as Nd.
    { eapply ref_mbps_nonneg; [unfold ref_delta; lia | exact Hdt]. }
    rewrite py_max_0_nonneg in Hu, Hd, Ht by auto using fnonneg_add. auto.
  - eexists _, _. split; [vm_compute; reflexivity|].
    split; [vm_compute; reflexivity|]. repeat split; vm_compute; reflexivity.
Qed.

(** C1 on a second reading of [eth0], one second after the first. *)
Lemma tick_stats_rates_match_reference_witness :
  exists w', tick_stats (eth0_env 2000000 7000000 101) (eth0_window 1000000 5000000 100)
               = (Some tt, w')
    /\ let dt := ref_dt 101 100 in
       let up := ref_mbps (ref_delta 2000000 1000000) dt in
       let down := ref_mbps (ref_delta 7000000 5000000) dt in
       nic_speed_up_mbps w' !! "eth0" = Some up
       /\ nic_speed_down_mbps w' !! "eth0" = Some down
       /\ nic_speed_total_mbps w' !! "eth0" = Some (up + down)%float.
Proof.
  apply (proj1 tick_stats_rates_match_reference (eth0_env 2000000 7000000 101)
           (eth0_window 1000000 5000000 100) "eth0" 2000000 7000000 1000000 5000000 100%float).
  - apply eth0_env_ok; unfold machine_word; lia.
  - apply eth0_window_ok; lia.
  - apply list_elem_of_singleton. reflexivity.
  - apply lookup_singleton_eq.
  - reflexivity.
Defined.

(** C2. In every state the program reaches, every stored up, down and total
    rate is at least zero. When a counter of an adapter sampled before has
    decreased, its byte delta is clamped to 0 and the rate stored for that
    direction is 0.0. *)
Theorem stored_rates_never_negative :
  (forall s, reachable s -> rates_nonneg (window s))
  /\ (forall env w nic sent recv psent precv ptm,
        env_ok env -> window_ok w -> (nic, (sent, recv)) ∈ pernic env ->
        nic_last w !! nic = Some (psent, precv, ptm) ->
        exists w', tick_stats env w = (Some tt, w')
          /\ (sent <= psent ->
               ref_delta sent psent = 0 /\ nic_speed_up_mbps w' !! nic = Some 0%float)
          /\ (recv <= precv ->
               ref_delta recv precv = 0 /\ nic_speed_down_mbps w' !! nic = Some 0%float)).
Proof.
  split.
  - apply reachable_invariant.
    + intros. repeat split; apply map_Forall_empty.
    + apply rates_nonneg_tick.
    + intros w H. exact H.
    + intros [ms|] w H; exact H.
  - intros env w nic sent recv psent precv ptm Henv Hw Hin Hl.
    destruct (tick_stats_view env w nic sent recv Henv Hw Hin) as (w' & E & Hv).
    exists w'. split; [exact E|]. rewrite Hl in Hv. unfold nic_view, sampled_view in Hv.
    injection Hv as _ Hu Hd _.
    split; intros Hle.
    + assert (ref_delta sent psent = 0) as E0 by (unfold ref_delta; lia).
      split; [exact E0|]. rewrite Hu, E0, ref_mbps_zero. reflexivity.
    + assert (ref_delta recv precv = 0) as E0 by (unfold ref_delta; lia).
      split; [exact E0|]. rewrite Hd, E0, ref_mbps_zero. reflexivity.
Qed.

(** C2 on a reading of [eth0] whose sent counter went back to 10. *)
Lemma stored_rates_never_negative_witness :
  exists w', tick_stats (eth0_env 10 7000000 101) (eth0_window 1000000 5000000 100)
               = (Some tt, w')
    /\ (10 <= 1000000 ->
         ref_delta 10 1000000 = 0 /\ nic_speed_up_mbps w' !! "eth0" = Some 0%float)
    /\ (7000000 <= 5000000 ->
         ref_delta 7000000 5000000 = 0 /\ nic_speed_down_mbps w' !! "eth0" = Some 0%float).
Proof.
  apply (proj2 stored_rates_never_negative (eth0_env 10 7000000 101)
           (eth0_window 1000000 5000000 100) "eth0" 10 7000000 1000000 5000000 100%float).
  - apply eth0_env_ok; unfold machine_word; lia.
  - apply eth0_window_ok; lia.
  - apply list_elem_of_singleton. reflexivity.
  - apply lookup_singleton_eq.
Defined.

(** C3. A tick on in-range readings records, for every adapter among them,
    the observed counters and the monotonic time as the new baseline, seen
    before or not; for an adapter not seen before it stores the three rates
    as exactly 0.0. When a new adapter appears with 500 bytes sent and 300
    received, its rates are 0.0 and the baseline (500, 300, now) is what the
    next tick computes its delta from. *)
Theorem tick_stats_records_baseline :
  (forall env w nic sent recv,
     env_ok env -> window_ok w -> (nic, (sent, recv)) ∈ pernic env ->
     exists w', tick_stats env w = (Some tt, w')
       /\ nic_last w' !! nic = Some (sent, recv, tmono env)
       /\ (nic_last w !! nic = None ->
            nic_speed_up_mbps w' !! nic = Some 0%float
            /\ nic_speed_down_mbps w' !! nic = Some 0%float
            /\ nic_speed_total_mbps w' !! nic = Some 0%float))
  /\ (exists w1 w2,
        tick_stats (eth0_env 500 300 100) (new_window "eth0" 0 0 0) = (Some tt, w1)
        /\ nic_last w1 !! "eth0" = Some (500, 300, 100%float)
        /\ nic_speed_up_mbps w1 !! "eth0" = Some 0%float
        /\ nic_speed_down_mbps w1 !! "eth0" = Some 0%float
        /\ nic_speed_total_mbps w1 !! "eth0" = Some 0%float
        /\ tick_stats (eth0_env 125500 250300 101) w1 = (Some tt, w2)
        /\ nic_speed_up_mbps w2 !! "eth0" = Some 1%float
        /\ nic_speed_down_mbps w2 !! "eth0" = Some 2%float).
Proof.
  split.
  - intros env w nic sent recv Henv Hw Hin.
    destruct (tick_stats_view env w nic sent recv Henv Hw Hin) as (w' & E & Hv).
    exists w'. split; [exact E|]. unfold nic_view, sampled_view in Hv. split.
    + destruct (nic_last w !! nic) as [[[ps pr] pt]|]; injection Hv as Hl _ _ _; exact Hl.
    + intros Hnone. rewrite Hnone in Hv. injection Hv as _ Hu Hd Ht. auto.
  - eexists _, _. split; [vm_compute; reflexivity|].
    do 4 (split; [vm_compute; reflexivity|]).
    split; [vm_compute; reflexivity|]. split; vm_compute; reflexivity.
Qed.

(** C3 on the first reading of [eth0]. *)
Lemma tick_stats_records_baseline_witness :
  exists w', tick_stats (eth0_env 500 300 100) (new_window "eth0" 0 0 0) = (Some tt, w')
    /\ nic_last w' !! "eth0" = Some (500, 300, 100%float)
    /\ (nic_last (new_window "eth0" 0 0 0) !! "eth0" = None ->
         nic_speed_up_mbps w' !! "eth0" = Some 0%float
         /\ nic_speed_down_mbps w' !! "eth0" = Some 0%float
         /\ nic_speed_total_mbps w' !! "eth0" = Some 0%float).
Proof.
  apply (proj1 tick_stats_records_baseline (eth0_env 500 300 100)
           (new_window "eth0" 0 0 0) "eth0" 500 300).
  - apply eth0_env_ok; unfold machine_word; lia.
  - apply new_window_ok.
  - apply list_elem_of_singleton. reflexivity.
Defined.

(** * History buffers and probe counters *)

Section Buffers.

Context {A : Type}.
Implicit Types (d : deque A) (x : A) (xs : list A).

Lemma deque_append_maxlen x d : dq_maxlen (deque_append x d) = dq_maxlen d.
Proof. reflexivity. Qed.

(** Below the capacity an append only adds. *)
Lemma deque_append_room x d :
  (length (dq_items d) < dq_maxlen d)%nat ->
  dq_items (deque_append x d) = dq_items d ++ [x].
Proof.
  intros H. unfold deque_append. cbn [dq_items].
  destruct (Nat.ltb_spec (dq_maxlen d) (length (dq_items d ++ [x]))) as [Hlt|]; [|reflexivity].
  rewrite length_app in Hlt. simpl in Hlt. lia.
Qed.

(** On a full buffer an append drops the oldest item. *)
Lemma deque_append_full n x d :
  full n d ->
  full n (deque_append x d)
  /\ dq_items (deque_append x d) = drop 1 (dq_items d ++ [x]).
Proof.
  intros [Hm Hl]. unfold full, deque_append. cbn [dq_items dq_maxlen].
  destruct (Nat.ltb_spec (dq_maxlen d) (length (dq_items d ++ [x]))) as [Hlt|Hge].
  - rewrite length_drop, length_app. simpl. repeat split; lia.
  - rewrite length_app in Hge. simpl in Hge. lia.
Qed.

Lemma deque_extend_room xs : forall d,
  (length (dq_items d) + length xs <= dq_maxlen d)%nat ->
  deque_extend xs d = {| dq_items := dq_items d ++ xs; dq_maxlen := dq_maxlen d |}.
Proof.
  induction xs as [|x xs IH]; intros d H; simpl in *.
  - rewrite app_nil_r. destruct d; reflexivity.
  - rewrite IH; rewrite ?deque_append_maxlen, deque_append_room by lia.
    + rewrite <- app_assoc. reflexivity.
    + rewrite length_app. simpl. lia.
Qed.

Lemma deque_new_replicate n x :
  deque_new (replicate n x) n = {| dq_items := replicate n x; dq_maxlen := n |}.
Proof.
  unfold deque_new. change (fold_left _ ?l ?d) with (deque_extend l d).
  rewrite deque_extend_room; [reflexivity|]. simpl. rewrite length_replicate. lia.
Qed.

Lemma deque_new_full n x : full n (deque_new (replicate n x) n).
Proof. rewrite deque_new_replicate. split; [reflexivity | apply length_replicate]. Qed.

(** A full buffer keeps the latest items: of the old items followed by the
    appended ones, as many leave at the front as were appended. *)
Lemma deque_extend_full n xs : forall d,
  full n d ->
  full n (deque_extend xs d)
  /\ dq_items (deque_extend xs d) = drop (length xs) (dq_items d ++ xs).
Proof.
  induction xs as [|x xs IH]; intros d Hd; simpl.
  - rewrite app_nil_r. auto.
  - destruct (deque_append_full n x d Hd) as [Hf Hi].
    destruct (IH _ Hf) as [Hf' Hi']. split; [exact Hf'|].
    rewrite Hi', Hi.
    replace (dq_items d ++ x :: xs) with ((dq_items d ++ [x]) ++ xs)
      by (rewrite <- app_assoc; reflexivity).
    destruct (dq_items d ++ [x]) as [|y l] eqn:E.
    + destruct (dq_items d); discriminate.
    + reflexivity.
Qed.

End Buffers.


(** Reads the fields of a window built by assignments. *)
Ltac window_simpl :=
  cbn [active_adapter nic_last nic_speed_total_mbps nic_speed_down_mbps
       nic_speed_up_mbps nic_sent_mb nic_recv_mb total_sent_mb total_recv_mb
       last_ping_ms last_mbps_simple_total last_mbps_simple_down last_mbps_simple_up
       last_mbps_graph_total simple_hist_total simple_hist_down simple_hist_up
       ping_sent ping_ok ping_fail t_hist mbps_hist ping_hist set_active_adapter
       set_nic_last set_nic_speed_total_mbps set_nic_speed_down_mbps
       set_nic_speed_up_mbps set_nic_sent_mb set_nic_recv_mb set_total_sent_mb
       set_total_recv_mb set_last_ping_ms set_last_mbps_simple_total
       set_last_mbps_simple_down set_last_mbps_simple_up set_last_mbps_graph_total
       set_simple_hist_total set_simple_hist_down set_simple_hist_up set_ping_sent
       set_ping_ok set_ping_fail set_t_hist set_mbps_hist set_ping_hist].

Section Histories.

Lemma buffers_full_new active sent_mb recv_mb now :
  buffers_full (new_window active sent_mb recv_mb now).
Proof. refine (conj _ (conj _ (conj _ (conj _ (conj _ _))))); apply deque_new_full. Qed.

Lemma buffers_full_tick env : preserves buffers_full (tick_stats env).
Proof.
  unfold tick_stats.
  preserves_step; [preserves_step|].
  preserves_step; [preserves_step; destruct (String.eqb _ _); assumption|].
  preserves_step.
  { apply preserves_for_each. intros [nic [sent recv]] _. unfold sample_nic.
    preserves_step; [preserves_step|].
    destruct (nic_last _ !! nic) as [[[ps pr] pt]|]; repeat preserves_step; assumption. }
  repeat preserves_step; try assumption;
    match goal with H : buffers_full _ |- _ =>
      destruct H as (H1 & H2 & H3 & H4 & H5 & H6) end;
    refine (conj _ (conj _ (conj _ (conj _ (conj _ _))))); try assumption;
    cbn; eapply deque_append_full; eassumption.
Qed.

Lemma for_each_sample_histories tmono l h :
  preserves (fun w => histories w = h) (for_each (sample_nic tmono) l).
Proof.
  apply preserves_for_each. intros [nic [sent recv]] _. unfold sample_nic.
  preserves_step; [preserves_step|].
  destruct (nic_last _ !! nic) as [[[ps pr] pt]|]; repeat preserves_step; assumption.
Qed.

(** What a tick that ends without an exception has appended. *)
Lemma tick_stats_appends env w w' :
  tick_stats env w = (Some tt, w') ->
  simple_hist_total w' = deque_append (last_mbps_simple_total w') (simple_hist_total w)
  /\ simple_hist_down w' = deque_append (last_mbps_simple_down w') (simple_hist_down w)
  /\ simple_hist_up w' = deque_append (last_mbps_simple_up w') (simple_hist_up w)
  /\ t_hist w' = deque_append (twall env) (t_hist w)
  /\ mbps_hist w' = deque_append (last_mbps_graph_total w') (mbps_hist w)
  /\ ping_hist w' = deque_append
       (match last_ping_ms w with Some ms => float_of_Z ms | None => nan end) (ping_hist w).
Proof.
  unfold tick_stats. rewrite bind_run. unfold lift at 1.
  destruct (pick_active_adapter_name _ _) as [name|]; [|discriminate].
  rewrite bind_run. cbn [modify].
  set (w1 := if String.eqb name (active_adapter w) then w else set_active_adapter name w).
  assert (histories w1 = histories w) as H1 by (subst w1; destruct (String.eqb _ _); reflexivity).
  rewrite bind_run.
  pose proof (for_each_sample_histories (tmono env) (pernic env) _ w1 H1) as H2.
  destruct (for_each _ _ w1) as [[[]|] w2]; [|discriminate]. simpl in H2.
  rewrite bind_run. unfold lift at 1.
  destruct (int_truediv _ MiB) as [s_mb|]; [|discriminate].
  rewrite bind_run. cbn [modify]. rewrite bind_run. unfold lift at 1.
  destruct (int_truediv _ MiB) as [r_mb|]; [|discriminate].
  repeat (rewrite bind_run; cbn [modify get lift]).
  injection H2 as E1 E2 E3 E4 E5 E6 E7.
  window_simpl. rewrite E7.
  assert (forall p, match last_ping_ms w with
                    | Some ms => int_to_float ms
                    | None => Some nan
                    end = Some p ->
          p = match last_ping_ms w with Some ms => float_of_Z ms | None => nan end) as Hp.
  { intros p. destruct (last_ping_ms w) as [ms|]; [|congruence].
    unfold int_to_float. destruct (Z.abs ms <? float_overflow); congruence. }
  destruct (match last_ping_ms w with Some ms => int_to_float ms | None => Some nan end)
    as [p|] eqn:Ep; [|discriminate].
  specialize (Hp p eq_refl). unfold modify. intros E.
  apply (f_equal snd) in E. cbn [snd] in E. subst w'. window_simpl.
  rewrite E1, E2, E3, E4, E5, E6, Hp. repeat split.
Qed.

End Histories.

Section HistoryClaims.

(** A tick on in-range readings ends without an exception. *)
Lemma tick_stats_completes env w :
  env_ok env -> window_ok w -> exists w', tick_stats env w = (Some tt, w').
Proof.
  intros Henv Hw.
  assert (forall f : Window -> Window,
    (forall w0, window_ok w0 -> window_ok (f w0)) ->
    completes window_ok (modify f) (fun _ => window_ok)) as Hmod.
  { intros f Hf. apply completes_modify. exact Hf. }
  assert (completes window_ok (tick_stats env) (fun _ => window_ok)) as H.
  { unfold tick_stats.
    destruct (pick_completes env Henv) as [name Hname].
    destruct Henv as [_ _ Hper _ [Hio1 Hio2]]. unfold machine_word in Hio1, Hio2.
    assert (0 < MiB) as HM by reflexivity.
    eapply (completes_bind _ _ (fun _ => window_ok)).
    { eapply completes_lift; [exact Hname | auto]. }
    intros new_adapter.
    eapply (completes_bind _ _ (fun _ => window_ok)).
    { apply Hmod. intros w0 Hw0. destruct (String.eqb _ _); exact Hw0. }
    intros ?.
    eapply (completes_bind _ _ (fun _ => window_ok)).
    { apply completes_for_each. intros [n [s r]] Hx.
      rewrite Forall_forall in Hper. destruct (Hper _ Hx) as [Hs Hr].
      apply sample_nic_completes; assumption. }
    intros ?.
    eapply (completes_bind _ _ (fun _ => window_ok)).
    { eapply completes_lift; [apply int_truediv_small; [lia | exact HM] | auto]. }
    intros ?. eapply (completes_bind _ _ (fun _ => window_ok)); [apply Hmod; auto|]. intros ?.
    eapply (completes_bind _ _ (fun _ => window_ok)).
    { eapply completes_lift; [apply int_truediv_small; [lia | exact HM] | auto]. }
    intros ?.
    do 8 (eapply (completes_bind _ _ (fun _ => window_ok)); [apply Hmod; auto | intros ?]).
    eapply (completes_bind _ _ (fun w1 w2 => window_ok w2 /\ w1 = w2)).
    { apply completes_get. auto. }
    intros w1. eapply (completes_bind _ _ (fun _ => window_ok)).
    { intros w2 [Hq ->]. pose proof Hq as [_ Hp].
      destruct (last_ping_ms w2) as [ms|].
      - exists (float_of_Z ms), w2. unfold lift.
        rewrite int_to_float_ok by (apply Hp; reflexivity). auto.
      - exists nan, w2. auto. }
    intros ?. apply Hmod. auto. }
  destruct (H w Hw) as ([] & w' & E & _). eauto.
Qed.

Lemma full_append_items {A} n (x : A) (d : deque A) :
  (0 < n)%nat -> full n d ->
  dq_items (deque_append x d) = drop 1 (dq_items d) ++ [x].
Proof.
  intros Hn Hd. rewrite (proj2 (deque_append_full n x d Hd)).
  destruct Hd as [_ Hl]. destruct (dq_items d); [simpl in Hl; lia | reflexivity].
Qed.

End HistoryClaims.

(** C8. The six history buffers are created full of placeholders (zero
    rates, the creation time, NaN for the absent latency) and hold exactly
    their capacity, 10 or 240, in every state the program reaches. An append
    on a full buffer drops exactly the oldest item and adds the new one at
    the end; a tick that ends without an exception, as it does on in-range
    readings, makes one such append per buffer; after capacity + 1 appends
    the buffer holds the last capacity samples, so its length is unchanged
    and the oldest appended sample is gone. *)
Theorem history_buffers_hold_capacity :
  (forall active sent_mb recv_mb now,
     let w := new_window active sent_mb recv_mb now in
     simple_hist_total w = {| dq_items := replicate 10 0%float; dq_maxlen := 10 |}
     /\ simple_hist_down w = {| dq_items := replicate 10 0%float; dq_maxlen := 10 |}
     /\ simple_hist_up w = {| dq_items := replicate 10 0%float; dq_maxlen := 10 |}
     /\ t_hist w = {| dq_items := replicate 240 now; dq_maxlen := 240 |}
     /\ mbps_hist w = {| dq_items := replicate 240 0%float; dq_maxlen := 240 |}
     /\ ping_hist w = {| dq_items := replicate 240 nan; dq_maxlen := 240 |})
  /\ (forall s, reachable s -> buffers_full (window s))
  /\ (forall (n : nat) (x : float) (d : deque float),
        (0 < n)%nat -> full n d ->
        full n (deque_append x d)
        /\ dq_items (deque_append x d) = drop 1 (dq_items d) ++ [x])
  /\ (forall env w,
        env_ok env -> window_ok w -> buffers_full w ->
        exists w', tick_stats env w = (Some tt, w')
          /\ dq_items (simple_hist_total w')
             = drop 1 (dq_items (simple_hist_total w)) ++ [last_mbps_simple_total w']
          /\ dq_items (simple_hist_down w')
             = drop 1 (dq_items (simple_hist_down w)) ++ [last_mbps_simple_down w']
          /\ dq_items (simple_hist_up w')
             = drop 1 (dq_items (simple_hist_up w)) ++ [last_mbps_simple_up w']
          /\ dq_items (t_hist w') = drop 1 (dq_items (t_hist w)) ++ [twall env]
          /\ dq_items (mbps_hist w')
             = drop 1 (dq_items (mbps_hist w)) ++ [last_mbps_graph_total w']
          /\ dq_items (ping_hist w')
             = drop 1 (dq_items (ping_hist w))
               ++ [match last_ping_ms w with Some ms => float_of_Z ms | None => nan end])
  /\ (forall (n : nat) (d : deque float) (xs : list float),
        full n d -> length xs = S n ->
        length (dq_items (deque_extend xs d)) = n
        /\ dq_items (deque_extend xs d) = drop 1 xs).
Proof.
  split; [|split; [|split; [|split]]].
  - intros. subst w. unfold new_window. cbn [simple_hist_total simple_hist_down
      simple_hist_up t_hist mbps_hist ping_hist].
    rewrite !deque_new_replicate. repeat split.
  - apply reachable_invariant.
    + apply buffers_full_new.
    + apply buffers_full_tick.
    + intros w H. exact H.
    + intros [ms|] w H; exact H.
  - intros n x d Hn Hd. split; [apply deque_append_full, Hd | apply (full_append_items n), Hd].
    exact Hn.
  - intros env w Henv Hw (H1 & H2 & H3 & H4 & H5 & H6).
    destruct (tick_stats_completes env w Henv Hw) as [w' E]. exists w'.
    split; [exact E|].
    destruct (tick_stats_appends env w w' E) as (-> & -> & -> & -> & -> & ->).
    assert (0 < simple_smooth_len)%nat as Hs by (unfold simple_smooth_len; lia).
    assert (0 < buf_len)%nat as Hb by (unfold buf_len; lia).
    repeat split;
      first [ apply (full_append_items simple_smooth_len); assumption
            | apply (full_append_items buf_len); assumption ].
  - intros n d xs Hd Hxs. destruct (deque_extend_full n xs d Hd) as [[_ Hlen] Hi].
    split; [exact Hlen|]. rewrite Hi. destruct Hd as [_ Hl].
    rewrite drop_app_ge by lia. rewrite Hxs, Hl. f_equal. lia.
Qed.

(** C8 on a buffer of capacity 3 that receives four samples. *)
Lemma history_buffers_hold_capacity_witness :
  length (dq_items (deque_extend [1; 2; 3; 4]%float (deque_new (replicate 3 0%float) 3))) = 3%nat
  /\ dq_items (deque_extend [1; 2; 3; 4]%float (deque_new (replicate 3 0%float) 3))
     = drop 1 [1; 2; 3; 4]%float.
Proof.
  apply (proj2 (proj2 (proj2 (proj2 history_buffers_hold_capacity))) 3%nat
           (deque_new (replicate 3 0%float) 3) [1; 2; 3; 4]%float).
  - split; reflexivity.
  - reflexivity.
Defined.

Section Counters.

Lemma counters_tick env a b c :
  preserves (fun w => ping_sent w = a /\ ping_ok w = b /\ ping_fail w = c) (tick_stats env).
Proof.
  unfold tick_stats.
  preserves_step; [preserves_step|].
  preserves_step; [preserves_step; destruct (String.eqb _ _); assumption|].
  preserves_step.
  { apply preserves_for_each. intros [nic [sent recv]] _. unfold sample_nic.
    preserves_step; [preserves_step|].
    destruct (nic_last _ !! nic) as [[[ps pr] pt]|]; repeat preserves_step; assumption. }
  repeat preserves_step; assumption.
Qed.

End Counters.

(** C10. In every state the program reaches, [ping_sent] is [ping_ok] plus
    [ping_fail] plus the number of probes in flight, hence at least
    [ping_ok + ping_fail]. A dispatch raises [ping_sent] by one and leaves
    the two others; the delivery of an integer raises [ping_ok] by one, the
    delivery of [None] raises [ping_fail] by one, and each leaves the two
    others; a stats tick leaves all three. *)
Theorem probe_counters_balance :
  (forall s, reachable s ->
     counters_balanced s
     /\ ping_ok (window s) + ping_fail (window s) <= ping_sent (window s))
  /\ (forall w,
        ping_sent (request_ping w) = ping_sent w + 1
        /\ ping_ok (request_ping w) = ping_ok w
        /\ ping_fail (request_ping w) = ping_fail w)
  /\ (forall n w,
        ping_ok (on_ping_done (Some n) w) = ping_ok w + 1
        /\ ping_fail (on_ping_done (Some n) w) = ping_fail w
        /\ ping_sent (on_ping_done (Some n) w) = ping_sent w)
  /\ (forall w,
        ping_fail (on_ping_done None w) = ping_fail w + 1
        /\ ping_ok (on_ping_done None w) = ping_ok w
        /\ ping_sent (on_ping_done None w) = ping_sent w)
  /\ (forall env w,
        ping_sent (snd (tick_stats env w)) = ping_sent w
        /\ ping_ok (snd (tick_stats env w)) = ping_ok w
        /\ ping_fail (snd (tick_stats env w)) = ping_fail w).
Proof.
  assert (forall env w,
    ping_sent (snd (tick_stats env w)) = ping_sent w
    /\ ping_ok (snd (tick_stats env w)) = ping_ok w
    /\ ping_fail (snd (tick_stats env w)) = ping_fail w) as Htick.
  { intros env w. apply (counters_tick env _ _ _ w). auto. }
  split; [|repeat split; intros; try reflexivity; apply Htick].
  assert (forall s, reachable s -> counters_balanced s) as Hbal.
  { intros s Hs. induction Hs as [stats addrs io now w Hw | s s' _ IH Hstep].
    - apply init_window_new in Hw as (a & sm & rm & ->). reflexivity.
    - unfold counters_balanced in *. destruct Hstep as [env w n | w n | ms w n];
        cbn [window in_flight] in *.
      + destruct (Htick env w) as (-> & -> & ->). exact IH.
      + unfold request_ping. window_simpl. lia.
      + destruct ms; unfold on_ping_done; window_simpl; lia. }
  intros s Hs. split; [apply Hbal, Hs|]. specialize (Hbal s Hs).
  unfold counters_balanced in Hbal. lia.
Qed.

(** C10 after one dispatch from a new window. *)
Lemma probe_counters_balance_witness :
  counters_balanced {| window := request_ping (new_window no_network 0 0 0); in_flight := 1 |}
  /\ ping_ok (request_ping (new_window no_network 0 0 0))
     + ping_fail (request_ping (new_window no_network 0 0 0))
     <= ping_sent (request_ping (new_window no_network 0 0 0)).
Proof.
  apply (proj1 probe_counters_balance
           {| window := request_ping (new_window no_network 0 0 0); in_flight := 1 |}).
  eapply reachable_step; [|apply step_request].
  apply (reachable_init [] ∅ (0, 0) 0%float). reflexivity.
Defined.

(** * The adapter enumerator *)

(** ** Sorting *)

Section StableSort.

Context {A : Type} (lt : A -> A -> bool) (D : A -> Prop).

(** On the values [D] that are sorted, [lt] is a strict weak order. *)
Hypothesis lt_asym : forall x y, D x -> D y -> lt x y = true -> lt y x = false.
Hypothesis le_trans : forall x y z, D x -> D y -> D z ->
  lt y x = false -> lt z y = false -> lt z x = false.

(** [x] does not come after [y]. *)
Let le (x y : A) : Prop := lt y x = false.

Lemma insert_sorted_perm x l : Permutation (insert_sorted lt x l) (x :: l).
Proof.
  induction l as [|y l IH]; simpl; [reflexivity|].
  destruct (lt y x); [|reflexivity].
  rewrite IH. apply perm_swap.
Qed.

Lemma stable_sort_perm l : Permutation (stable_sort lt l) l.
Proof.
  induction l as [|x l IH]; simpl; [reflexivity|].
  rewrite insert_sorted_perm, IH. reflexivity.
Qed.

Lemma insert_sorted_sorted x l :
  D x -> Forall D l -> StronglySorted le l -> StronglySorted le (insert_sorted lt x l).
Proof.
  intros Hx HD Hs. induction Hs as [|y l Hs IH Hy]; simpl.
  - repeat constructor.
  - apply Forall_cons in HD as [Dy HD].
    destruct (lt y x) eqn:E.
    + constructor; [apply IH, HD|].
      rewrite (insert_sorted_perm x l). constructor; [|exact Hy].
      unfold le. apply lt_asym; assumption.
    + constructor; [constructor; assumption|].
      constructor; [exact E|].
      rewrite Forall_forall in *. intros z Hz.
      unfold le in *. apply (le_trans x y z); auto.
Qed.

Lemma stable_sort_sorted l : Forall D l -> StronglySorted le (stable_sort lt l).
Proof.
  induction l as [|x l IH]; intros HD; simpl; [constructor|].
  apply Forall_cons in HD as [Dx HD].
  apply insert_sorted_sorted; [exact Dx | | apply IH, HD].
  rewrite stable_sort_perm. exact HD.
Qed.

Lemma sorted_last l m : StronglySorted le (l ++ [m]) -> Forall (fun z => le z m) l.
Proof.
  induction l as [|x l IH]; intros H; [constructor|].
  simpl in H. apply StronglySorted_inv in H as [Hs Hx].
  constructor; [|apply IH, Hs].
  rewrite Forall_forall in Hx. apply Hx. apply elem_of_app. right. left.
Qed.

(** The head of a list sorted in reverse is a greatest element: nothing in
    the list is above it. *)
Lemma sort_reverse_head l :
  l <> [] -> Forall D l ->
  exists m rest, sort_reverse lt l = m :: rest /\ m ∈ l /\ forall z, z ∈ l -> lt m z = false.
Proof.
  intros Hne HD. unfold sort_reverse.
  assert (Permutation (stable_sort lt (rev l)) l) as Hp.
  { rewrite stable_sort_perm. symmetry. apply Permutation_rev. }
  assert (StronglySorted le (stable_sort lt (rev l))) as Hs.
  { apply stable_sort_sorted. rewrite <- Permutation_rev. exact HD. }
  destruct (rev (stable_sort lt (rev l))) as [|m rest] eqn:E.
  - exfalso. apply (f_equal (@rev A)) in E. rewrite rev_involutive in E. simpl in E.
    rewrite E in Hp. apply Permutation_nil in Hp. auto.
  - exists m, rest. split; [reflexivity|].
    apply (f_equal (@rev A)) in E. rewrite rev_involutive in E. simpl in E.
    rewrite E in Hp, Hs.
    assert (m ∈ l) as Hm.
    { rewrite <- Hp. apply elem_of_app. right. left. }
    split; [exact Hm|]. intros z Hz.
    rewrite <- Hp in Hz. apply elem_of_app in Hz as [Hz | Hz].
    + pose proof (sorted_last _ _ Hs) as Hl. rewrite Forall_forall in Hl. apply Hl, Hz.
    + apply list_elem_of_singleton in Hz as ->.
      rewrite Forall_forall in HD. specialize (HD m Hm).
      destruct (lt m m) eqn:Em; [|reflexivity]. rewrite (lt_asym m m HD HD Em) in Em.
      discriminate.
Qed.

End StableSort.

(** ** The order on scores and names *)

Section ScoreOrder.

Lemma SFcompare_key x y :
  sf_signed false x -> sf_signed false y ->
  match SFcompare x y with
  | Some Lt => key_lt (sf_key x) (sf_key y)
  | Some Eq => sf_key x = sf_key y
  | Some Gt => key_lt (sf_key y) (sf_key x)
  | None => False
  end.
Proof.
  unfold key_lt.
  destruct x as [s|s| |s mx ex], y as [t|t| |t my ey]; simpl; intros Hx Hy;
    try contradiction; subst; simpl; try lia; try reflexivity.
  destruct (Z.compare_spec ex ey) as [-> | H | H]; try lia.
  change (Pos.compare_cont Eq mx my) with (Pos.compare mx my).
  destruct (Pos.compare_spec mx my) as [-> | H | H]; [reflexivity | lia | lia].
Qed.

Lemma sf_key_inj x y :
  sf_signed false x -> sf_signed false y -> sf_key x = sf_key y -> x = y.
Proof.
  destruct x as [s|s| |s mx ex], y as [t|t| |t my ey]; simpl; intros Hx Hy;
    try contradiction; intros [=]; subst; reflexivity.
Qed.

Lemma fnonneg_ltb x y :
  fnonneg x -> fnonneg y ->
  PrimFloat.ltb x y = true <-> key_lt (sf_key (Prim2SF x)) (sf_key (Prim2SF y)).
Proof.
  intros Hx Hy. rewrite FloatAxioms.ltb_spec. unfold SFltb.
  pose proof (SFcompare_key _ _ Hx Hy) as H. unfold key_lt in *.
  destruct (SFcompare (Prim2SF x) (Prim2SF y)) as [[]|]; split; try easy; try lia.
  rewrite H. lia.
Qed.

Lemma fnonneg_eqb x y :
  fnonneg x -> fnonneg y -> PrimFloat.eqb x y = true <-> x = y.
Proof.
  intros Hx Hy. rewrite FloatAxioms.eqb_spec. unfold SFeqb.
  pose proof (SFcompare_key _ _ Hx Hy) as H. unfold key_lt in *.
  destruct (SFcompare (Prim2SF x) (Prim2SF y)) as [[]|] eqn:E; split; try easy.
  - intros _. apply Prim2SF_inj, sf_key_inj; assumption.
  - intros ->. lia.
  - intros ->. lia.
Qed.

Lemma fnonneg_total x y :
  fnonneg x -> fnonneg y ->
  PrimFloat.ltb x y = true \/ x = y \/ PrimFloat.ltb y x = true.
Proof.
  intros Hx Hy. rewrite !fnonneg_ltb by assumption.
  destruct (decide (sf_key (Prim2SF x) = sf_key (Prim2SF y))) as [E | N].
  - right. left. apply Prim2SF_inj, sf_key_inj; assumption.
  - unfold key_lt.
    destruct (sf_key (Prim2SF x)) as [[a b] c], (sf_key (Prim2SF y)) as [[a' b'] c'].
    simpl. assert (a <> a' \/ b <> b' \/ c <> c') by
      (destruct (decide (a = a')), (decide (b = b')), (decide (c = c')); subst; auto;
       congruence).
    lia.
Qed.

Lemma ascii_compare_lt_trans a b c :
  Ascii.compare a b = Lt -> Ascii.compare b c = Lt -> Ascii.compare a c = Lt.
Proof.
  unfold Ascii.compare. rewrite !N.compare_lt_iff. lia.
Qed.

Lemma string_compare_lt_trans a : forall b c,
  String.compare a b = Lt -> String.compare b c = Lt -> String.compare a c = Lt.
Proof.
  induction a as [|x a IH]; intros [|y b] [|z c]; simpl; try easy.
  destruct (Ascii.compare x y) eqn:Exy; try easy;
    destruct (Ascii.compare y z) eqn:Eyz; try easy.
  - apply Ascii.compare_eq_iff in Exy, Eyz. subst.
    assert (Ascii.compare z z = Eq) as -> by (unfold Ascii.compare; apply N.compare_refl).
    apply IH.
  - apply Ascii.compare_eq_iff in Exy. subst. rewrite Eyz. reflexivity.
  - apply Ascii.compare_eq_iff in Eyz. subst. rewrite Exy. reflexivity.
  - rewrite (ascii_compare_lt_trans x y z Exy Eyz). reflexivity.
Qed.

Lemma string_ltb_asym a b : String.ltb a b = true -> String.ltb b a = false.
Proof.
  unfold String.ltb. rewrite (String.compare_antisym b a).
  destruct (String.compare a b); easy.
Qed.

Lemma string_ltb_total a b : String.ltb a b = true \/ a = b \/ String.ltb b a = true.
Proof.
  unfold String.ltb. rewrite (String.compare_antisym b a).
  destruct (String.compare a b) eqn:E; simpl; auto.
  right. left. apply String.compare_eq_iff, E.
Qed.

Lemma string_ltb_trans a b c :
  String.ltb a b = true -> String.ltb b c = true -> String.ltb a c = true.
Proof.
  unfold String.ltb. intros H1 H2.
  destruct (String.compare a b) eqn:E1; try discriminate.
  destruct (String.compare b c) eqn:E2; try discriminate.
  rewrite (string_compare_lt_trans a b c E1 E2). reflexivity.
Qed.

Lemma cand_lt_below a b :
  fnonneg a.1 -> fnonneg b.1 -> cand_lt a b = true <-> cand_below a b.
Proof.
  intros Ha Hb. unfold cand_lt, cand_below.
  change (fst a) with a.1. change (fst b) with b.1.
  change (snd a) with a.2. change (snd b) with b.2.
  destruct (PrimFloat.eqb a.1 b.1) eqn:E.
  - apply fnonneg_eqb in E; [|assumption..]. split; [auto|].
    intros [H | [_ H]]; [|exact H]. rewrite E in H.
    apply fnonneg_ltb in H; [|assumption..]. unfold key_lt in H. lia.
  - split; [auto|]. intros [H | [H _]]; [exact H|].
    rewrite H in E. rewrite (proj2 (fnonneg_eqb b.1 b.1 Hb Hb) eq_refl) in E. discriminate.
Qed.

Lemma cand_below_total a b :
  fnonneg a.1 -> fnonneg b.1 -> cand_below a b \/ a = b \/ cand_below b a.
Proof.
  intros Ha Hb. unfold cand_below.
  destruct (fnonneg_total a.1 b.1 Ha Hb) as [H | [H | H]]; auto.
  destruct (string_ltb_total a.2 b.2) as [H' | [H' | H']]; auto.
  right. left. destruct a, b; simpl in *; congruence.
Qed.

Lemma cand_below_asym a b :
  fnonneg a.1 -> fnonneg b.1 -> cand_below a b -> ~ cand_below b a.
Proof.
  intros Ha Hb [H | [E H]] [H' | [E' H']].
  - apply fnonneg_ltb in H, H'; try assumption. unfold key_lt in *. lia.
  - rewrite E' in H. apply fnonneg_ltb in H; try assumption. unfold key_lt in *. lia.
  - rewrite E in H'. apply fnonneg_ltb in H'; try assumption. unfold key_lt in *. lia.
  - rewrite (string_ltb_asym _ _ H) in H'. discriminate.
Qed.

Lemma cand_below_trans a b c :
  fnonneg a.1 -> fnonneg b.1 -> fnonneg c.1 ->
  cand_below a b -> cand_below b c -> cand_below a c.
Proof.
  intros Ha Hb Hc [H | [E H]] [H' | [E' H']].
  - left. apply fnonneg_ltb in H, H'; try assumption. apply fnonneg_ltb; try assumption.
    unfold key_lt in *. lia.
  - left. rewrite <- E'. exact H.
  - left. rewrite E. exact H'.
  - right. split; [congruence | eapply string_ltb_trans; eassumption].
Qed.

Lemma cand_lt_asym a b :
  fnonneg a.1 -> fnonneg b.1 -> cand_lt a b = true -> cand_lt b a = false.
Proof.
  intros Ha Hb H. apply cand_lt_below in H; try assumption.
  destruct (cand_lt b a) eqn:E; [|reflexivity].
  apply cand_lt_below in E; try assumption.
  destruct (cand_below_asym a b Ha Hb H E).
Qed.

Lemma cand_le_trans a b c :
  fnonneg a.1 -> fnonneg b.1 -> fnonneg c.1 ->
  cand_lt b a = false -> cand_lt c b = false -> cand_lt c a = false.
Proof.
  intros Ha Hb Hc H1 H2.
  destruct (cand_lt c a) eqn:E; [|reflexivity].
  apply cand_lt_below in E; try assumption.
  assert (~ cand_below b a) as N1 by (rewrite <- cand_lt_below by assumption; congruence).
  assert (~ cand_below c b) as N2 by (rewrite <- cand_lt_below by assumption; congruence).
  exfalso.
  destruct (cand_below_total a b Ha Hb) as [H | [H | H]]; [|subst; auto|auto].
  destruct (cand_below_total b c Hb Hc) as [H' | [H' | H']]; [|subst; auto|auto].
  apply (cand_below_asym a c Ha Hc); [|exact E].
  eapply cand_below_trans; [| | |exact H|exact H']; assumption.
Qed.

End ScoreOrder.

(** ** Candidates and selection *)

Section Enumerator.




Lemma rounded_quotient_nonneg a b : 0 <= a -> 0 < b -> fnonneg (rounded_quotient a b).
Proof.
  intros Ha Hb. apply SF2Prim_signed.
  destruct b as [|q|q]; try lia. simpl Z2SF.
  apply (SFdiv_finite_signed false _ false).
  destruct a; simpl; try reflexivity. lia.
Qed.

Lemma score_nonneg l st sc :
  machine_word (speed st) -> score l st = Some sc -> fnonneg sc.
Proof.
  intros Hs. unfold score, machine_word in *.
  assert ((if speed st =? 0 then 0 else speed st) = speed st) as ->
    by (destruct (Z.eqb_spec (speed st) 0); lia).
  rewrite (int_truediv_small _ 10) by lia.
  unfold int_to_float. destruct (_ <? _); [|discriminate]. intros [= <-].
  apply fnonneg_add.
  - apply float_of_Z_nonneg. apply ip_score_bounds.
  - apply rounded_quotient_nonneg; lia.
Qed.

(** The candidates are the interfaces that are up and not denied, each with
    its score. *)
Lemma candidates_spec stats addrs cands :
  candidates stats addrs = Some cands ->
  forall sc name,
    (sc, name) ∈ cands
    <-> exists st, (name, st) ∈ stats /\ isup st = true /\ denied name = false
                   /\ score (default [] (addrs !! name)) st = Some sc.
Proof.
  revert cands. induction stats as [|[n st] stats IH]; intros cands H sc name; simpl in H.
  - injection H as <-. split; [intros Hc | intros (s & Hc & _)]; inversion Hc.
  - destruct (negb (isup st) || denied n) eqn:Eskip.
    + rewrite (IH _ H). split.
      * intros (s & Hin & Hrest). exists s. split; [right; exact Hin | exact Hrest].
      * intros (s & Hin & Hup & Hden & Hsc). apply elem_of_cons in Hin as [[= -> ->] | Hin].
        -- rewrite Hup, Hden in Eskip. discriminate.
        -- exists s. auto.
    + apply orb_false_iff in Eskip as [Hup Hden]. apply negb_false_iff in Hup.
      destruct (score (default [] (addrs !! n)) st) as [s0|] eqn:Esc; [|discriminate].
      destruct (candidates stats addrs) as [rest|]; [|discriminate].
      injection H as <-. rewrite elem_of_cons, (IH _ eq_refl). split.
      * intros [[= -> ->] | (s & Hin & Hrest)].
        -- exists st. repeat split; auto. left.
        -- exists s. split; [right; exact Hin | exact Hrest].
      * intros (s & Hin & Hup' & Hden' & Hsc). apply elem_of_cons in Hin as [[= -> ->] | Hin].
        -- left. congruence.
        -- right. exists s. auto.
Qed.

Lemma candidates_nonneg stats addrs cands :
  Forall (fun p => machine_word (speed p.2)) stats ->
  candidates stats addrs = Some cands -> Forall (fun c => fnonneg c.1) cands.
Proof.
  intros Hs H. rewrite Forall_forall. intros [sc name] Hc.
  apply (candidates_spec _ _ _ H) in Hc as (st & Hin & _ & _ & Hsc).
  rewrite Forall_forall in Hs. exact (score_nonneg _ _ _ (Hs _ Hin) Hsc).
Qed.

Lemma first_up_spec stats :
  match first_up stats with
  | Some name => exists l1 st l2, stats = l1 ++ (name, st) :: l2 /\ isup st = true
                                  /\ Forall (fun p => isup p.2 = false) l1
  | None => Forall (fun p => isup p.2 = false) stats
  end.
Proof.
  induction stats as [|[n st] stats IH]; simpl; [constructor|].
  destruct (isup st) eqn:E.
  - exists [], st, stats. repeat split; auto.
  - destruct (first_up stats) as [name|].
    + destruct IH as (l1 & s & l2 & -> & Hup & Hl1).
      exists ((n, st) :: l1), s, l2. repeat split; auto.
    + constructor; assumption.
Qed.

(** With candidates, the one picked is the greatest [(score, name)] pair. *)
Lemma pick_greatest stats addrs cands :
  Forall (fun p => machine_word (speed p.2)) stats ->
  candidates stats addrs = Some cands -> cands <> [] ->
  exists sc name,
    pick_active_adapter_name stats addrs = Some name /\ (sc, name) ∈ cands
    /\ forall c, c ∈ cands -> c = (sc, name) \/ cand_below c (sc, name).
Proof.
  intros Hs Hc Hne. pose proof (candidates_nonneg _ _ _ Hs Hc) as HD.
  destruct (sort_reverse_head cand_lt (fun c => fnonneg c.1)
              cand_lt_asym cand_le_trans cands Hne HD) as ([sc name] & rest & E & Hin & Hmax).
  exists sc, name. unfold pick_active_adapter_name. rewrite Hc, E.
  split; [reflexivity|]. split; [exact Hin|]. intros c Hcin.
  rewrite Forall_forall in HD.
  destruct (cand_below_total c (sc, name) (HD _ Hcin) (HD _ Hin)) as [H | [H | H]]; auto.
  exfalso. apply cand_lt_below in H; [|apply HD; assumption..].
  rewrite (Hmax c Hcin) in H. discriminate.
Qed.

End Enumerator.




(** * The latency prober *)

Section Prober.





Lemma round_half_even_nonneg m e : 0 <= round_half_even m e.
Proof.
  unfold round_half_even. destruct e as [|p|p]; try lia.
  assert (0 < 2 ^ Zpos p) as Hd by (apply Z.pow_pos_nonneg; lia).
  assert (0 <= Zpos m / 2 ^ Zpos p) as Hq by (apply Z.div_pos; lia).
  destruct (_ ?= _); [destruct (Z.even _)| |]; lia.
Qed.


Lemma ping_once_run run win host timeout_ms :
  ping_once run win host timeout_ms
  = match run (ping_cmd win host timeout_ms) with
    | LaunchError => None
    | Completed rc stdout stderr =>
        if rc =? 0 then parse_ping (String.append stdout stderr) else None
    end.
Proof.
  unfold ping_once. destruct (run _) as [|rc o e]; [reflexivity|].
  destruct (rc =? 0); reflexivity.
Qed.

Lemma str_find_ms_after_23 rest :
  str_find "ms" (String.append "23ms" rest) = Some 2%nat.
Proof. destruct rest; vm_compute; reflexivity. Qed.

End Prober.

(** C7, as the code has it. A launch that raises gives [None]; a non-zero
    exit code gives [None]; with exit code 0, an output that has neither
    [time=] nor its Russian form gives [None]; with exit code 0, an output
    whose first [time=] is followed by [23ms] (case and spaces apart) gives
    the integer 23. No exception leaves [ping_once]: each of these cases is
    a value. *)
Theorem ping_once_result :
  (forall run win host timeout_ms,
     run (ping_cmd win host timeout_ms) = LaunchError ->
     ping_once run win host timeout_ms = None)
  /\ (forall run win host timeout_ms rc out err,
        run (ping_cmd win host timeout_ms) = Completed rc out err -> rc <> 0 ->
        ping_once run win host timeout_ms = None)
  /\ (forall run win host timeout_ms out err,
        run (ping_cmd win host timeout_ms) = Completed 0 out err ->
        str_find "time=" (normalised (String.append out err)) = None ->
        str_find "время=" (normalised (String.append out err)) = None ->
        ping_once run win host timeout_ms = None)
  /\ (forall run win host timeout_ms out err i rest,
        run (ping_cmd win host timeout_ms) = Completed 0 out err ->
        str_find "time=" (normalised (String.append out err)) = Some i ->
        str_drop (i + 5) (normalised (String.append out err)) = String.append "23ms" rest ->
        ping_once run win host timeout_ms = Some 23)
  /\ ping_once (fun _ => Completed 0 "Reply from 1.1.1.1: bytes=32 time=23ms TTL=57" "")
       true "1.1.1.1" 800 = Some 23.
Proof.
  split; [|split; [|split; [|split]]].
  - intros run win host timeout_ms H. rewrite ping_once_run, H. reflexivity.
  - intros run win host timeout_ms rc out err H Hrc. rewrite ping_once_run, H.
    destruct (Z.eqb_spec rc 0); [contradiction | reflexivity].
  - intros run win host timeout_ms out err H H1 H2. rewrite ping_once_run, H.
    cbn [Z.eqb]. unfold parse_ping, token_after. fold (normalised (String.append out err)).
    rewrite H1, H2. reflexivity.
  - intros run win host timeout_ms out err i rest H H1 H2. rewrite ping_once_run, H.
    cbn [Z.eqb]. unfold parse_ping, token_after. fold (normalised (String.append out err)).
    rewrite H1. change (String.length "time=") with 5%nat. rewrite H2.
    rewrite str_find_ms_after_23. reflexivity.
  - vm_compute. reflexivity.
Qed.

(** C7 on the reply line of a Windows ping. *)
Lemma ping_once_result_witness :
  ping_once (fun _ => Completed 0 "bytes=32 time=23ms TTL=57" "") true "1.1.1.1" 800
  = Some 23.
Proof.
  apply (proj1 (proj2 (proj2 (proj2 ping_once_result)))
           (fun _ => Completed 0 "bytes=32 time=23ms TTL=57" "") true "1.1.1.1" 800
           "bytes=32 time=23ms TTL=57" "" 8%nat "ttl=57").
  - reflexivity.
  - vm_compute. reflexivity.
  - vm_compute. reflexivity.
Defined.

(** C7 as stated fails: the output contains [time=23ms] and the exit code is
    0, yet the result is 1, the value of the first [time=] token. *)
Lemma ping_once_takes_first_token :
  str_contains "time=23ms" (normalised "time=1ms time=23ms") = true
  /\ ping_once (fun _ => Completed 0 "time=1ms time=23ms" "") false "1.1.1.1" 800 = Some 1.
Proof. split; vm_compute; reflexivity. Qed.

Section ProberSign.


End ProberSign.




(** * More on the adapter enumerator *)

Section EnumeratorMore.

Lemma string_le_trans a b c :
  String.ltb b a = false -> String.ltb c b = false -> String.ltb c a = false.
Proof.
  intros H1 H2. destruct (String.ltb c a) eqn:E; [|reflexivity].
  destruct (string_ltb_total b c) as [H | [H | H]].
  - rewrite (string_ltb_trans _ _ _ H E) in H1. discriminate.
  - subst. congruence.
  - congruence.
Qed.

(** Without candidates, every interface is down or disqualified by its
    name. *)
Lemma candidates_nil stats addrs :
  candidates stats addrs = Some [] ->
  Forall (fun p => isup p.2 = true -> denied p.1 = true) stats.
Proof.
  induction stats as [|[n st] stats IH]; intros H; simpl in H; [constructor|].
  destruct (negb (isup st) || denied n) eqn:Eskip.
  - constructor; [|apply IH, H]. simpl. intros Hup. rewrite Hup in Eskip. exact Eskip.
  - destruct (score (default [] (addrs !! n)) st); [|discriminate].
    destruct (candidates stats addrs); discriminate.
Qed.

Lemma sort_reverse_perm {A} (lt : A -> A -> bool) l : Permutation (sort_reverse lt l) l.
Proof.
  unfold sort_reverse. rewrite <- Permutation_rev, stable_sort_perm, <- Permutation_rev.
  reflexivity.
Qed.

End EnumeratorMore.

(** X1. [list_adapters()] returns the names of the interfaces, each as often
    as it is enumerated, in ascending string order. *)
Theorem list_adapters_sorted (stats : list (string * snicstats)) :
  Permutation (list_adapters stats) (map fst stats)
  /\ StronglySorted (fun a b => String.ltb b a = false) (list_adapters stats).
Proof.
  unfold list_adapters. split; [apply stable_sort_perm|].
  apply (stable_sort_sorted String.ltb (fun _ => True)).
  - intros x y _ _. apply string_ltb_asym.
  - intros x y z _ _ _. apply string_le_trans.
  - apply Forall_forall. intros; exact I.
Qed.

(** X2. The adapter [pick_active_adapter_name()] returns is always an
    interface that is up: one that is not disqualified by its name, or, when
    every up interface is disqualified, one of those; the no-network text is
    returned only when no interface is up. *)
Theorem pick_active_adapter_name_is_up stats addrs name :
  pick_active_adapter_name stats addrs = Some name ->
  (exists st, (name, st) ∈ stats /\ isup st = true /\ denied name = false)
  \/ (exists st, (name, st) ∈ stats /\ isup st = true
        /\ Forall (fun p => isup p.2 = true -> denied p.1 = true) stats)
  \/ (name = no_network /\ Forall (fun p => isup p.2 = false) stats).
Proof.
  unfold pick_active_adapter_name.
  destruct (candidates stats addrs) as [cands|] eqn:Hc; [|discriminate].
  pose proof (sort_reverse_perm cand_lt cands) as Hp.
  destruct (sort_reverse cand_lt cands) as [|[sc n] rest].
  - apply Permutation_nil in Hp. subst cands. intros [= <-].
    pose proof (first_up_spec stats) as Hf. destruct (first_up stats) as [n|]; simpl.
    + destruct Hf as (l1 & st & l2 & -> & Hup & _). right. left. exists st.
      split; [apply elem_of_app; right; left|]. split; [exact Hup|].
      exact (candidates_nil _ _ Hc).
    + right. right. split; [reflexivity | exact Hf].
  - intros [= <-]. left.
    assert ((sc, n) ∈ cands) as Hin by (rewrite <- Hp; left).
    apply (candidates_spec _ _ _ Hc) in Hin as (st & Hin & Hup & Hden & _).
    exists st. auto.
Qed.

Lemma pick_active_adapter_name_is_up_witness :
  (exists st, ("eth0", st) ∈ [("lo", up_at 0); ("eth0", up_at 1000)]
              /\ isup st = true /\ denied "eth0" = false)
  \/ (exists st, ("eth0", st) ∈ [("lo", up_at 0); ("eth0", up_at 1000)] /\ isup st = true
        /\ Forall (fun p => isup p.2 = true -> denied p.1 = true)
             [("lo", up_at 0); ("eth0", up_at 1000)])
  \/ ("eth0" = no_network
      /\ Forall (fun p => isup p.2 = false) [("lo", up_at 0); ("eth0", up_at 1000)]).
Proof.
  apply (pick_active_adapter_name_is_up [("lo", up_at 0); ("eth0", up_at 1000)] ∅ "eth0").
  vm_compute. reflexivity.
Defined.

(** X3. When an interface is up and not disqualified, the adapter returned
    does not depend on the order in which the interfaces are enumerated. *)
Theorem pick_active_adapter_name_any_order stats stats' addrs :
  Forall (fun p => machine_word (speed p.2)) stats ->
  (forall name l, addrs !! name = Some l -> Z.of_nat (length l) < 2 ^ 64) ->
  Permutation stats stats' ->
  (exists name st, (name, st) ∈ stats /\ isup st = true /\ denied name = false) ->
  pick_active_adapter_name stats' addrs = pick_active_adapter_name stats addrs.
Proof.
  intros Hs Ha Hp (n0 & st0 & Hin0 & Hup0 & Hden0).
  assert (Forall (fun p => machine_word (speed p.2)) stats') as Hs'.
  { rewrite <- Hp. exact Hs. }
  destruct (candidates_completes _ _ Hs Ha) as [cands Hc].
  destruct (candidates_completes _ _ Hs' Ha) as [cands' Hc'].
  assert (forall c, c ∈ cands <-> c ∈ cands') as Hsame.
  { intros [sc n]. rewrite (candidates_spec _ _ _ Hc), (candidates_spec _ _ _ Hc').
    split; intros (st & Hin & Hrest); exists st; (split; [|exact Hrest]).
    - rewrite <- Hp. exact Hin.
    - rewrite Hp. exact Hin. }
  assert (exists sc0, (sc0, n0) ∈ cands) as [sc0 Hc0].
  { pose proof Hs as Hs0. rewrite Forall_forall in Hs0. specialize (Hs0 _ Hin0).
    assert (Z.of_nat (length (default [] (addrs !! n0))) < 2 ^ 64) as Hl.
    { destruct (addrs !! n0) as [l|] eqn:E; simpl; [exact (Ha _ _ E)|]. lia. }
    destruct (score_completes _ _ Hs0 Hl) as [sc0 Hsc]. exists sc0.
    apply (candidates_spec _ _ _ Hc). exists st0. auto. }
  assert (cands <> []) as Hne by (intros ->; inversion Hc0).
  assert (cands' <> []) as Hne'.
  { intros E. apply Hsame in Hc0. rewrite E in Hc0. inversion Hc0. }
  destruct (pick_greatest _ _ _ Hs Hc Hne) as (sc & n & -> & Hin & Hmax).
  destruct (pick_greatest _ _ _ Hs' Hc' Hne') as (sc' & n' & -> & Hin' & Hmax').
  pose proof (candidates_nonneg _ _ _ Hs Hc) as HD. rewrite Forall_forall in HD.
  destruct (Hmax _ (proj2 (Hsame _) Hin')) as [E | Hlt]; [congruence|].
  destruct (Hmax' _ (proj1 (Hsame _) Hin)) as [E | Hgt]; [congruence|].
  exfalso. apply (cand_below_asym (sc', n') (sc, n)); auto.
  apply (HD (sc', n')), Hsame, Hin'.
Qed.

Lemma pick_active_adapter_name_any_order_witness :
  pick_active_adapter_name [("wlan0", up_at 300); ("eth0", up_at 1000)] ∅
  = pick_active_adapter_name [("eth0", up_at 1000); ("wlan0", up_at 300)] ∅.
Proof.
  apply pick_active_adapter_name_any_order.
  - repeat (apply Forall_cons; split; [vm_compute; split; [discriminate | reflexivity]|]).
    apply Forall_nil; exact I.
  - intros name l H. rewrite lookup_empty in H. discriminate.
  - apply perm_swap.
  - exists "eth0", (up_at 1000). split; [left|]. split; reflexivity.
Defined.

(** * More on the rate sampler *)

Section DomInsert.

Context {A B : Type}.
Implicit Types (m : gmap string A) (n : gmap string B) (X : gset string).

Lemma dom_insert_known m k v X : dom m = X -> k ∈ X -> dom (<[k:=v]> m) = X.
Proof.
  rewrite dom_insert_L. intros <- Hk. apply subseteq_union_1_L, singleton_subseteq_l, Hk.
Qed.

Lemma dom_insert_both m n k v v' : dom m = dom n -> dom (<[k:=v]> m) = dom (<[k:=v']> n).
Proof. rewrite !dom_insert_L. intros ->. reflexivity. Qed.

Lemma dom_insert_sub m n k v v' : dom m ⊆ dom n -> dom (<[k:=v]> m) ⊆ dom (<[k:=v']> n).
Proof. rewrite !dom_insert_L. intros H. apply union_mono_l, H. Qed.

Lemma dom_insert_sub_r m n k v' : dom m ⊆ dom n -> dom m ⊆ dom (<[k:=v']> n).
Proof. rewrite dom_insert_L. intros H. apply union_subseteq_r', H. Qed.

Lemma dom_insert_sub_known m k v X : dom m ⊆ X -> k ∈ X -> dom (<[k:=v]> m) ⊆ X.
Proof.
  rewrite dom_insert_L. intros H Hk. apply union_least; [apply singleton_subseteq_l, Hk | exact H].
Qed.

End DomInsert.

(** Settles [sampled_together] of a window built by assignments. *)
Ltac together_solve :=
  unfold sampled_together, modify; cbn [snd]; window_simpl;
  refine (conj _ (conj _ (conj _ (conj _ _))));
  first [ assumption
        | apply dom_insert_both; assumption
        | apply dom_insert_known; assumption
        | apply dom_insert_sub; assumption
        | apply dom_insert_sub_r; assumption
        | apply dom_insert_sub_known; assumption ].

Section SamplerMore.

Lemma bind_lift_run {A B} (o : option A) (k : A -> M B) w :
  (lift o ≫= k) w = match o with Some a => k a w | None => (None, w) end.
Proof. rewrite bind_run. unfold lift. destruct o; reflexivity. Qed.

Lemma bind_modify_run {B} (f : Window -> Window) (k : unit -> M B) w :
  (modify f ≫= k) w = k tt (f w).
Proof. apply bind_run. Qed.

Lemma bind_get_run {B} (k : Window -> M B) w : (get ≫= k) w = k w w.
Proof. apply bind_run. Qed.

Lemma sample_nic_entries tmono nic nic' c v :
  nic' <> nic -> preserves (fun w => nic_entries w nic = v) (sample_nic tmono (nic', c)).
Proof.
  intros Hne. destruct c as [sent recv]. unfold sample_nic.
  preserves_step; [preserves_step|].
  destruct (nic_last a !! nic') as [[[ps pr] pt]|];
    repeat preserves_step;
    match goal with H : nic_entries _ _ = _ |- _ => rewrite <- H end;
    unfold nic_entries, nic_view; cbn; rewrite ?lookup_insert_ne by exact Hne; reflexivity.
Qed.

Lemma tick_stats_entries env nic v :
  nic ∉ (pernic env).*1 -> preserves (fun w => nic_entries w nic = v) (tick_stats env).
Proof.
  intros Hnotin. unfold tick_stats.
  preserves_step; [preserves_step|].
  preserves_step; [preserves_step; destruct (String.eqb _ _); assumption|].
  preserves_step.
  { apply preserves_for_each. intros [n c] Hx. apply sample_nic_entries.
    intros ->. apply Hnotin. apply list_elem_of_fmap. exists (nic, c). auto. }
  repeat preserves_step; assumption.
Qed.

Lemma sample_nic_together tmono item :
  preserves sampled_together (sample_nic tmono item).
Proof.
  destruct item as [nic [sent recv]]. intros w (Hu & Hd & Ht & Hs & Hr).
  unfold sample_nic. rewrite bind_get_run.
  destruct (nic_last w !! nic) as [[[ps pr] pt]|] eqn:E.
  - assert (nic ∈ dom (nic_last w)) as Hin by (apply elem_of_dom; eauto).
    rewrite bind_lift_run. destruct (int_to_float _) as [f_sent|]; [|repeat split; assumption].
    rewrite bind_lift_run. destruct (int_to_float _) as [f_recv|]; [|repeat split; assumption].
    rewrite !bind_modify_run, bind_lift_run.
    destruct (int_truediv sent MiB) as [s_mb|]; [|together_solve].
    rewrite !bind_modify_run, bind_lift_run.
    destruct (int_truediv recv MiB) as [r_mb|]; [|together_solve].
    rewrite !bind_modify_run. together_solve.
  - assert (nic ∉ dom (nic_last w)) as Hin by (apply not_elem_of_dom; exact E).
    rewrite !bind_modify_run, bind_lift_run.
    destruct (int_truediv sent MiB) as [s_mb|]; [|together_solve].
    rewrite !bind_modify_run, bind_lift_run.
    destruct (int_truediv recv MiB) as [r_mb|]; [|together_solve].
    together_solve.
Qed.

Lemma tick_stats_together env : preserves sampled_together (tick_stats env).
Proof.
  unfold tick_stats.
  preserves_step; [preserves_step|].
  preserves_step; [preserves_step; destruct (String.eqb _ _); assumption|].
  preserves_step.
  { apply preserves_for_each. intros item _. apply sample_nic_together. }
  repeat preserves_step; assumption.
Qed.

End SamplerMore.

(** X4. An adapter that is missing from the counters of a tick keeps its
    baseline, its three rates and its byte counts as they were, whether the
    tick ends with an exception or not: nothing is evicted or reset. *)
Theorem tick_stats_keeps_absent env w nic :
  nic ∉ (pernic env).*1 ->
  nic_entries (snd (tick_stats env w)) nic = nic_entries w nic.
Proof.
  intros H. exact (tick_stats_entries env nic _ H w eq_refl).
Qed.

Lemma tick_stats_keeps_absent_witness :
  nic_entries (snd (tick_stats (eth0_env 2000000 7000000 101)
                      (eth0_window 1000000 5000000 100))) "wlan0"
  = nic_entries (eth0_window 1000000 5000000 100) "wlan0".
Proof.
  apply tick_stats_keeps_absent. cbn. intros H.
  apply list_elem_of_singleton in H. discriminate.
Defined.

(** X5. In every state the program reaches, the three rate tables have
    exactly the adapters of the baseline table, and the two byte-count
    tables hold no adapter without a baseline. *)
Theorem rate_tables_cover_baselines s : reachable s -> sampled_together (window s).
Proof.
  apply reachable_invariant.
  - intros. unfold sampled_together. cbn. rewrite !dom_empty_L.
    refine (conj _ (conj _ (conj _ (conj _ _)))); reflexivity.
  - apply tick_stats_together.
  - intros w H. exact H.
  - intros [n|] w H; exact H.
Qed.

Lemma rate_tables_cover_baselines_witness :
  sampled_together (snd (tick_stats (eth0_env 500 300 100) (new_window "eth0" 0 0 0))).
Proof.
  apply (rate_tables_cover_baselines
           {| window := snd (tick_stats (eth0_env 500 300 100) (new_window "eth0" 0 0 0));
              in_flight := 0 |}).
  eapply reachable_step; [|apply step_tick].
  apply (reachable_init [("eth0", up_at 1000)] ∅ (0, 0) 0%float).
  vm_compute. reflexivity.
Defined.

(** * The program in service *)

Section Magnitude.

Lemma digits2_pos_bound m : Zpos m < 2 ^ Zpos (digits2_pos m).
Proof.
  induction m as [p IH | p IH |]; cbn [digits2_pos]; [| |reflexivity];
    rewrite Pos2Z.inj_succ, Z.pow_succ_r by lia; lia.
Qed.

(** A finite float has a mantissa below [2^53] and an exponent of at most
    971. *)
Lemma Prim2SF_bounds x s m e :
  Prim2SF x = S754_finite s m e -> Zpos m < 2 ^ 53 /\ e <= 971.
Proof.
  intros E. pose proof (Prim2SF_valid x) as Hv. rewrite E in Hv.
  unfold valid_binary, bounded, canonical_mantissa, fexp in Hv.
  apply andb_true_iff in Hv as [Hc He].
  apply Z.eqb_eq in Hc. apply Z.leb_le in He.
  change (emax - prec) with 971 in He. split; [|exact He].
  assert (Zpos (digits2_pos m) <= 53) as Hd by (unfold prec in Hc; lia).
  pose proof (digits2_pos_bound m) as Hm.
  assert (2 ^ Zpos (digits2_pos m) <= 2 ^ 53) by (apply Z.pow_le_mono_r; lia).
  lia.
Qed.

Lemma round_half_even_bound m e :
  Zpos m < 2 ^ 53 -> e <= 971 -> round_half_even m e <= max_float.
Proof.
  intros Hm He.
  assert (2 ^ 53 <= max_float) as Hsmall by (vm_compute; discriminate).
  assert (forall k, 0 <= k <= 971 -> Zpos m * 2 ^ k <= max_float) as Hbig.
  { intros k Hk. assert (0 < 2 ^ k) by (apply Z.pow_pos_nonneg; lia).
    assert (2 ^ k <= 2 ^ 971) by (apply Z.pow_le_mono_r; lia).
    change max_float with ((2 ^ 53 - 1) * 2 ^ 971).
    apply Z.mul_le_mono_nonneg; lia. }
  destruct e as [|p|p]; cbn [round_half_even].
  - apply (Hbig 0). lia.
  - apply Hbig. lia.
  - assert (0 < 2 ^ Zpos p) as Hd by (apply Z.pow_pos_nonneg; lia).
    assert (Zpos m / 2 ^ Zpos p <= Zpos m) as Hq.
    { apply Z.div_le_upper_bound; [exact Hd|]. nia. }
    destruct (2 * (Zpos m mod 2 ^ Zpos p) ?= 2 ^ Zpos p);
      [destruct (Z.even _)| |]; lia.
Qed.

(** [round(x)] of a float is at most the largest finite float in
    magnitude. *)
Lemma py_round_bound x n : py_round x = Some n -> Z.abs n <= max_float.
Proof.
  unfold py_round, sf_round. destruct (Prim2SF x) as [s|s| |s m e] eqn:E; try discriminate.
  - intros [= <-]. vm_compute. discriminate.
  - intros [= <-]. destruct (Prim2SF_bounds _ _ _ _ E) as [Hm He].
    pose proof (round_half_even_bound m e Hm He).
    pose proof (round_half_even_nonneg m e). destruct s; lia.
Qed.

Lemma max_float_lt_overflow : max_float < float_overflow.
Proof. reflexivity. Qed.

Lemma parse_ping_bound out n : parse_ping out = Some n -> Z.abs n <= max_float.
Proof.
  assert (forall val, parse_ms val = Some n -> Z.abs n <= max_float) as H.
  { intros val. unfold parse_ms. destruct (py_float_of_str val); [apply py_round_bound | discriminate]. }
  unfold parse_ping.
  destruct (token_after "time=" "ms" _); [apply H|].
  destruct (token_after "время=" "мс" _); [apply H | discriminate].
Qed.

Lemma ping_once_bound run win host timeout_ms n :
  ping_once run win host timeout_ms = Some n -> Z.abs n <= max_float.
Proof.
  rewrite ping_once_run. destruct (run _) as [|rc out err]; [discriminate|].
  destruct (rc =? 0); [apply parse_ping_bound | discriminate].
Qed.

End Magnitude.

Section Service.

Lemma tick_stats_keeps_ok env :
  Forall (fun p => machine_word p.2.1 /\ machine_word p.2.2) (pernic env) ->
  preserves window_ok (tick_stats env).
Proof.
  intros Hper. unfold tick_stats.
  preserves_step; [preserves_step|].
  preserves_step; [preserves_step; destruct (String.eqb _ _); assumption|].
  preserves_step.
  { apply preserves_for_each. intros [nic [sent recv]] Hx.
    rewrite Forall_forall in Hper. destruct (Hper _ Hx) as [Hs Hr].
    unfold machine_word in Hs, Hr. simpl in Hs, Hr.
    assert (forall w, window_ok w ->
      window_ok (set_nic_last (<[nic := (sent, recv, tmono env)]> (nic_last w)) w)) as Hins.
    { intros w [Hb Hp]. split; [|exact Hp]. intros n ps pr pt. cbn.
      rewrite lookup_insert. case_decide; [|apply Hb]. intros [= <- <- <-]. lia. }
    unfold sample_nic. preserves_step; [preserves_step|].
    destruct (nic_last _ !! nic) as [[[ps pr] pt]|]; repeat preserves_step;
      first [apply Hins; assumption | assumption]. }
  repeat preserves_step; assumption.
Qed.

Lemma in_service_ok s : in_service s -> window_ok (window s).
Proof.
  induction 1 as [stats addrs io now w Hw | env w n _ IH Henv | w n _ IH | run win host w n _ IH];
    simpl in *.
  - apply init_window_new in Hw as (a & sm & rm & ->). apply new_window_ok.
  - apply tick_stats_keeps_ok; [apply Henv | exact IH].
  - exact IH.
  - destruct IH as [Hb Hp]. unfold PingTask_run.
    destruct (ping_once run win host 800) as [ms|] eqn:E; (split; [exact Hb|]); cbn.
    + intros ? [= <-]. pose proof (ping_once_bound _ _ _ _ _ E). pose proof max_float_lt_overflow.
      lia.
    + discriminate.
Qed.

Lemma in_service_reachable s : in_service s -> reachable s.
Proof.
  induction 1 as [stats addrs io now w Hw | env w n _ IH Henv | w n _ IH | run win host w n _ IH].
  - eapply reachable_init, Hw.
  - eapply reachable_step; [exact IH | apply step_tick].
  - eapply reachable_step; [exact IH | apply step_request].
  - eapply reachable_step; [exact IH | apply step_done].
Qed.

Lemma reachable_buffers_full s : reachable s -> buffers_full (window s).
Proof.
  apply reachable_invariant.
  - apply buffers_full_new.
  - apply buffers_full_tick.
  - intros w H. exact H.
  - intros [n|] w H; exact H.
Qed.

End Service.

(** X6. The latency a probe returns is at most the largest finite float in
    magnitude, so converting it back with [float(ms)], as the tick does for
    the latency history, never raises [OverflowError]. *)
Theorem ping_once_converts run win host timeout_ms n :
  ping_once run win host timeout_ms = Some n ->
  Z.abs n <= max_float /\ int_to_float n = Some (float_of_Z n).
Proof.
  intros H. pose proof (ping_once_bound _ _ _ _ _ H) as Hb. split; [exact Hb|].
  apply int_to_float_ok. pose proof max_float_lt_overflow. lia.
Qed.

Lemma ping_once_converts_witness :
  Z.abs 23 <= max_float /\ int_to_float 23 = Some (float_of_Z 23).
Proof.
  apply (ping_once_converts
           (fun _ => Completed 0 "Reply from 1.1.1.1: bytes=32 time=23ms TTL=57" "")
           true "1.1.1.1" 800 23).
  vm_compute. reflexivity.
Defined.



(** X8. The result a probe delivers is the latency sample the next completed
    tick appends to the history: the milliseconds as a float, and NaN for a
    probe without result. *)
Theorem delivered_latency_is_next_sample s ms env w' :
  reachable s ->
  tick_stats env (on_ping_done ms (window s)) = (Some tt, w') ->
  last (dq_items (ping_hist w'))
  = Some (match ms with Some n => float_of_Z n | None => nan end).
Proof.
  intros Hs Ht.
  pose proof (reachable_buffers_full _ Hs) as (_ & _ & _ & _ & _ & Hfull).
  apply tick_stats_appends in Ht as (_ & _ & _ & _ & _ & ->).
  assert (ping_hist (on_ping_done ms (window s)) = ping_hist (window s)) as ->
    by (destruct ms; reflexivity).
  rewrite (full_append_items buf_len) by (exact Hfull || (unfold buf_len; lia)).
  rewrite last_snoc. destruct ms; reflexivity.
Qed.

Lemma delivered_latency_is_next_sample_witness :
  last (dq_items (ping_hist
          (snd (tick_stats (eth0_env 2000000 7000000 101)
                  (on_ping_done (Some 23) (new_window "eth0" 0 0 0))))))
  = Some (float_of_Z 23).
Proof.
  apply (delivered_latency_is_next_sample
           {| window := new_window "eth0" 0 0 0; in_flight := 0 |} (Some 23)
           (eth0_env 2000000 7000000 101)).
  - apply (reachable_init [("eth0", up_at 1000)] ∅ (0, 0) 0%float).
    vm_compute. reflexivity.
  - vm_compute. reflexivity.
Defined.

(** * More on the quality classifier *)

Section Order.

Lemma SFcompare_rank x y :
  match SFcompare x y with
  | Some Lt => key_lt (sf_rank x) (sf_rank y)
  | Some Eq => sf_rank x = sf_rank y
  | Some Gt => key_lt (sf_rank y) (sf_rank x)
  | None => True
  end.
Proof.
  unfold key_lt.
  destruct x as [s|s| |s mx ex], y as [t|t| |t my ey]; simpl; try exact I;
    try destruct s; try destruct t; simpl; try lia; try reflexivity;
    destruct (Z.compare_spec ex ey) as [-> | H | H]; simpl; try lia;
    change (Pos.compare_cont Eq mx my) with (Pos.compare mx my);
    destruct (Pos.compare_spec mx my) as [-> | H | H]; simpl; solve [reflexivity | lia].
Qed.

Lemma SFleb_rank x y :
  SFleb x y = true ->
  x <> S754_nan /\ y <> S754_nan
  /\ (key_lt (sf_rank x) (sf_rank y) \/ sf_rank x = sf_rank y).
Proof.
  unfold SFleb. pose proof (SFcompare_rank x y) as H. intros E.
  assert (x <> S754_nan /\ y <> S754_nan) as [Hx Hy].
  { destruct x, y; simpl in E; try discriminate; split; discriminate. }
  split; [exact Hx|]. split; [exact Hy|].
  destruct (SFcompare x y) as [[]|]; try discriminate; auto.
Qed.

Lemma rank_SFleb x y :
  x <> S754_nan -> y <> S754_nan ->
  key_lt (sf_rank x) (sf_rank y) \/ sf_rank x = sf_rank y -> SFleb x y = true.
Proof.
  intros Hx Hy H. unfold SFleb. pose proof (SFcompare_rank x y) as Hr.
  pose proof (SFcompare_not_nan x y Hx Hy) as Hn.
  destruct (SFcompare x y) as [[]|]; try reflexivity; [|contradiction].
  exfalso. unfold key_lt in *.
  destruct (sf_rank x) as [[a b] c], (sf_rank y) as [[a' b'] c']; simpl in *.
  destruct H as [H | [= -> -> ->]]; lia.
Qed.

(** [<=] on floats is transitive. *)
Lemma leb_trans a b c :
  PrimFloat.leb a b = true -> PrimFloat.leb b c = true -> PrimFloat.leb a c = true.
Proof.
  rewrite !FloatAxioms.leb_spec. intros H1 H2.
  apply SFleb_rank in H1 as (Ha & Hb & H1). apply SFleb_rank in H2 as (_ & Hc & H2).
  apply rank_SFleb; [exact Ha | exact Hc |]. unfold key_lt in *.
  destruct (sf_rank (Prim2SF a)) as [[a1 a2] a3], (sf_rank (Prim2SF b)) as [[b1 b2] b3],
    (sf_rank (Prim2SF c)) as [[c1 c2] c3]; simpl in *.
  destruct H1 as [H1 | [= -> -> ->]], H2 as [H2 | [= -> -> ->]]; auto. left. lia.
Qed.

Lemma leb_not_nan a b :
  PrimFloat.leb a b = true -> is_nan a = false /\ is_nan b = false.
Proof.
  rewrite FloatAxioms.leb_spec, !is_nan_spec. intros H.
  apply SFleb_rank in H as (Ha & Hb & _). auto.
Qed.

End Order.

(** X9. The classifier is monotone in the value, whatever the thresholds:
    of two numbers, the greater never gets a worse colour when higher is
    better (rates), and never a better colour when lower is better
    (latencies). *)
Theorem quality_color_monotone value value' v v' good ok :
  to_float value = Some v -> to_float value' = Some v' ->
  is_infinity v = false -> is_infinity v' = false ->
  PrimFloat.leb v v' = true ->
  tier (quality_color value good ok false) <= tier (quality_color value' good ok false)
  /\ tier (quality_color value' good ok true) <= tier (quality_color value good ok true).
Proof.
  intros Hv Hv' Hi Hi' Hle. destruct (leb_not_nan _ _ Hle) as [Hn Hn'].
  rewrite !(quality_color_number value v) by assumption.
  rewrite !(quality_color_number value' v') by assumption.
  split.
  - destruct (PrimFloat.leb good v) eqn:E1.
    + rewrite (leb_trans _ _ _ E1 Hle). reflexivity.
    + destruct (PrimFloat.leb ok v) eqn:E2.
      * rewrite (leb_trans _ _ _ E2 Hle). destruct (PrimFloat.leb good v'); vm_compute; discriminate.
      * destruct (PrimFloat.leb good v'), (PrimFloat.leb ok v'); vm_compute; discriminate.
  - destruct (PrimFloat.leb v' good) eqn:E1.
    + rewrite (leb_trans _ _ _ Hle E1). reflexivity.
    + destruct (PrimFloat.leb v' ok) eqn:E2.
      * rewrite (leb_trans _ _ _ Hle E2). destruct (PrimFloat.leb v good); vm_compute; discriminate.
      * destruct (PrimFloat.leb v good), (PrimFloat.leb v ok); vm_compute; discriminate.
Qed.

Lemma quality_color_monotone_witness :
  tier (quality_color (PyFloat 3) 5 0.5 false) <= tier (quality_color (PyFloat 6) 5 0.5 false)
  /\ tier (quality_color (PyFloat 6) 5 0.5 true) <= tier (quality_color (PyFloat 3) 5 0.5 true).
Proof.
  apply (quality_color_monotone (PyFloat 3) (PyFloat 6) 3 6 5 0.5); reflexivity.
Defined.

Section Truncation.

Lemma zip_fst_take {A B} (xs : list A) (ys : list B) :
  (zip xs ys).*1 = take (min (length xs) (length ys)) xs.
Proof.
  revert ys. induction xs as [|x xs IH]; intros [|y ys]; simpl; try reflexivity.
  f_equal. apply IH.
Qed.

Lemma zip_snd_take {A B} (xs : list A) (ys : list B) :
  (zip xs ys).*2 = take (min (length xs) (length ys)) ys.
Proof.
  revert ys. induction xs as [|x xs IH]; intros [|y ys]; simpl; try reflexivity.
  f_equal. apply IH.
Qed.

End Truncation.

(** X10. [split_series_by_quality] never raises on lists of different
    lengths: the loop stops at the end of the shorter one. Each of the three
    series has the first [n] x-coordinates, [n] the shorter length, and at
    each index the y-value in the series of its colour and NaN in the two
    others; on an empty list the three series are empty. *)
Theorem split_series_by_quality_truncates (xs ys : list float) (good ok : float)
    (invert : bool) :
  split_series_by_quality xs ys good ok invert
  = let n := min (length xs) (length ys) in
    ((take n xs, in_series GREEN good ok invert <$> take n ys),
     (take n xs, in_series YELLOW good ok invert <$> take n ys),
     (take n xs, in_series RED good ok invert <$> take n ys)).
Proof.
  unfold split_series_by_quality. rewrite split_fold, zip_fst_take, zip_snd_take.
  reflexivity.
Qed.

(** * What the views read *)

Section Shown.

Lemma resolve_adapter_active stats value w w0 :
  active_adapter w = active_adapter w0 ->
  resolve_adapter stats value w = resolve_adapter stats value w0.
Proof. unfold resolve_adapter. intros ->. reflexivity. Qed.

Lemma for_each_sample_active tmono l a :
  preserves (fun w => active_adapter w = a) (for_each (sample_nic tmono) l).
Proof.
  apply preserves_for_each. intros [nic [sent recv]] _. unfold sample_nic.
  preserves_step; [preserves_step|].
  destruct (nic_last _ !! nic) as [[[ps pr] pt]|]; repeat preserves_step; assumption.
Qed.

(** What a tick that ends without an exception leaves in the fields the two
    views read. *)
Lemma tick_stats_shows env w w' :
  tick_stats env w = (Some tt, w') ->
  let simple_nic := resolve_adapter (if_stats_simple env) (simple_adapter env) w' in
  let graph_nic := resolve_adapter (if_stats_graph env) (graph_adapter env) w' in
  pick_active_adapter_name (if_stats env) (if_addrs env) = Some (active_adapter w')
  /\ last_mbps_simple_total w' = default 0%float (nic_speed_total_mbps w' !! simple_nic)
  /\ last_mbps_simple_down w' = default 0%float (nic_speed_down_mbps w' !! simple_nic)
  /\ last_mbps_simple_up w' = default 0%float (nic_speed_up_mbps w' !! simple_nic)
  /\ last_mbps_graph_total w' = default 0%float (nic_speed_total_mbps w' !! graph_nic).
Proof.
  unfold tick_stats. rewrite bind_lift_run.
  destruct (pick_active_adapter_name _ _) as [name|]; [|discriminate].
  rewrite bind_modify_run.
  set (w1 := if String.eqb name (active_adapter w) then w else set_active_adapter name w).
  assert (active_adapter w1 = name) as H1.
  { subst w1. destruct (String.eqb name (active_adapter w)) eqn:E; [|reflexivity].
    apply String.eqb_eq in E. auto. }
  rewrite bind_run.
  pose proof (for_each_sample_active (tmono env) (pernic env) _ w1 H1) as H2.
  destruct (for_each _ _ w1) as [[[]|] w2]; [|discriminate]. simpl in H2.
  rewrite bind_lift_run. destruct (int_truediv _ MiB) as [s_mb|]; [|discriminate].
  rewrite bind_modify_run, bind_lift_run.
  destruct (int_truediv _ MiB) as [r_mb|]; [|discriminate].
  rewrite !bind_modify_run, bind_get_run, bind_lift_run.
  window_simpl.
  destruct (match last_ping_ms w2 with Some ms => int_to_float ms | None => Some nan end)
    as [p|]; [|discriminate].
  unfold modify. intros E. apply (f_equal snd) in E. cbn [snd] in E. subst w'.
  unfold resolve_adapter. window_simpl. rewrite H2. repeat split.
Qed.

End Shown.

(** X11. After a tick that ends without an exception, the window follows the
    adapter picked in that very tick, and what the two views read are the
    rates stored for the adapters their settings resolve to, with [0.0] for
    an adapter without an entry; the newest sample of the rate history is
    the total rate of the graph's adapter. *)
Theorem tick_stats_shows_current_rates s env w' :
  reachable s -> tick_stats env (window s) = (Some tt, w') ->
  let simple_nic := resolve_adapter (if_stats_simple env) (simple_adapter env) w' in
  let graph_nic := resolve_adapter (if_stats_graph env) (graph_adapter env) w' in
  pick_active_adapter_name (if_stats env) (if_addrs env) = Some (active_adapter w')
  /\ last_mbps_simple_total w' = default 0%float (nic_speed_total_mbps w' !! simple_nic)
  /\ last_mbps_simple_down w' = default 0%float (nic_speed_down_mbps w' !! simple_nic)
  /\ last_mbps_simple_up w' = default 0%float (nic_speed_up_mbps w' !! simple_nic)
  /\ last (dq_items (mbps_hist w'))
     = Some (default 0%float (nic_speed_total_mbps w' !! graph_nic)).
Proof.
  intros Hs Ht. pose proof (tick_stats_shows _ _ _ Ht) as (Hp & H1 & H2 & H3 & H4).
  cbv zeta. repeat (split; [assumption|]).
  pose proof (reachable_buffers_full _ Hs) as (_ & _ & _ & _ & Hfull & _).
  apply tick_stats_appends in Ht as (_ & _ & _ & _ & -> & _).
  rewrite (full_append_items buf_len) by (exact Hfull || (unfold buf_len; lia)).
  rewrite last_snoc, H4. reflexivity.
Qed.

Lemma tick_stats_shows_current_rates_witness :
  let w' := snd (tick_stats (eth0_env 2000000 7000000 101)
                   (snd (tick_stats (eth0_env 1000000 5000000 100)
                           (new_window "eth0" 0 0 0)))) in
  let simple_nic := resolve_adapter [("eth0", up_at 1000)] "active" w' in
  let graph_nic := resolve_adapter [("eth0", up_at 1000)] "active" w' in
  pick_active_adapter_name [("eth0", up_at 1000)]
    {[ "eth0" := [{| family := 2; family_str := "AddressFamily.AF_INET";
                     address := "192.168.1.10" |}] ]} = Some (active_adapter w')
  /\ last_mbps_simple_total w' = default 0%float (nic_speed_total_mbps w' !! simple_nic)
  /\ last_mbps_simple_down w' = default 0%float (nic_speed_down_mbps w' !! simple_nic)
  /\ last_mbps_simple_up w' = default 0%float (nic_speed_up_mbps w' !! simple_nic)
  /\ last (dq_items (mbps_hist w'))
     = Some (default 0%float (nic_speed_total_mbps w' !! graph_nic)).
Proof.
  apply (tick_stats_shows_current_rates
           {| window := snd (tick_stats (eth0_env 1000000 5000000 100)
                               (new_window "eth0" 0 0 0));
              in_flight := 0 |}
           (eth0_env 2000000 7000000 101)).
  - eapply reachable_step; [|apply step_tick].
    apply (reachable_init [("eth0", up_at 1000)] ∅ (0, 0) 0%float).
    vm_compute. reflexivity.
  - vm_compute. reflexivity.
Defined.

(** * The settings file *)

Section Truncation.

Lemma digits2_pos_lower m : 2 ^ (Zpos (digits2_pos m) - 1) <= Zpos m.
Proof.
  induction m as [p IH | p IH |]; cbn [digits2_pos]; [| |reflexivity];
    rewrite Pos2Z.inj_succ; replace (Z.succ (Zpos (digits2_pos p)) - 1)
      with (Z.succ (Zpos (digits2_pos p) - 1)) by lia;
    rewrite Z.pow_succ_r by lia; lia.
Qed.

(** The mantissa of a valid float has at most 53 digits, and exactly 53
    above the least exponent. *)
Lemma valid_finite s m e :
  valid_binary (S754_finite s m e) = true ->
  -1074 <= e <= 971
  /\ Zpos m < 2 ^ 53
  /\ (-1074 < e -> 2 ^ 52 <= Zpos m).
Proof.
  unfold valid_binary, bounded, canonical_mantissa, fexp, emin.
  intros Hv. apply andb_true_iff in Hv as [Hc He].
  apply Z.eqb_eq in Hc. apply Z.leb_le in He.
  change (emax - prec) with 971 in He. change (3 - emax - prec) with (-1074) in Hc.
  unfold prec in Hc.
  pose proof (digits2_pos_bound m) as Hu. pose proof (digits2_pos_lower m) as Hl.
  assert (Zpos (digits2_pos m) <= 53) as Hd by lia.
  assert (2 ^ Zpos (digits2_pos m) <= 2 ^ 53) by (apply Z.pow_le_mono_r; lia).
  split; [lia|]. split; [lia|]. intros Hgt.
  assert (Zpos (digits2_pos m) = 53) as E by lia. rewrite E in Hl. exact Hl.
Qed.

Lemma scaled_lt m e m' e' :
  valid_binary (S754_finite false m e) = true ->
  valid_binary (S754_finite false m' e') = true ->
  e < e' -> scaled m e < scaled m' e'.
Proof.
  intros Hv Hv' Hlt. apply valid_finite in Hv as (He & Hm & _).
  apply valid_finite in Hv' as (He' & _ & Hm'). specialize (Hm' ltac:(lia)).
  unfold scaled.
  assert (0 < 2 ^ (e + 1074)) as Hp by (apply Z.pow_pos_nonneg; lia).
  assert (2 ^ (e + 1075) <= 2 ^ (e' + 1074)) as Hq by (apply Z.pow_le_mono_r; lia).
  replace (e + 1075) with (Z.succ (e + 1074)) in Hq by lia.
  rewrite Z.pow_succ_r in Hq by lia.
  change (2 ^ 53) with (2 * 2 ^ 52) in Hm.
  assert (0 < 2 ^ 52) by reflexivity. nia.
Qed.

(** On valid positive floats, the order is that of the scaled integers. *)
Lemma SFcompare_scaled m e m' e' :
  valid_binary (S754_finite false m e) = true ->
  valid_binary (S754_finite false m' e') = true ->
  SFcompare (S754_finite false m e) (S754_finite false m' e')
  = Some (scaled m e ?= scaled m' e').
Proof.
  intros Hv Hv'. cbn [SFcompare]. f_equal.
  destruct (Z.compare_spec e e') as [-> | H | H].
  - unfold scaled. change (Pos.compare_cont Eq m m') with (Zpos m ?= Zpos m').
    apply valid_finite in Hv as (He & _).
    assert (0 < 2 ^ (e' + 1074)) as Hp by (apply Z.pow_pos_nonneg; lia).
    destruct (Z.compare_spec (Zpos m) (Zpos m')) as [E | L | G]; symmetry.
    + apply Z.compare_eq_iff. congruence.
    + apply Z.compare_lt_iff. nia.
    + apply Z.compare_gt_iff. nia.
  - symmetry. apply Z.compare_lt_iff. apply scaled_lt; assumption.
  - symmetry. apply Z.compare_gt_iff. apply scaled_lt; assumption.
Qed.

(** Cutting the fraction of a positive float divides its scaled integer by
    [2^1074]. *)
Lemma sf_trunc_scaled m e :
  -1074 <= e -> sf_trunc (S754_finite false m e) = Some (scaled m e / 2 ^ 1074).
Proof.
  intros He. unfold sf_trunc, scaled. f_equal. destruct e as [|p|p].
  - change (0 + 1074) with 1074. rewrite Z.div_mul by (vm_compute; discriminate).
    change (2 ^ 0) with 1. lia.
  - rewrite Z.pow_add_r, Z.mul_assoc by lia. rewrite Z.div_mul by (vm_compute; discriminate).
    reflexivity.
  - replace 1074 with (Z.neg p + 1074 + Zpos p) at 2 by lia.
    rewrite (Z.pow_add_r 2 (Z.neg p + 1074) (Zpos p)) by lia.
    rewrite (Z.mul_comm (2 ^ (Z.neg p + 1074))).
    rewrite Z.div_mul_cancel_r; [reflexivity | |].
    + apply Z.pow_nonzero; lia.
    + apply Z.pow_nonzero; lia.
Qed.

(** A float strictly between two integers loses its fraction within
    them. *)
Lemma sf_trunc_between f lo hi n :
  lo = 0 \/ exact_float lo -> exact_float hi ->
  PrimFloat.ltb (float_of_Z lo) f = true -> PrimFloat.ltb f (float_of_Z hi) = true ->
  sf_trunc (Prim2SF f) = Some n -> lo <= n < hi.
Proof.
  intros Hlo (mh & eh & Eh & Sh). rewrite !FloatAxioms.ltb_spec. unfold SFltb.
  pose proof (Prim2SF_valid f) as Vf. pose proof (Prim2SF_valid (float_of_Z hi)) as Vh.
  rewrite Eh in *. intros H1 H2.
  assert (exists m e, Prim2SF f = S754_finite false m e
          /\ (lo = 0 \/ lo * 2 ^ 1074 < scaled m e)) as (m & e & Ef & Hl).
  { destruct Hlo as [-> | (ml & el & El & Sl)].
    - change (Prim2SF (float_of_Z 0)) with (S754_zero false) in H1.
      destruct (Prim2SF f) as [s|s| |s m e]; try discriminate.
      + destruct s; discriminate.
      + destruct s; [discriminate|]. eauto.
    - pose proof (Prim2SF_valid (float_of_Z lo)) as Vl. rewrite El in *.
      destruct (Prim2SF f) as [s|s| |s m e]; try discriminate.
      + destruct s; discriminate.
      + destruct s; [discriminate|]. exists m, e. split; [reflexivity|]. right.
        rewrite (SFcompare_scaled _ _ _ _ Vl Vf) in H1. rewrite <- Sl.
        destruct (Z.compare_spec (scaled ml el) (scaled m e)); try discriminate. assumption. }
  rewrite Ef in *. rewrite (SFcompare_scaled _ _ _ _ Vf Vh) in H2.
  assert (scaled m e < hi * 2 ^ 1074) as Hh.
  { rewrite <- Sh. destruct (Z.compare_spec (scaled m e) (scaled mh eh)); try discriminate.
    assumption. }
  apply valid_finite in Vf as (He & _).
  rewrite sf_trunc_scaled by lia. intros [= <-].
  assert (0 < 2 ^ 1074) as Hp by reflexivity.
  assert (0 <= scaled m e) as Hs by (unfold scaled; apply Z.mul_nonneg_nonneg; [lia|];
    apply Z.pow_nonneg; lia).
  split.
  - destruct Hl as [-> | Hl]; [apply Z.div_pos; lia|].
    apply Z.div_le_lower_bound; lia.
  - apply Z.div_lt_upper_bound; lia.
Qed.

(** [int(max(lo, min(hi, v)))] is within the bounds whenever it is
    defined. *)
Lemma clamp_bounds lo hi v n :
  lo < hi -> lo = 0 \/ exact_float lo -> exact_float hi ->
  clamp lo hi v = Some n -> lo <= n <= hi.
Proof.
  intros Hlt Hlo Hhi. unfold clamp.
  destruct (as_number v) as [[z|f]|]; cbn; [| |discriminate].
  - destruct (z <? hi) eqn:E1; cbn.
    + destruct (lo <? z) eqn:E2; cbn; intros [= <-]; lia.
    + assert ((lo <? hi) = true) as -> by lia. cbn. intros [= <-]. lia.
  - destruct (PrimFloat.ltb f (float_of_Z hi)) eqn:E1; cbn.
    + destruct (PrimFloat.ltb (float_of_Z lo) f) eqn:E2; cbn.
      * intros H. pose proof (sf_trunc_between f lo hi n Hlo Hhi E2 E1 H). lia.
      * intros [= <-]. lia.
    + assert ((lo <? hi) = true) as -> by lia. cbn. intros [= <-]. lia.
Qed.

Lemma exact_float_250 : exact_float 250.
Proof. eexists _, _. split; vm_compute; reflexivity. Qed.
Lemma exact_float_10000 : exact_float 10000.
Proof. eexists _, _. split; vm_compute; reflexivity. Qed.
Lemma exact_float_500 : exact_float 500.
Proof. eexists _, _. split; vm_compute; reflexivity. Qed.
Lemma exact_float_20000 : exact_float 20000.
Proof. eexists _, _. split; vm_compute; reflexivity. Qed.
Lemma exact_float_60 : exact_float 60.
Proof. eexists _, _. split; vm_compute; reflexivity. Qed.
Lemma exact_float_1 : exact_float 1.
Proof. eexists _, _. split; vm_compute; reflexivity. Qed.
Lemma exact_float_6 : exact_float 6.
Proof. eexists _, _. split; vm_compute; reflexivity. Qed.

End Truncation.

Section Attributes.

Lemma attr_insert_eq (s : Settings) n v : attr (<[n := v]> s) n = v.
Proof. unfold attr. rewrite lookup_insert_eq. reflexivity. Qed.

Lemma attr_insert_ne (s : Settings) n n' v : n <> n' -> attr (<[n := v]> s) n' = attr s n'.
Proof. intros H. unfold attr. rewrite lookup_insert_ne by exact H. reflexivity. Qed.

Lemma attr_default_unless_ne test n n' v s :
  n <> n' -> attr (default_unless test n v s) n' = attr s n'.
Proof.
  intros H. unfold default_unless. destruct (test (attr s n)); [reflexivity|].
  apply attr_insert_ne, H.
Qed.

Lemma test_default_unless test n v s :
  test v = true -> test (attr (default_unless test n v s) n) = true.
Proof.
  intros H. unfold default_unless. destruct (test (attr s n)) eqn:E; [exact E|].
  rewrite attr_insert_eq. exact H.
Qed.

Lemma default_unless_id test n v s : test (attr s n) = true -> default_unless test n v s = s.
Proof. intros H. unfold default_unless. rewrite H. reflexivity. Qed.

Lemma dom_default_unless test n v (s : Settings) (X : gset string) :
  dom s = X -> n ∈ X -> dom (default_unless test n v s) = X.
Proof.
  intros H Hn. unfold default_unless. destruct (test (attr s n)); [exact H|].
  apply dom_insert_known; assumption.
Qed.

Lemma clamp_attr_spec lo hi n s s' :
  clamp_attr lo hi n s = Some s' ->
  exists k, clamp lo hi (attr s n) = Some k /\ s' = <[n := JInt k]> s.
Proof.
  unfold clamp_attr. destruct (clamp lo hi (attr s n)) as [k|]; [|discriminate].
  intros [= <-]. eauto.
Qed.

Lemma clamp_int lo hi k : lo < hi -> lo <= k <= hi -> clamp lo hi (JInt k) = Some k.
Proof.
  intros Hlt Hk. unfold clamp. cbn.
  destruct (k <? hi) eqn:E1; cbn.
  - destruct (lo <? k) eqn:E2; cbn; f_equal; lia.
  - assert ((lo <? hi) = true) as -> by lia. cbn. f_equal. lia.
Qed.

Lemma clamp_attr_id lo hi n s :
  lo < hi -> int_between lo hi (attr s n) -> clamp_attr lo hi n s = Some s.
Proof.
  intros Hlt (k & E & Hk). unfold clamp_attr. rewrite E, (clamp_int lo hi k Hlt Hk). cbn.
  f_equal. apply insert_id. unfold attr in E. destruct (s !! n); cbn in E; congruence.
Qed.

Lemma clamp_attr_not_number lo hi n s :
  as_number (attr s n) = None -> clamp_attr lo hi n s = None.
Proof. intros H. unfold clamp_attr, clamp. rewrite H. reflexivity. Qed.

Lemma field_of_default n v : default_settings !! n = Some v -> n ∈ dom default_settings.
Proof. intros H. apply elem_of_dom. eauto. Qed.

Lemma union_defaults (data : gmap string json) :
  dom default_settings ⊆ dom data -> data ∪ default_settings = data.
Proof.
  intros H. apply map_eq. intros i. rewrite lookup_union.
  destruct (data !! i) as [x|] eqn:E; [destruct (default_settings !! i); reflexivity|].
  apply not_elem_of_dom in E.
  assert (i ∉ dom default_settings) as N by (intros Hi; apply E, H, Hi).
  apply not_elem_of_dom in N. rewrite N. reflexivity.
Qed.

Lemma attr_union_defaults (data : gmap string json) n v :
  data !! n = Some v -> attr (data ∪ default_settings) n = v.
Proof. intros H. unfold attr. rewrite (lookup_union_Some_l _ _ _ _ H). reflexivity. Qed.

Lemma Settings_of_Some base s : Settings_of base = Some s -> s = base /\ dom base ⊆ dom default_settings.
Proof.
  unfold Settings_of. case_bool_decide; [|discriminate]. intros [= <-]. auto.
Qed.

End Attributes.

(** Reads an attribute through the assignments of [load_checks]. *)
Ltac attr_simpl :=
  repeat first [ rewrite attr_insert_eq
               | rewrite attr_insert_ne by discriminate
               | rewrite attr_default_unless_ne by discriminate ].

Section Checks.

Lemma default_settings_checked : settings_checked default_settings.
Proof.
  split; [ .. | reflexivity];
    first [ eexists; split; [vm_compute; reflexivity | lia] | vm_compute; reflexivity ].
Qed.

(** The object after the checks, in terms of the object before them. *)
Lemma load_checks_run ensure s0 s :
  load_checks ensure s0 = Some s ->
  exists k1 k2 k3 k4 k5 s5,
    s5 = default_unless is_list "monitored_adapters" (JList [])
           (default_unless truthy "graph_custom_color" (JStr "#4db7ff")
             (default_unless (is_one_of ["auto"; "custom"]) "graph_color_mode" (JStr "auto")
               (default_unless truthy "ping_host" (JStr "1.1.1.1")
                 (default_unless (is_one_of ["simple"; "advanced"]) "mode" (JStr "simple")
                    s0))))
    /\ clamp 250 10000 (attr s0 "stats_refresh_ms") = Some k1
    /\ clamp 500 20000 (attr s0 "ping_refresh_ms") = Some k2
    /\ clamp 0 60 (attr s0 "blur_radius") = Some k3
    /\ clamp 0 60 (attr s0 "window_opacity") = Some k4
    /\ clamp 1 6 (attr s0 "line_width") = Some k5
    /\ (truthy (attr s0 "use_builtin_background") && truthy (attr s0 "builtin_background_name")
        = true -> ensure (attr s0 "builtin_background_name") = true)
    /\ s = default_unless truthy "simple_adapter" (JStr "active")
             (<["line_width" := JInt k5]>
               (<["window_opacity" := JInt k4]>
                 (<["blur_radius" := JInt k3]>
                   (<["ping_refresh_ms" := JInt k2]>
                     (<["stats_refresh_ms" := JInt k1]> s5))))).
Proof.
  unfold load_checks. cbv zeta.
  set (s5 := default_unless is_list _ _ _).
  destruct (clamp_attr 250 10000 _ s5) as [s6|] eqn:E6; [|discriminate]. cbn.
  destruct (clamp_attr 500 20000 _ s6) as [s7|] eqn:E7; [|discriminate]. cbn.
  destruct (clamp_attr 0 60 "blur_radius" s7) as [s8|] eqn:E8; [|discriminate]. cbn.
  destruct (clamp_attr 0 60 "window_opacity" s8) as [s9|] eqn:E9; [|discriminate]. cbn.
  destruct (clamp_attr 1 6 _ s9) as [s10|] eqn:E10; [|discriminate]. cbn.
  apply clamp_attr_spec in E6 as (k1 & C1 & ->). apply clamp_attr_spec in E7 as (k2 & C2 & ->).
  apply clamp_attr_spec in E8 as (k3 & C3 & ->). apply clamp_attr_spec in E9 as (k4 & C4 & ->).
  apply clamp_attr_spec in E10 as (k5 & C5 & ->).
  subst s5. revert C1 C2 C3 C4 C5. attr_simpl. intros C1 C2 C3 C4 C5.
  destruct (truthy (attr s0 "use_builtin_background")
            && truthy (attr s0 "builtin_background_name")) eqn:Eb.
  - destruct (ensure (attr s0 "builtin_background_name")) eqn:Ee; [|discriminate].
    cbn [mbind option_bind]. intros E. apply (inj Some) in E. subst s.
    eexists k1, k2, k3, k4, k5, _. split; [reflexivity|].
    repeat (split; [assumption|]). split; [auto | reflexivity].
  - cbn [mbind option_bind]. intros E. apply (inj Some) in E. subst s.
    eexists k1, k2, k3, k4, k5, _. split; [reflexivity|].
    repeat (split; [assumption|]). split; [discriminate | reflexivity].
Qed.

Lemma load_checks_checked ensure s0 s :
  dom s0 = dom default_settings -> load_checks ensure s0 = Some s -> settings_checked s.
Proof.
  intros Hdom H.
  apply load_checks_run in H as (k1 & k2 & k3 & k4 & k5 & s5 & -> & C1 & C2 & C3 & C4 & C5 & _ & ->).
  split; attr_simpl.
  - exists k1. split; [reflexivity|].
    apply (clamp_bounds 250 10000 _ _ ltac:(lia) (or_intror exact_float_250) exact_float_10000 C1).
  - exists k2. split; [reflexivity|].
    apply (clamp_bounds 500 20000 _ _ ltac:(lia) (or_intror exact_float_500) exact_float_20000 C2).
  - exists k3. split; [reflexivity|].
    apply (clamp_bounds 0 60 _ _ ltac:(lia) (or_introl eq_refl) exact_float_60 C3).
  - exists k4. split; [reflexivity|].
    apply (clamp_bounds 0 60 _ _ ltac:(lia) (or_introl eq_refl) exact_float_60 C4).
  - exists k5. split; [reflexivity|].
    apply (clamp_bounds 1 6 _ _ ltac:(lia) (or_intror exact_float_1) exact_float_6 C5).
  - apply test_default_unless. reflexivity.
  - apply test_default_unless. reflexivity.
  - apply test_default_unless. reflexivity.
  - apply test_default_unless. reflexivity.
  - apply test_default_unless. reflexivity.
  - apply test_default_unless. reflexivity.
  - apply dom_default_unless; [|eapply field_of_default; vm_compute; reflexivity].
    repeat (apply dom_insert_known; [|eapply field_of_default; vm_compute; reflexivity]).
    repeat (apply dom_default_unless; [|eapply field_of_default; vm_compute; reflexivity]).
    exact Hdom.
Qed.

Lemma load_checks_id ensure s :
  settings_checked s ->
  (truthy (attr s "use_builtin_background") && truthy (attr s "builtin_background_name") = true ->
   ensure (attr s "builtin_background_name") = true) ->
  load_checks ensure s = Some s.
Proof.
  intros [H1 H2 H3 H4 H5 H6 H7 H8 H9 H10 H11 _] He. unfold load_checks. cbv zeta.
  rewrite (default_unless_id _ "mode") by assumption.
  rewrite (default_unless_id _ "ping_host") by assumption.
  rewrite (default_unless_id _ "graph_color_mode") by assumption.
  rewrite (default_unless_id _ "graph_custom_color") by assumption.
  rewrite (default_unless_id _ "monitored_adapters") by assumption.
  rewrite (clamp_attr_id 250 10000) by (lia || assumption). cbn.
  rewrite (clamp_attr_id 500 20000) by (lia || assumption). cbn.
  rewrite (clamp_attr_id 0 60 "blur_radius") by (lia || assumption). cbn.
  rewrite (clamp_attr_id 0 60 "window_opacity") by (lia || assumption). cbn.
  rewrite (clamp_attr_id 1 6) by (lia || assumption). cbn.
  destruct (truthy (attr s "use_builtin_background")
            && truthy (attr s "builtin_background_name")); [rewrite He by reflexivity|];
    cbn; rewrite (default_unless_id _ "simple_adapter") by assumption; reflexivity.
Qed.

Lemma dom_union_defaults (data : gmap string json) :
  dom data ⊆ dom default_settings -> dom (data ∪ default_settings) = dom default_settings.
Proof. intros H. rewrite dom_union_L. apply subseteq_union_1_L, H. Qed.

End Checks.

(** X12. Whatever object the settings file holds, the settings that
    [load_settings()] returns passed the checks: the two refresh intervals
    are [int]s within 250..10000 and 500..20000 milliseconds, the blur radius
    and the opacity within 0..60, the line width within 1..6, the two modes
    are known ones, the host, the custom colour and the simple adapter are
    not empty, and the monitored adapters are a list. *)
Theorem load_settings_checked d s : load_settings d = Some s -> settings_checked s.
Proof.
  unfold load_settings. destruct (ensure_ok d (JStr "BaseImage1.png")); [|discriminate].
  destruct (settings_file d) as [data|]; cbn [mbind option_bind].
  - destruct (Settings_of (data ∪ default_settings)) as [s0|] eqn:E0; cbn [mbind option_bind].
    + apply Settings_of_Some in E0 as [-> Hsub].
      destruct (load_checks (ensure_ok d) _) as [s1|] eqn:E1.
      * intros [= <-]. refine (load_checks_checked _ _ _ _ E1).
        apply dom_union_defaults. rewrite dom_union_L in Hsub.
        intros k Hk. apply Hsub, elem_of_union. left. exact Hk.
      * destruct (_ && _); [|discriminate]. intros [= <-]. apply default_settings_checked.
    + destruct (_ && _); [|discriminate]. intros [= <-]. apply default_settings_checked.
  - destruct (_ && _); [|discriminate]. intros [= <-]. apply default_settings_checked.
Qed.

Lemma load_settings_checked_witness :
  settings_checked (default default_settings (load_settings edited_disk)).
Proof.
  apply (load_settings_checked edited_disk).
  exact (eq_refl (load_settings edited_disk)
         <: load_settings edited_disk
            = Some (default default_settings (load_settings edited_disk))).
Defined.

(** X13. A settings file with a key that is no field of [Settings], or with
    a value that is not a number in one of the five clamped fields, is
    discarded as a whole: [load_settings()] behaves as if there were no
    file, and returns the defaults. *)
Theorem load_settings_discards d data :
  settings_file d = Some data ->
  (exists k, k ∈ dom data /\ k ∉ dom default_settings)
  \/ (exists k v, k ∈ clamped_fields /\ data !! k = Some v /\ as_number v = None) ->
  load_settings d = load_settings (without_file d).
Proof.
  intros Hfile Hbad. unfold load_settings, without_file.
  cbn [settings_file ensure_ok save_ok]. rewrite Hfile. cbn [mbind option_bind].
  destruct (ensure_ok d (JStr "BaseImage1.png")); [|reflexivity].
  assert (Settings_of (data ∪ default_settings) ≫= load_checks (ensure_ok d) = None) as ->;
    [|reflexivity].
  destruct (Settings_of (data ∪ default_settings)) as [s0|] eqn:E0; [|reflexivity].
  cbn [mbind option_bind].
  apply Settings_of_Some in E0 as [-> Hsub].
  destruct Hbad as [(k & Hk & Hn) | (k & v & Hk & Hv & Hnum)].
  - exfalso. apply Hn, Hsub. rewrite dom_union_L. apply elem_of_union. left. exact Hk.
  - destruct (load_checks (ensure_ok d) _) as [s|] eqn:E; [|reflexivity]. exfalso.
    apply load_checks_run in E as (k1 & k2 & k3 & k4 & k5 & s5 & _ & C1 & C2 & C3 & C4 & C5 & _).
    pose proof (attr_union_defaults _ _ _ Hv) as Ha.
    assert (forall lo hi n, clamp lo hi (attr (data ∪ default_settings) k) <> Some n) as Hc.
    { intros lo hi n. unfold clamp. rewrite Ha, Hnum. discriminate. }
    unfold clamped_fields in Hk.
    repeat (apply elem_of_cons in Hk as [-> | Hk]; [eapply Hc; eassumption|]).
    inversion Hk.
Qed.

Lemma load_settings_discards_witness :
  load_settings {| settings_file := Some {[ "mode" := JStr "advanced";
                                            "ping_refresh_ms" := JStr "1500" ]};
                   ensure_ok := fun _ => true; save_ok := true |}
  = load_settings (without_file
      {| settings_file := Some {[ "mode" := JStr "advanced";
                                  "ping_refresh_ms" := JStr "1500" ]};
         ensure_ok := fun _ => true; save_ok := true |}).
Proof.
  apply (load_settings_discards _ {[ "mode" := JStr "advanced";
                                     "ping_refresh_ms" := JStr "1500" ]}).
  - reflexivity.
  - right. exists "ping_refresh_ms", (JStr "1500").
    split; [unfold clamped_fields; right; left|]. split; vm_compute; reflexivity.
Defined.

(** X14. The settings that [load_settings()] returns are stable: once they
    are saved, loading them again returns them unchanged. *)
Theorem load_settings_stable d s :
  load_settings d = Some s -> load_settings (with_file s d) = Some s.
Proof.
  intros H.
  assert (settings_checked s
          /\ (truthy (attr s "use_builtin_background")
              && truthy (attr s "builtin_background_name") = true ->
              ensure_ok d (attr s "builtin_background_name") = true)
          /\ ensure_ok d (JStr "BaseImage1.png") = true) as (Hc & He & H0).
  { revert H. unfold load_settings.
    destruct (ensure_ok d (JStr "BaseImage1.png")) eqn:E; [|discriminate].
    assert (forall s', (if ensure_ok d (attr default_settings "builtin_background_name")
                           && save_ok d then Some default_settings else None) = Some s' ->
            settings_checked s'
            /\ (truthy (attr s' "use_builtin_background")
                && truthy (attr s' "builtin_background_name") = true ->
                ensure_ok d (attr s' "builtin_background_name") = true)
            /\ true = true) as Hdef.
    { intros s'. destruct (_ && _); [|discriminate]. intros [= <-].
      split; [apply default_settings_checked|]. split; [|reflexivity]. intros _. exact E. }
    destruct (settings_file d) as [data|]; cbn [mbind option_bind]; [|apply Hdef].
    destruct (Settings_of (data ∪ default_settings)) as [s0|] eqn:E0; cbn [mbind option_bind]; [|apply Hdef].
    apply Settings_of_Some in E0 as [-> Hsub].
    destruct (load_checks (ensure_ok d) _) as [s1|] eqn:E1; [|apply Hdef].
    intros [= <-]. split; [|split; [|reflexivity]].
    - refine (load_checks_checked _ _ _ _ E1).
      apply dom_union_defaults. rewrite dom_union_L in Hsub.
      intros k Hk. apply Hsub, elem_of_union. left. exact Hk.
    - apply load_checks_run in E1 as (k1 & k2 & k3 & k4 & k5 & s5 & -> & _ & _ & _ & _ & _ & He & ->).
      attr_simpl. exact He. }
  unfold load_settings, with_file. cbn [settings_file ensure_ok save_ok mbind option_bind].
  rewrite H0.
  rewrite union_defaults by (rewrite (checked_fields _ Hc); reflexivity).
  unfold Settings_of. rewrite bool_decide_true by (rewrite (checked_fields _ Hc); reflexivity).
  cbn [mbind option_bind]. rewrite (load_checks_id _ _ Hc He). reflexivity.
Qed.

Lemma load_settings_stable_witness :
  load_settings
    (with_file default_settings
       {| settings_file := None; ensure_ok := fun _ => true; save_ok := true |})
  = Some default_settings.
Proof.
  apply (load_settings_stable
           {| settings_file := None; ensure_ok := fun _ => true; save_ok := true |}).
  reflexivity.
Defined.

Section Unchecked.

Lemma lookup_default_unless_ne test n k v (s : Settings) :
  n <> k -> default_unless test n v s !! k = s !! k.
Proof.
  intros H. unfold default_unless. destruct (test (attr s n)); [reflexivity|].
  apply lookup_insert_ne, H.
Qed.

End Unchecked.

(** X15. [load_settings()] checks eleven attributes only. When it does not
    fall back to the defaults, every other attribute of the object it
    returns is the value of the file, whatever its type, or the default
    when the file does not give it: the thresholds, the sizes and the
    switches are not validated. *)
Theorem load_settings_passes_unchecked d data s k :
  settings_file d = Some data -> load_settings d = Some s ->
  k ∉ checked_fields_list ->
  s = default_settings \/ s !! k = (data ∪ default_settings) !! k.
Proof.
  intros Hfile H Hk. unfold load_settings in H. rewrite Hfile in H.
  destruct (ensure_ok d (JStr "BaseImage1.png")); [|discriminate].
  cbn [mbind option_bind] in H.
  assert (forall s', (if ensure_ok d (attr default_settings "builtin_background_name")
                         && save_ok d then Some default_settings else None) = Some s' ->
          s' = default_settings) as Hdef.
  { intros s'. destruct (_ && _); [|discriminate]. intros E. apply (inj Some) in E. auto. }
  destruct (Settings_of (data ∪ default_settings)) as [s0|] eqn:E0;
    cbn [mbind option_bind] in H; [|left; apply Hdef, H].
  apply Settings_of_Some in E0 as [-> _].
  destruct (load_checks (ensure_ok d) _) as [s1|] eqn:E1; [|left; apply Hdef, H].
  apply (inj Some) in H. subst s1. right.
  apply load_checks_run in E1 as (k1 & k2 & k3 & k4 & k5 & s5 & -> & _ & _ & _ & _ & _ & _ & ->).
  unfold checked_fields_list in Hk.
  repeat (apply not_elem_of_cons in Hk as [? Hk]).
  rewrite lookup_default_unless_ne by congruence.
  rewrite !lookup_insert_ne by congruence.
  rewrite !lookup_default_unless_ne by congruence.
  reflexivity.
Qed.

Lemma load_settings_passes_unchecked_witness :
  default default_settings (load_settings mistyped_disk) = default_settings
  \/ default default_settings (load_settings mistyped_disk) !! "good_mbps"
     = (({[ "good_mbps" := JStr "5"; "ok_mbps" := JNull ]} : gmap string json)
        ∪ default_settings) !! "good_mbps".
Proof.
  apply (load_settings_passes_unchecked mistyped_disk).
  - reflexivity.
  - exact (eq_refl (load_settings mistyped_disk)
           <: load_settings mistyped_disk
              = Some (default default_settings (load_settings mistyped_disk))).
  - unfold checked_fields_list. intros H.
    repeat (apply elem_of_cons in H as [H | H]; [discriminate|]). inversion H.
Defined.

(** * Integers in the output of ping *)

Section Exact.

Lemma iter_xO_value p k : Zpos (Pos.iter xO p k) = Zpos p * 2 ^ Zpos k.
Proof.
  induction k as [|k IH] using Pos.peano_ind.
  - cbn [Pos.iter]. change (2 ^ 1) with 2. lia.
  - rewrite Pos.iter_succ, Pos2Z.inj_xO, IH, Pos2Z.inj_succ, Z.pow_succ_r by lia. lia.
Qed.

Lemma iter_xO_digits p k :
  Zpos (digits2_pos (Pos.iter xO p k)) = Zpos (digits2_pos p) + Zpos k.
Proof.
  induction k as [|k IH] using Pos.peano_ind.
  - cbn [Pos.iter digits2_pos]. lia.
  - rewrite Pos.iter_succ. cbn [digits2_pos]. rewrite Pos2Z.inj_succ, IH. lia.
Qed.

(** A mantissa of exactly 53 digits is not rounded. *)
Lemma binary_round_aux_exact m e :
  Zpos (digits2_pos m) = 53 -> -1074 <= e <= 971 ->
  binary_round_aux prec emax false (Zpos m) e loc_Exact = S754_finite false m e.
Proof.
  intros Hd He. unfold binary_round_aux.
  assert (shr_fexp prec emax (Zpos m) e loc_Exact
          = ({| shr_m := Zpos m; shr_r := false; shr_s := false |}, e)) as E.
  { unfold shr_fexp, fexp, emin. cbn [Zdigits2 shr_record_of_loc]. rewrite Hd.
    replace (Z.max (53 + e - prec) (3 - emax - prec) - e) with 0
      by (unfold prec, emax; lia).
    reflexivity. }
  rewrite E. cbn [shr_m loc_of_shr_record round_nearest_even]. rewrite E. cbn [shr_m].
  assert ((e <=? emax - prec) = true) as -> by (apply Z.leb_le; unfold emax, prec; lia).
  reflexivity.
Qed.

(** The float of an integer below [2^53] is the integer itself: a mantissa
    of 53 digits with the exponent that brings it back. *)
Lemma binary_normalize_small p :
  Zpos p < 2 ^ 53 ->
  exists m e,
    binary_normalize prec emax (Zpos p) 0 false = S754_finite false m e
    /\ Zpos (digits2_pos m) = 53 /\ -52 <= e <= 0 /\ Zpos m = Zpos p * 2 ^ (- e).
Proof.
  intros Hp. cbn [binary_normalize]. unfold binary_round.
  pose proof (digits2_pos_lower p) as Hl.
  assert (Zpos (digits2_pos p) <= 53) as Hd.
  { destruct (Z.le_gt_cases (Zpos (digits2_pos p)) 53) as [H|H]; [exact H|exfalso].
    assert (2 ^ 53 <= 2 ^ (Zpos (digits2_pos p) - 1)) by (apply Z.pow_le_mono_r; lia). lia. }
  unfold shl_align, fexp, emin.
  replace (Z.max (Zpos (digits2_pos p) + 0 - prec) (3 - emax - prec) - 0)
    with (Zpos (digits2_pos p) - 53) by (unfold prec, emax; lia).
  destruct (Zpos (digits2_pos p) - 53) as [|k|k] eqn:Ek; [|lia|].
  - exists p, 0. split; [apply binary_round_aux_exact; lia|].
    split; [lia|]. split; [lia|]. change (2 ^ (- 0)) with 1. lia.
  - replace (Z.max (Zpos (digits2_pos p) + 0 - prec) (3 - emax - prec))
      with (Z.neg k) by (unfold prec, emax; lia).
    exists (Pos.iter xO p k), (Z.neg k).
    pose proof (iter_xO_digits p k) as Hk.
    split; [apply binary_round_aux_exact; lia|].
    split; [lia|]. split; [lia|]. rewrite iter_xO_value. reflexivity.
Qed.

Lemma round_half_even_exact m e v :
  -52 <= e <= 0 -> Zpos m = v * 2 ^ (- e) -> round_half_even m e = v.
Proof.
  intros He Hm. destruct e as [|p|p]; [|lia|]; cbn [round_half_even].
  - change (- 0) with 0 in Hm. change (2 ^ 0) with 1 in *. lia.
  - change (- Z.neg p) with (Zpos p) in Hm.
    assert (0 < 2 ^ Zpos p) as Hd by (apply Z.pow_pos_nonneg; lia).
    rewrite Hm, Z.div_mul, Z.mod_mul by lia.
    change (2 * 0) with 0. destruct (Z.compare_spec 0 (2 ^ Zpos p)); [lia | reflexivity | lia].
Qed.

(** [round(float(z))] gives [z] back for [0 <= z < 2^53]. *)
Lemma py_round_float_of_Z z : 0 <= z < 2 ^ 53 -> py_round (float_of_Z z) = Some z.
Proof.
  intros Hz. unfold py_round, float_of_Z. destruct z as [|p|p]; [reflexivity| |lia].
  destruct (binary_normalize_small p ltac:(lia)) as (m & e & -> & Hd & He & Hm).
  rewrite Prim2SF_SF2Prim.
  - cbn [sf_round]. f_equal. apply round_half_even_exact; assumption.
  - unfold valid_binary, bounded, canonical_mantissa, fexp, emin. rewrite Hd.
    apply andb_true_iff. split; [apply Z.eqb_eq | apply Z.leb_le]; unfold prec, emax; lia.
Qed.

End Exact.

Section Numerals.

Lemma is_digit_cases c :
  is_digit c = true ->
  c = "0"%char \/ c = "1"%char \/ c = "2"%char \/ c = "3"%char \/ c = "4"%char
  \/ c = "5"%char \/ c = "6"%char \/ c = "7"%char \/ c = "8"%char \/ c = "9"%char.
Proof.
  destruct c as [[] [] [] [] [] [] [] []]; vm_compute; intros H; try discriminate; tauto.
Qed.

(** What the parser asks of a digit. *)
Lemma digit_plain c :
  is_digit c = true ->
  is_space c = false /\ Ascii.eqb c "_" = false /\ Ascii.eqb c "<" = false
  /\ Ascii.eqb c "m" = false /\ Ascii.eqb c "." = false
  /\ Ascii.eqb c "e" = false /\ Ascii.eqb c "E" = false
  /\ (N_of_ascii c =? 208)%N = false /\ ascii_in 65 90 c = false
  /\ 0 <= digit_val c <= 9.
Proof.
  intros H. apply is_digit_cases in H.
  repeat (destruct H as [-> | H]); [..|subst c]; vm_compute; intuition discriminate.
Qed.

Lemma py_lower_cons c t :
  (N_of_ascii c =? 208)%N = false ->
  py_lower (String c t)
  = String (if ascii_in 65 90 c then ascii_shift 32 c else c) (py_lower t).
Proof. intros H. destruct t; cbn [py_lower]; rewrite ?H; reflexivity. Qed.

Lemma py_lower_digits s : all_digits s = true -> py_lower s = s.
Proof.
  induction s as [|c t IH]; [reflexivity|]. cbn [all_digits]. intros H.
  apply andb_true_iff in H as [Hc Ht].
  destruct (digit_plain c Hc) as (_ & _ & _ & _ & _ & _ & _ & H208 & Hcap & _).
  rewrite py_lower_cons, Hcap, (IH Ht) by exact H208. reflexivity.
Qed.

Lemma remove_char_digits s : all_digits s = true -> remove_char "<" s = s.
Proof.
  induction s as [|c t IH]; [reflexivity|]. cbn [all_digits remove_char]. intros H.
  apply andb_true_iff in H as [Hc Ht].
  destruct (digit_plain c Hc) as (_ & _ & -> & _). rewrite (IH Ht). reflexivity.
Qed.

Lemma rstrip_digits s : all_digits s = true -> rstrip s = s.
Proof.
  induction s as [|c t IH]; [reflexivity|]. cbn [all_digits rstrip]. intros H.
  apply andb_true_iff in H as [Hc Ht]. rewrite (IH Ht).
  destruct (digit_plain c Hc) as (-> & _). destruct t; reflexivity.
Qed.

Lemma str_strip_digits s : all_digits s = true -> str_strip s = s.
Proof.
  intros H. unfold str_strip.
  assert (lstrip s = s) as ->; [|apply rstrip_digits, H].
  destruct s as [|c t]; [reflexivity|]. cbn [all_digits] in H. cbn [lstrip].
  apply andb_true_iff in H as [Hc _]. destruct (digit_plain c Hc) as (-> & _). reflexivity.
Qed.

Lemma read_sign_digits s : all_digits s = true -> read_sign s = (false, s).
Proof.
  destruct s as [|c t]; [reflexivity|]. cbn [all_digits]. intros H.
  apply andb_true_iff in H as [Hc _]. apply is_digit_cases in Hc.
  repeat (destruct Hc as [-> | Hc]); [..|subst c]; reflexivity.
Qed.

Lemma drop_underscores_digits s : forall prev,
  Ascii.eqb prev "_" = false -> all_digits s = true -> drop_underscores prev s = Some s.
Proof.
  induction s as [|c t IH]; intros prev Hp H; cbn [drop_underscores].
  - rewrite Hp. reflexivity.
  - cbn [all_digits] in H. apply andb_true_iff in H as [Hc Ht].
    destruct (digit_plain c Hc) as (_ & Hu & _). rewrite Hu, Hp. cbn [andb].
    rewrite (IH c Hu Ht). reflexivity.
Qed.

Lemma read_digits_all s : forall acc n,
  all_digits s = true ->
  read_digits acc n s = (decimal_from acc s, (n + String.length s)%nat, EmptyString).
Proof.
  induction s as [|c t IH]; intros acc n H; cbn [read_digits decimal_from String.length].
  - rewrite Nat.add_0_r. reflexivity.
  - cbn [all_digits] in H. apply andb_true_iff in H as [Hc Ht]. rewrite Hc, (IH _ _ Ht).
    rewrite Nat.add_succ_r. reflexivity.
Qed.

Lemma decimal_from_nonneg s : forall acc,
  all_digits s = true -> 0 <= acc -> 0 <= decimal_from acc s.
Proof.
  induction s as [|c t IH]; intros acc H Ha; cbn [decimal_from]; [exact Ha|].
  cbn [all_digits] in H. apply andb_true_iff in H as [Hc Ht].
  destruct (digit_plain c Hc) as (_ & _ & _ & _ & _ & _ & _ & _ & _ & Hv).
  apply IH; [exact Ht | lia].
Qed.

Lemma not_keyword_digits s :
  all_digits s = true ->
  String.eqb s "inf" || String.eqb s "infinity" = false /\ String.eqb s "nan" = false.
Proof.
  destruct s as [|c t]; [split; reflexivity|]. cbn [all_digits]. intros H.
  apply andb_true_iff in H as [Hc _]. apply is_digit_cases in Hc.
  repeat (destruct Hc as [-> | Hc]); [..|subst c]; split; reflexivity.
Qed.

(** [float(s)] on a text of digits is the float of its number. *)
Lemma py_float_of_str_digits s :
  s <> EmptyString -> all_digits s = true ->
  py_float_of_str s = Some (float_of_Z (decimal_value s)).
Proof.
  intros Hne H. unfold py_float_of_str, float_literal.
  rewrite (str_strip_digits s H), (read_sign_digits s H), (py_lower_digits s H).
  destruct (not_keyword_digits s H) as [-> ->].
  rewrite (drop_underscores_digits s " " eq_refl H).
  unfold parse_decimal. rewrite (read_digits_all s 0 0 H).
  destruct s as [|c t]; [congruence|]. cbn [String.length Nat.add read_exponent option_map].
  unfold decimal_value. f_equal. unfold float_of_Z, decimal_to_SF. f_equal.
  destruct (decimal_from 0 (String c t)) eqn:E; [reflexivity| |].
  - cbn [Z.leb Z.of_nat Z.sub Z.opp Z.compare]. change (10 ^ 0) with 1. rewrite Z.mul_1_r.
    reflexivity.
  - pose proof (decimal_from_nonneg (String c t) 0 H ltac:(lia)). lia.
Qed.

Lemma parse_ms_digits s :
  s <> EmptyString -> all_digits s = true -> decimal_value s < 2 ^ 53 ->
  parse_ms s = Some (decimal_value s).
Proof.
  intros Hne H Hv. unfold parse_ms. rewrite (py_float_of_str_digits s Hne H).
  apply py_round_float_of_Z. split; [|exact Hv].
  apply decimal_from_nonneg; [exact H | lia].
Qed.

Lemma str_find_eq pat s :
  str_find pat s
  = if String.prefix pat s then Some 0%nat
    else match s with
         | EmptyString => None
         | String _ t => option_map S (str_find pat t)
         end.
Proof. destruct s; reflexivity. Qed.

(** A unit that does not start with a digit is first found after the
    digits. *)
Lemma str_find_after_digits u0 u s tail :
  is_digit u0 = false -> all_digits s = true -> String.prefix (String u0 u) tail = true ->
  str_find (String u0 u) (String.append s tail) = Some (String.length s).
Proof.
  intros Hu H Ht. induction s as [|c t IH].
  - change (String.append "" tail) with tail. rewrite str_find_eq, Ht. reflexivity.
  - cbn [all_digits] in H. apply andb_true_iff in H as [Hc Hd].
    change (String.append (String c t) tail) with (String c (String.append t tail)).
    rewrite str_find_eq, (IH Hd). cbn [String.length String.prefix].
    destruct (ascii_dec u0 c) as [-> | _]; [congruence | reflexivity].
Qed.

Lemma str_take_append s rest : str_take (String.length s) (String.append s rest) = s.
Proof.
  induction s as [|c t IH]; [reflexivity|].
  change (String.append (String c t) rest) with (String c (String.append t rest)).
  cbn [String.length str_take]. rewrite IH. reflexivity.
Qed.

End Numerals.

(** X16. When the output of a successful [ping] has a decimal integer below
    [2^53] between its first [time=] and [ms], or, without any [time=],
    between its first [время=] and [мс], [ping_once] returns exactly that
    integer. *)
Theorem ping_once_reads_integer run win host timeout_ms out err key unit_ i digits rest :
  run (ping_cmd win host timeout_ms) = Completed 0 out err ->
  (key = "time=" /\ unit_ = "ms")
  \/ (key = "время=" /\ unit_ = "мс"
      /\ str_find "time=" (normalised (String.append out err)) = None) ->
  str_find key (normalised (String.append out err)) = Some i ->
  str_drop (i + String.length key) (normalised (String.append out err))
  = String.append digits (String.append unit_ rest) ->
  digits <> EmptyString -> all_digits digits = true -> decimal_value digits < 2 ^ 53 ->
  ping_once run win host timeout_ms = Some (decimal_value digits).
Proof.
  intros Hrun Hkey Hfind Hdrop Hne Hd Hv. rewrite ping_once_run, Hrun. cbn [Z.eqb].
  unfold parse_ping. fold (normalised (String.append out err)).
  assert (token_after key unit_ (normalised (String.append out err)) = Some digits) as Htok.
  { unfold token_after. rewrite Hfind, Hdrop.
    assert (str_find unit_ (String.append digits (String.append unit_ rest))
            = Some (String.length digits)) as ->.
    { destruct Hkey as [[_ ->] | (_ & -> & _)];
        apply str_find_after_digits; try reflexivity; try exact Hd;
        destruct rest; reflexivity. }
    rewrite str_take_append, (remove_char_digits digits Hd). reflexivity. }
  destruct Hkey as [[-> ->] | (-> & -> & Hnone)].
  - rewrite Htok. apply parse_ms_digits; assumption.
  - unfold token_after at 1. rewrite Hnone, Htok. apply parse_ms_digits; assumption.
Qed.

Lemma ping_once_reads_integer_witness :
  ping_once (fun _ => Completed 0 "64 bytes from 1.1.1.1: icmp_seq=1 ttl=57 time=118 ms" "")
    false "1.1.1.1" 800
  = Some (decimal_value "118").
Proof.
  apply (ping_once_reads_integer _ false "1.1.1.1" 800
           "64 bytes from 1.1.1.1: icmp_seq=1 ttl=57 time=118 ms" "" "time=" "ms"
           35 "118" "");
    first [reflexivity | discriminate | left; split; reflexivity].
Defined.

(** * The advanced view *)

Section View.

Lemma reachable_rates_nonneg s : reachable s -> rates_nonneg (window s).
Proof.
  apply reachable_invariant.
  - intros. repeat split; apply map_Forall_empty.
  - apply rates_nonneg_tick.
  - intros w H. exact H.
  - intros [n|] w H; exact H.
Qed.

Lemma reachable_together s : reachable s -> sampled_together (window s).
Proof.
  apply reachable_invariant.
  - intros. unfold sampled_together. cbn. rewrite !dom_empty_L.
    refine (conj _ (conj _ (conj _ (conj _ _)))); reflexivity.
  - apply tick_stats_together.
  - intros w H. exact H.
  - intros [n|] w H; exact H.
Qed.

Lemma split_lengths xs ys good ok invert :
  length xs = length ys ->
  split_series_by_quality xs ys good ok invert
  = ((xs, in_series GREEN good ok invert <$> ys),
     (xs, in_series YELLOW good ok invert <$> ys),
     (xs, in_series RED good ok invert <$> ys)).
Proof.
  intros H. unfold split_series_by_quality.
  rewrite split_fold, zip_fst_take, zip_snd_take.
  assert (take (min (length xs) (length ys)) xs = xs) as ->
    by (rewrite <- H, Nat.min_id; apply firstn_all).
  assert (take (min (length xs) (length ys)) ys = ys) as ->
    by (rewrite H, Nat.min_id; apply firstn_all).
  reflexivity.
Qed.

End View.

(** X17. In every state the program reaches, each of the six coloured curves
    of the advanced view is drawn over the same 240 time stamps, those of
    the time history, with 240 y-values; the custom curves hold the 240
    samples of the two histories in custom mode and are empty otherwise. *)
Theorem advanced_curves_full s mode good_mbps ok_mbps good_ping_ms ok_ping_ms :
  reachable s ->
  let w := window s in
  let c := advanced_curves mode good_mbps ok_mbps good_ping_ms ok_ping_ms w in
  length (dq_items (t_hist w)) = 240%nat
  /\ Forall (fun curve : series =>
               curve.1 = dq_items (t_hist w) /\ length curve.2 = 240%nat)
       [mbps_g c; mbps_y c; mbps_r c; ping_g c; ping_y c; ping_r c]
  /\ (if String.eqb mode "custom"
      then mbps_c c = (dq_items (t_hist w), dq_items (mbps_hist w))
           /\ ping_c c = (dq_items (t_hist w), dq_items (ping_hist w))
      else mbps_c c = ([], []) /\ ping_c c = ([], [])).
Proof.
  intros Hs w c.
  pose proof (reachable_buffers_full _ Hs) as (_ & _ & _ & [_ Ht] & [_ Hm] & [_ Hp]).
  fold w in Ht, Hm, Hp. change buf_len with 240%nat in *.
  split; [exact Ht|]. subst c. unfold advanced_curves.
  destruct (String.eqb mode "custom").
  - cbn. split; [|auto].
    repeat (apply Forall_cons; split;
      [cbn [fst snd]; split; [reflexivity | rewrite length_replicate; exact Ht]|]).
    apply Forall_nil; exact I.
  - rewrite !split_lengths by congruence. cbn. split; [|auto].
    repeat (apply Forall_cons; split;
      [cbn [fst snd]; split; [reflexivity | rewrite length_fmap; assumption]|]).
    apply Forall_nil; exact I.
Qed.

Lemma advanced_curves_full_witness :
  let w := snd (tick_stats (eth0_env 500 300 100) (new_window "eth0" 0 0 0)) in
  let c := advanced_curves "auto" 5 0.5 60 150 w in
  length (dq_items (t_hist w)) = 240%nat
  /\ Forall (fun curve : series =>
               curve.1 = dq_items (t_hist w) /\ length curve.2 = 240%nat)
       [mbps_g c; mbps_y c; mbps_r c; ping_g c; ping_y c; ping_r c]
  /\ (if String.eqb "auto" "custom"
      then mbps_c c = (dq_items (t_hist w), dq_items (mbps_hist w))
           /\ ping_c c = (dq_items (t_hist w), dq_items (ping_hist w))
      else mbps_c c = ([], []) /\ ping_c c = ([], [])).
Proof.
  apply (advanced_curves_full
           {| window := snd (tick_stats (eth0_env 500 300 100) (new_window "eth0" 0 0 0));
              in_flight := 0 |} "auto" 5 0.5 60 150).
  eapply reachable_step; [|apply step_tick].
  apply (reachable_init [("eth0", up_at 1000)] ∅ (0, 0) 0%float).
  vm_compute. reflexivity.
Defined.

(** X18. In every state the program reaches, the table of the advanced view
    has rows only for selected adapters that have been sampled, in the order
    of the selection (the active adapter when nothing is selected); the
    three rates of a row are the stored ones, each a number that is at least
    zero, so the fall-back [0.0] of their look-ups is never shown. *)
Theorem table_rows_sampled s monitored :
  reachable s ->
  let w := window s in
  let selected := match monitored with [] => [active_adapter w] | _ => monitored end in
  (table_rows monitored w).*1.*1.*1.*1 = List.filter (fun nic => bool_decide (is_Some (nic_last w !! nic))) selected
  /\ forall nic total down up counts,
       (nic, total, down, up, counts) ∈ table_rows monitored w ->
       nic_speed_total_mbps w !! nic = Some total
       /\ nic_speed_down_mbps w !! nic = Some down
       /\ nic_speed_up_mbps w !! nic = Some up
       /\ PrimFloat.leb 0 total = true /\ PrimFloat.leb 0 down = true
       /\ PrimFloat.leb 0 up = true.
Proof.
  intros Hs w selected.
  pose proof (reachable_together _ Hs) as (Hu & Hd & Ht & _). fold w in Hu, Hd, Ht.
  pose proof (reachable_rates_nonneg _ Hs) as (Nu & Nd & Nt). fold w in Nu, Nd, Nt.
  assert (forall nic, is_Some (nic_speed_total_mbps w !! nic) <-> is_Some (nic_last w !! nic))
    as Hsame by (intros nic; rewrite <- !elem_of_dom, Ht; reflexivity).
  unfold table_rows. fold selected. split.
  - induction selected as [|nic l IH]; [reflexivity|]. cbn [flat_map List.filter].
    destruct (nic_speed_total_mbps w !! nic) as [x|] eqn:E.
    + rewrite bool_decide_true by (apply Hsame; eauto). cbn. rewrite IH. reflexivity.
    + rewrite bool_decide_false by (rewrite <- Hsame, E; apply is_Some_None). cbn. exact IH.
  - intros nic total down up counts Hin. apply list_elem_of_In, in_flat_map in Hin.
    destruct Hin as (n & _ & Hin).
    destruct (nic_speed_total_mbps w !! n) as [x|] eqn:E; [|inversion Hin].
    destruct Hin as [[= <- <- <- <- <-] | []].
    assert (n ∈ dom (nic_last w)) as Hn by (rewrite <- Ht; apply elem_of_dom; eauto).
    assert (is_Some (nic_speed_down_mbps w !! n)) as [y Ey] by (apply elem_of_dom; rewrite Hd; exact Hn).
    assert (is_Some (nic_speed_up_mbps w !! n)) as [z Ez] by (apply elem_of_dom; rewrite Hu; exact Hn).
    rewrite E, Ey, Ez. cbn.
    repeat split; [exact (Nt _ _ E) | exact (Nd _ _ Ey) | exact (Nu _ _ Ez)].
Qed.

Lemma table_rows_sampled_witness :
  let w := snd (tick_stats (eth0_env 500 300 100) (new_window "eth0" 0 0 0)) in
  let selected := match ["wlan0"; "eth0"] with [] => [active_adapter w] | _ => ["wlan0"; "eth0"] end in
  (table_rows ["wlan0"; "eth0"] w).*1.*1.*1.*1
  = List.filter (fun nic => bool_decide (is_Some (nic_last w !! nic))) selected
  /\ forall nic total down up counts,
       (nic, total, down, up, counts) ∈ table_rows ["wlan0"; "eth0"] w ->
       nic_speed_total_mbps w !! nic = Some total
       /\ nic_speed_down_mbps w !! nic = Some down
       /\ nic_speed_up_mbps w !! nic = Some up
       /\ PrimFloat.leb 0 total = true /\ PrimFloat.leb 0 down = true
       /\ PrimFloat.leb 0 up = true.
Proof.
  apply (table_rows_sampled
           {| window := snd (tick_stats (eth0_env 500 300 100) (new_window "eth0" 0 0 0));
              in_flight := 0 |} ["wlan0"; "eth0"]).
  eapply reachable_step; [|apply step_tick].
  apply (reachable_init [("eth0", up_at 1000)] ∅ (0, 0) 0%float).
  vm_compute. reflexivity.
Defined.

Section Bounds.

Lemma shr_1_value mrs : 0 <= shr_m mrs -> shr_m (shr_1 mrs) = shr_m mrs / 2.
Proof.
  destruct mrs as [m r s]. cbn [shr_m]. intros H.
  destruct m as [|[p|p|]|p]; cbn [shr_1 shr_m]; try reflexivity; try lia.
  - rewrite Pos2Z.inj_xI. apply (Z.div_unique _ _ _ 1); lia.
  - rewrite Pos2Z.inj_xO. apply (Z.div_unique _ _ _ 0); lia.
Qed.

Lemma div_pow2_add a j k : 0 <= j -> 0 <= k -> a / 2 ^ j / 2 ^ k = a / 2 ^ (j + k).
Proof.
  intros Hj Hk. assert (0 < 2 ^ j) by (apply Z.pow_pos_nonneg; lia).
  assert (0 < 2 ^ k) by (apply Z.pow_pos_nonneg; lia).
  rewrite Z.pow_add_r by assumption. apply Z.div_div; lia.
Qed.

Lemma iter_pos_shr_1_value p : forall mrs,
  0 <= shr_m mrs -> shr_m (SpecFloat.iter_pos shr_1 p mrs) = shr_m mrs / 2 ^ Zpos p.
Proof.
  induction p as [p IH|p IH|]; intros mrs H; cbn [SpecFloat.iter_pos].
  - rewrite IH, IH, shr_1_value by auto using iter_pos_shr_1_nonneg, shr_1_nonneg.
    change 2 with (2 ^ 1) at 1. rewrite !div_pow2_add by lia.
    f_equal. f_equal. lia.
  - rewrite IH, IH by auto using iter_pos_shr_1_nonneg.
    rewrite div_pow2_add by lia. f_equal. f_equal. lia.
  - rewrite shr_1_value by exact H. reflexivity.
Qed.

Lemma shr_record_of_loc_m m l : shr_m (shr_record_of_loc m l) = m.
Proof. destruct l as [|[]]; reflexivity. Qed.

Lemma Zdigits2_le m j : 0 <= m < 2 ^ j -> 0 <= j -> Zdigits2 m <= j.
Proof.
  intros [H0 Hm] Hj. destruct m as [|p|p]; cbn [Zdigits2]; [exact Hj| |lia].
  pose proof (digits2_pos_lower p) as Hl.
  destruct (Z.le_gt_cases (Zpos (digits2_pos p)) j) as [H|H]; [exact H|exfalso].
  assert (2 ^ j <= 2 ^ (Zpos (digits2_pos p) - 1)) by (apply Z.pow_le_mono_r; lia). lia.
Qed.

(** Shifting to the exponent of the format keeps a value below [2^J]. *)
Lemma shr_fexp_below m e l J :
  0 <= m -> e <= J -> m < 2 ^ (J - e) -> -1074 <= J ->
  0 <= shr_m (fst (shr_fexp prec emax m e l))
  /\ snd (shr_fexp prec emax m e l) <= J
  /\ shr_m (fst (shr_fexp prec emax m e l)) < 2 ^ (J - snd (shr_fexp prec emax m e l)).
Proof.
  intros H0 He Hm HJ. split; [apply shr_fexp_nonneg, H0|].
  unfold shr_fexp, shr.
  pose proof (Zdigits2_le m (J - e) (conj H0 Hm) ltac:(lia)) as Hd.
  assert (fexp prec emax (Zdigits2 m + e) <= J) as Hf.
  { unfold fexp, emin, prec, emax. lia. }
  destruct (fexp prec emax (Zdigits2 m + e) - e) as [|n|n] eqn:En; cbn [fst snd];
    rewrite ?shr_record_of_loc_m; try (split; [exact He | exact Hm]).
  split; [lia|].
  rewrite iter_pos_shr_1_value by (rewrite shr_record_of_loc_m; exact H0).
  rewrite shr_record_of_loc_m.
  assert (0 < 2 ^ Zpos n) by (apply Z.pow_pos_nonneg; lia).
  apply Z.div_lt_upper_bound; [assumption|].
  rewrite <- Z.pow_add_r by lia. replace (Zpos n + (J - (e + Zpos n))) with (J - e) by lia.
  exact Hm.
Qed.

Lemma round_nearest_even_le m l : round_nearest_even m l <= m + 1.
Proof. destruct l as [|[]]; cbn [round_nearest_even]; try lia. destruct (Z.even m); lia. Qed.

(** Rounding a value below [2^K] gives zero or a finite float below
    [2^(K+1)]: no overflow while [K] is small. *)
Lemma binary_round_aux_below s mx ex lx K :
  0 <= mx -> ex <= K -> mx < 2 ^ (K - ex) -> -1074 <= K <= 970 ->
  sf_below (K + 1) (binary_round_aux prec emax s mx ex lx).
Proof.
  intros H0 He Hm HK. unfold binary_round_aux.
  pose proof (shr_fexp_below mx ex lx K H0 He Hm ltac:(lia)) as (H1 & E1 & M1).
  destruct (shr_fexp prec emax mx ex lx) as [mrs' e']. cbn [fst snd] in H1, E1, M1.
  set (m2 := round_nearest_even (shr_m mrs') (loc_of_shr_record mrs')).
  assert (0 <= m2) as H2 by (apply round_nearest_even_nonneg, H1).
  assert (m2 < 2 ^ (K + 1 - e')) as M2.
  { pose proof (round_nearest_even_le (shr_m mrs') (loc_of_shr_record mrs')) as Hr.
    fold m2 in Hr. replace (K + 1 - e') with (Z.succ (K - e')) by lia.
    rewrite Z.pow_succ_r by lia. lia. }
  pose proof (shr_fexp_below m2 e' loc_Exact (K + 1) H2 ltac:(lia) M2 ltac:(lia))
    as (H3 & E3 & M3).
  destruct (shr_fexp prec emax m2 e' loc_Exact) as [mrs'' e'']. cbn [fst snd] in H3, E3, M3.
  destruct (shr_m mrs'') as [|p|p]; [exact I| |lia].
  assert ((e'' <=? emax - prec) = true) as -> by (apply Z.leb_le; unfold emax, prec; lia).
  split; assumption.
Qed.

(** Aligning a mantissa to a lower exponent keeps the value. *)
Lemma shl_align_below mx ex ex' K :
  ex <= K -> Zpos mx < 2 ^ (K - ex) ->
  snd (shl_align mx ex ex') <= K
  /\ Zpos (fst (shl_align mx ex ex')) < 2 ^ (K - snd (shl_align mx ex ex')).
Proof.
  intros He Hm. unfold shl_align.
  destruct (ex' - ex) as [|d|d] eqn:Ed; cbn [fst snd]; try (split; assumption).
  split; [lia|]. rewrite iter_xO_value.
  replace (K - ex') with (K - ex + Zpos d) by lia. rewrite Z.pow_add_r by lia.
  assert (0 < 2 ^ Zpos d) by (apply Z.pow_pos_nonneg; lia). nia.
Qed.

Lemma binary_round_below s mx ex K :
  ex <= K -> Zpos mx < 2 ^ (K - ex) -> -1074 <= K <= 970 ->
  sf_below (K + 1) (binary_round prec emax s mx ex).
Proof.
  intros He Hm HK. unfold binary_round.
  pose proof (shl_align_below mx ex (fexp prec emax (Zpos (digits2_pos mx) + ex)) K He Hm)
    as [He' Hm'].
  destruct (shl_align mx ex _) as [mz ez]. cbn [fst snd] in He', Hm'.
  apply binary_round_aux_below; lia || assumption.
Qed.

Lemma binary_normalize_below m e K :
  e <= K -> Z.abs m < 2 ^ (K - e) -> -1074 <= K <= 970 ->
  sf_below (K + 1) (binary_normalize prec emax m e false).
Proof.
  intros He Hm HK. destruct m as [|p|p]; cbn [binary_normalize]; [exact I| |];
    apply binary_round_below; assumption.
Qed.

Lemma sf_below_mono K K' x : K <= K' -> sf_below K x -> sf_below K' x.
Proof.
  intros H. destruct x as [s|s| |s m e]; cbn [sf_below]; auto. intros [He Hm].
  split; [lia|]. assert (2 ^ (K - e) <= 2 ^ (K' - e)) by (apply Z.pow_le_mono_r; lia). lia.
Qed.

Lemma shl_align_snd mx ex ez : ez <= ex -> snd (shl_align mx ex ez) = ez.
Proof.
  intros H. unfold shl_align. destruct (ez - ex) as [|d|d] eqn:E; cbn [snd]; lia.
Qed.

Lemma SFmul_below Kx Ky x y :
  sf_below Kx x -> sf_below Ky y -> -1074 <= Kx + Ky <= 970 ->
  sf_below (Kx + Ky + 1) (SFmul prec emax x y).
Proof.
  destruct x as [sx|sx| |sx mx ex], y as [sy|sy| |sy my ey]; cbn [sf_below SFmul];
    try easy.
  intros [Hex Hmx] [Hey Hmy] HK. apply binary_round_aux_below; try lia.
  rewrite Pos2Z.inj_mul. replace (Kx + Ky - (ex + ey)) with ((Kx - ex) + (Ky - ey)) by lia.
  rewrite Z.pow_add_r by lia. apply Z.mul_lt_mono_nonneg; lia.
Qed.

(** A quotient is below [2^(K - E)] when the dividend is below [2^K] and
    the exponent of the divisor is at least [E]. *)
Lemma SFdiv_core_below m1 e1 m2 e2 K E :
  e1 <= K -> Zpos m1 < 2 ^ (K - e1) -> E <= e2 ->
  let r := SFdiv_core_binary prec emax (Zpos m1) e1 (Zpos m2) e2 in
  0 <= r.1.1 /\ r.1.2 <= K - E /\ r.1.1 < 2 ^ (K - E - r.1.2).
Proof.
  intros He Hm HE. unfold SFdiv_core_binary.
  set (e' := Z.min _ (e1 - e2)).
  set (m' := match e1 - e2 - e' with Z.pos _ => _ | Z0 => _ | Z.neg _ => _ end).
  assert (e' <= e1 - e2) as He' by (subst e'; lia).
  assert (0 <= m' /\ m' < 2 ^ (K - E - e')) as [Hm0 Hm'].
  { assert (Zpos m1 * 2 ^ (e1 - e2 - e') < 2 ^ (K - E - e')) as Hs.
    { assert (2 ^ (K - e1) * 2 ^ (e1 - e2 - e') <= 2 ^ (K - E - e')) as Hp.
      { rewrite <- Z.pow_add_r by lia. apply Z.pow_le_mono_r; lia. }
      assert (0 < 2 ^ (e1 - e2 - e')) by (apply Z.pow_pos_nonneg; lia). nia. }
    subst m'. destruct (e1 - e2 - e') as [|s|s] eqn:Es; [| |lia].
    - change (2 ^ 0) with 1 in Hs. lia.
    - rewrite Z.shiftl_mul_pow2 by lia.
      assert (0 < 2 ^ Zpos s) by (apply Z.pow_pos_nonneg; lia). split; [nia | exact Hs]. }
  pose proof (Z_div_mod m' (Zpos m2) ltac:(lia)) as Hd.
  destruct (Z.div_eucl m' (Zpos m2)) as [q r]. cbn [fst snd]. destruct Hd as [Hq Hr].
  assert (0 <= q <= m') by nia. repeat split; lia.
Qed.

Lemma SFdiv_below K E x y :
  sf_below K x ->
  match y with
  | S754_finite _ _ e => E <= e
  | S754_infinity _ => True
  | _ => False
  end ->
  -1074 <= K - E <= 970 ->
  sf_below (K - E + 1) (SFdiv prec emax x y).
Proof.
  destruct x as [sx|sx| |sx mx ex], y as [sy|sy| |sy my ey]; cbn [sf_below SFdiv];
    try easy.
  intros [Hex Hmx] HE HK.
  pose proof (SFdiv_core_below mx ex my ey K E Hex Hmx HE) as H. cbv zeta in H.
  destruct (SFdiv_core_binary prec emax (Zpos mx) ex (Zpos my) ey) as [[mz ez] lz].
  cbn [fst snd] in H. destruct H as (H0 & H1 & H2).
  apply binary_round_aux_below; lia || assumption.
Qed.

Lemma SFadd_below K x y :
  sf_below K x -> sf_below K y -> -1075 <= K <= 969 ->
  sf_below (K + 2) (SFadd prec emax x y).
Proof.
  destruct x as [sx|sx| |sx mx ex], y as [sy|sy| |sy my ey]; cbn [sf_below SFadd];
    try easy.
  - destruct sx, sy; easy.
  - intros _ [He Hm] HK. split; [lia|].
    assert (2 ^ (K - ey) <= 2 ^ (K + 2 - ey)) by (apply Z.pow_le_mono_r; lia). lia.
  - intros [He Hm] _ HK. split; [lia|].
    assert (2 ^ (K - ex) <= 2 ^ (K + 2 - ex)) by (apply Z.pow_le_mono_r; lia). lia.
  - intros [Hex Hmx] [Hey Hmy] HK.
    pose proof (shl_align_below mx ex (Z.min ex ey) K Hex Hmx) as [_ Hx].
    pose proof (shl_align_below my ey (Z.min ex ey) K Hey Hmy) as [_ Hy].
    rewrite shl_align_snd in Hx, Hy by lia.
    replace (K + 2) with (K + 1 + 1) by lia.
    apply binary_normalize_below; [lia| |lia].
    replace (K + 1 - Z.min ex ey) with (Z.succ (K - Z.min ex ey)) by lia.
    rewrite Z.pow_succ_r by lia.
    set (a := Zpos (fst (shl_align mx ex (Z.min ex ey)))) in *.
    set (b := Zpos (fst (shl_align my ey (Z.min ex ey)))) in *.
    set (p := 2 ^ (K - Z.min ex ey)) in *.
    assert (0 < a /\ 0 < b) as [Ha Hb] by (subst a b; lia). clearbody a b p.
    destruct sx, sy; cbn [cond_Zopp]; lia.
Qed.

Lemma SFopp_below K x : sf_below K x -> sf_below K (SFopp x).
Proof. destruct x; exact id. Qed.

(** The conversion to a primitive float keeps a bounded value bounded. *)
Lemma SF2Prim_below K x :
  sf_below K x -> -1074 <= K <= 900 -> sf_below (K + 66) (Prim2SF (SF2Prim x)).
Proof.
  destruct x as [s|s| |s m e]; cbn [sf_below]; try easy.
  - intros _ _. destruct s; exact I.
  - intros [He Hm] HK. cbn [SF2Prim]. set (pm := of_uint63 _).
    assert (sf_below (K + 66) (Prim2SF (Z.ldexp pm e))) as Hl.
    { unfold Z.ldexp. rewrite ldshiftexp_spec.
      assert (sf_below 64 (Prim2SF pm)) as Hpm.
      { subst pm. rewrite of_uint63_spec.
        pose proof (Uint63.to_Z_bounded (Uint63.of_Z (Zpos m))) as Hb.
        change Uint63.wB with (2 ^ 63) in Hb.
        apply (binary_normalize_below _ 0 63); [lia| |lia].
        rewrite Z.sub_0_r. lia. }
      set (c := Z.max (Z.min e (emax - emin)) (emin - emax - 1)).
      assert (c = Z.max e (-2099)) as Hc by (subst c; unfold emax, emin, prec; lia).
      assert (Uint63.to_Z (Uint63.of_Z (c + FloatOps.shift)) - FloatOps.shift = c) as ->.
      { rewrite Uint63.of_Z_spec, Z.mod_small; [lia|].
        change Uint63.wB with (2 ^ 63). unfold FloatOps.shift. lia. }
      destruct (Prim2SF pm) as [t|t| |t mp ep]; cbn [sf_below SFldexp] in *; try easy.
      destruct Hpm as [Hep Hmp].
      apply (sf_below_mono (Z.max (64 + c) (-1074) + 1)); [lia|].
      apply binary_round_below; [lia| |lia].
      assert (2 ^ (64 - ep) <= 2 ^ (Z.max (64 + c) (-1074) - (ep + c)))
        by (apply Z.pow_le_mono_r; lia).
      lia. }
    destruct s; [|exact Hl]. rewrite opp_spec. apply SFopp_below, Hl.
Qed.

Lemma float_of_Z_below z :
  Z.abs z < 2 ^ 64 -> sf_below 131 (Prim2SF (float_of_Z z)).
Proof.
  intros H. unfold float_of_Z. apply (SF2Prim_below 65); [|lia].
  apply (binary_normalize_below z 0 64); [lia| |lia]. rewrite Z.sub_0_r. exact H.
Qed.

Lemma finite_of_below K x : sf_below K (Prim2SF x) -> finite_number x.
Proof.
  intros H. split.
  - apply is_nan_spec. intros E. rewrite E in H. exact H.
  - apply is_infinity_spec. intros s E. rewrite E in H. exact H.
Qed.

Lemma py_max_0_finite x K : sf_below K (Prim2SF x) -> finite_number (py_max 0 x).
Proof.
  intros H. unfold py_max. destruct (PrimFloat.ltb 0 x).
  - apply (finite_of_below K), H.
  - apply (finite_of_below 0). exact I.
Qed.

(** The elapsed time is infinite, or a float with an exponent of at least
    that of the floor. *)
Lemma ref_dt_exponent now last :
  match Prim2SF (ref_dt now last) with
  | S754_finite _ _ e => -57 <= e
  | S754_infinity _ => True
  | _ => False
  end.
Proof.
  unfold ref_dt, py_max. destruct (PrimFloat.ltb min_dt (now - last)) eqn:E.
  - rewrite FloatAxioms.ltb_spec, min_dt_SF in E. unfold SFltb in E.
    destruct (Prim2SF (now - last)) as [s|s| |s m e]; cbn [SFcompare] in E;
      try discriminate; [exact I|].
    destruct s; [discriminate|].
    destruct (Z.compare_spec (-57) e); lia || discriminate.
  - rewrite min_dt_SF. lia.
Qed.

(** A rate computed from a difference of machine words is a finite
    number. *)
Lemma ref_mbps_below delta now last :
  0 <= delta < 2 ^ 64 ->
  sf_below 230 (Prim2SF (ref_mbps delta (ref_dt now last))).
Proof.
  intros Hd. unfold ref_mbps.
  pose proof (float_of_Z_below delta ltac:(lia)) as H1.
  assert (sf_below 136 (Prim2SF (float_of_Z delta * 8))) as H2.
  { rewrite mul_spec. apply (SFmul_below 131 4); [exact H1| |lia].
    change (Prim2SF 8) with (S754_finite false 4503599627370496 (-49)).
    split; [lia | reflexivity]. }
  assert (sf_below 194 (Prim2SF (float_of_Z delta * 8 / ref_dt now last))) as H3.
  { rewrite div_spec. apply (SFdiv_below 136 (-57)); [exact H2| |lia].
    apply ref_dt_exponent. }
  rewrite div_spec. apply (sf_below_mono 228); [lia|].
  apply (SFdiv_below 194 (-33)); [exact H3| |lia].
  rewrite million_SF. lia.
Qed.

End Bounds.
Section FiniteRates.

Lemma preserves_bind_get {B} (I : Window -> Prop) (k : Window -> M B) :
  (forall w0, I w0 -> preserves I (k w0)) -> preserves I (get ≫= k).
Proof. intros H w Hw. rewrite bind_get_run. apply (H w Hw w Hw). Qed.

Lemma preserves_bind_lift {A B} (I : Window -> Prop) (o : option A) (k : A -> M B) :
  (forall a, o = Some a -> preserves I (k a)) -> preserves I (lift o ≫= k).
Proof.
  intros H w Hw. rewrite bind_lift_run. destruct o as [a|]; [|exact Hw].
  apply (H a eq_refl w Hw).
Qed.

Lemma finite_zero : finite_number 0.
Proof. split; reflexivity. Qed.

Lemma finite_lookup (m : gmap string float) k :
  map_Forall (fun _ r => finite_number r) m -> finite_number (default 0%float (m !! k)).
Proof.
  intros H. destruct (m !! k) as [r|] eqn:E; [exact (H k r E) | exact finite_zero].
Qed.

Lemma deque_append_Forall {A} (P : A -> Prop) x d :
  P x -> Forall P (dq_items d) -> Forall P (dq_items (deque_append x d)).
Proof.
  intros Hx Hd. unfold deque_append. cbn [dq_items].
  assert (Forall P (dq_items d ++ [x])) as H by (apply Forall_app; auto).
  destruct (_ <? _)%nat; [apply Forall_drop, H | exact H].
Qed.

Lemma rates_finite_new active sent_mb recv_mb now :
  rates_finite (new_window active sent_mb recv_mb now).
Proof.
  split; cbn [new_window nic_speed_up_mbps nic_speed_down_mbps nic_speed_total_mbps
              last_mbps_simple_total last_mbps_simple_down last_mbps_simple_up
              last_mbps_graph_total simple_hist_total simple_hist_down simple_hist_up
              mbps_hist];
    rewrite ?deque_new_replicate;
    first [ apply map_Forall_empty
          | exact finite_zero
          | apply Forall_replicate, finite_zero ].
Qed.

(** The total of two rates computed from differences of machine words. *)
Lemma total_mbps_below d1 d2 now last :
  0 <= d1 < 2 ^ 64 -> 0 <= d2 < 2 ^ 64 ->
  sf_below 232
    (Prim2SF (ref_mbps d1 (ref_dt now last) + ref_mbps d2 (ref_dt now last))).
Proof.
  intros H1 H2. rewrite add_spec.
  apply (SFadd_below 230); [apply ref_mbps_below, H1 | apply ref_mbps_below, H2 | lia].
Qed.

(** One pass of the loop body on machine words keeps the baselines
    non-negative and the rates finite. *)
Lemma sample_nic_finite tmono nic sent recv :
  machine_word sent -> machine_word recv ->
  preserves (fun w => window_ok w /\ rates_finite w) (sample_nic tmono (nic, (sent, recv))).
Proof.
  unfold machine_word. intros Hs Hr.
  assert (forall w, window_ok w ->
    window_ok (set_nic_last (<[nic := (sent, recv, tmono)]> (nic_last w)) w)) as Hins.
  { intros w [Hb Hp]. split; [|exact Hp]. intros n ps pr pt. cbn.
    rewrite lookup_insert. case_decide; [|apply Hb]. intros [= <- <- <-]. lia. }
  unfold sample_nic. apply preserves_bind_get. intros w0 [[Hb0 _] _].
  destruct (nic_last w0 !! nic) as [[[ps pr] pt]|] eqn:E.
  - destruct (Hb0 _ _ _ _ E) as [Hps Hpr].
    assert (0 <= Z.max 0 (sent - ps) < 2 ^ 64) as Hds by lia.
    assert (0 <= Z.max 0 (recv - pr) < 2 ^ 64) as Hdr by lia.
    apply preserves_bind_lift. intros f_sent Ef.
    rewrite int_to_float_small in Ef by lia. injection Ef as <-.
    apply preserves_bind_lift. intros f_recv Ef.
    rewrite int_to_float_small in Ef by lia. injection Ef as <-.
    pose proof (ref_mbps_below _ tmono pt Hds) as Hup.
    pose proof (ref_mbps_below _ tmono pt Hdr) as Hdown.
    pose proof (total_mbps_below _ _ tmono pt Hds Hdr) as Htot.
    repeat preserves_step;
      match goal with H : window_ok _ /\ rates_finite _ |- _ => destruct H as [Hok Hfin] end;
      (split; [first [exact Hok | apply Hins, Hok] | destruct Hfin; split; cbn; try assumption]);
      (apply map_Forall_insert_2; [|assumption]).
    + apply (py_max_0_finite _ 230), Hup.
    + apply (py_max_0_finite _ 230), Hdown.
    + apply (py_max_0_finite _ 232), Htot.
  - repeat preserves_step;
      match goal with H : window_ok _ /\ rates_finite _ |- _ => destruct H as [Hok Hfin] end;
      (split; [first [exact Hok | apply Hins, Hok] | destruct Hfin; split; cbn; try assumption]);
      (apply map_Forall_insert_2; [exact finite_zero | assumption]).
Qed.

Lemma tick_stats_finite env :
  Forall (fun p => machine_word p.2.1 /\ machine_word p.2.2) (pernic env) ->
  preserves (fun w => window_ok w /\ rates_finite w) (tick_stats env).
Proof.
  intros Hper. unfold tick_stats.
  preserves_step; [preserves_step|].
  preserves_step; [preserves_step; destruct (String.eqb _ _); [assumption|]|].
  { match goal with H : window_ok _ /\ rates_finite _ |- _ => destruct H as [Hok Hfin] end.
    split; [exact Hok | destruct Hfin; split; assumption]. }
  preserves_step.
  { apply preserves_for_each. intros [nic [sent recv]] Hx.
    rewrite Forall_forall in Hper. destruct (Hper _ Hx) as [Hs Hr].
    apply sample_nic_finite; assumption. }
  repeat preserves_step;
    match goal with H : window_ok _ /\ rates_finite _ |- _ => destruct H as [Hok Hfin] end;
    (split; [exact Hok | destruct Hfin; split; cbn; try assumption]);
    first [ apply finite_lookup; assumption
          | apply deque_append_Forall; assumption ].
Qed.

Lemma in_service_finite s : in_service s -> window_ok (window s) /\ rates_finite (window s).
Proof.
  intros Hs. split; [apply in_service_ok, Hs|].
  induction Hs as [stats addrs io now w Hw | env w n Hs IH Henv | w n _ IH
                  | run win host w n _ IH]; simpl in *.
  - apply init_window_new in Hw as (a & sm & rm & ->). apply rates_finite_new.
  - apply (tick_stats_finite env (ok_pernic env Henv) w).
    split; [apply (in_service_ok _ Hs) | exact IH].
  - destruct IH; split; assumption.
  - destruct IH. destruct (PingTask_run run win host); split; assumption.
Qed.

End FiniteRates.

(** X19. While the operating system reports machine words and the results
    delivered are those of the probe tasks, every rate the window holds is a
    finite number, neither a NaN nor an infinity: the rates stored per
    adapter, the rates last shown, the samples of the three smoothing
    windows and every sample of the rate history. *)
Theorem rates_stay_finite s : in_service s -> rates_finite (window s).
Proof. intros Hs. apply in_service_finite, Hs. Qed.

Lemma rates_stay_finite_witness :
  rates_finite (snd (tick_stats (eth0_env 2000000 7000000 101)
                       (snd (tick_stats (eth0_env 1000000 5000000 100)
                               (new_window "eth0" 0 0 0))))).
Proof.
  apply (rates_stay_finite
           {| window := snd (tick_stats (eth0_env 2000000 7000000 101)
                               (snd (tick_stats (eth0_env 1000000 5000000 100)
                                       (new_window "eth0" 0 0 0))));
              in_flight := 0 |}).
  apply service_tick; [apply service_tick|].
  - apply (service_init [("eth0", up_at 1000)] ∅ (0, 0) 0%float).
    vm_compute. reflexivity.
  - apply eth0_env_ok; vm_compute; split; discriminate || reflexivity.
  - apply eth0_env_ok; vm_compute; split; discriminate || reflexivity.
Defined.
